(** * Kalshi-MM: the Avellaneda quote engine and the order reconciler

    A shallow embedding of [AvellanedaMarketMaker] (helper.py) and of the
    part of [KalshiHttpClient] (clients.py) it calls.

    Conventions of the embedding.
    - A Python [float] is a real number ([R]).  In the formulas of the
      quote engine arithmetic is exact, [math.exp] is [exp] and [math.log]
      is [ln].
    - Where the code rounds to cents, truncates or compares with a
      tolerance (the mid of the book, the keep test of the reconciler, the
      price in cents of a new order, the buffer size), every operation is
      rounded to binary64 as the code rounds it ([round64]: to nearest,
      ties to the even significand).  There a real stands for the binary64
      number of that value, and a decimal literal [x] of the code is
      [round64 x].
    - Overflow, the subnormal range, infinities and NaN of binary64 are
      outside the model: the exponent of [round64] is unbounded.
    - A Python [int] is [Z]; a [str] is [string].
    - A Python exception is a value of [exn]; a computation that may raise
      returns a [result].
    - The venue, the clock and the uuid generator form the world.  Code that
      talks to them runs in the monad [M]: it threads the world, may raise,
      and emits the list of gateway calls (with their outcomes) and log
      records it produced, in program order. *)

From Stdlib Require Import Reals Lra Lia ZArith String List Bool.
Import ListNotations.

Open Scope R_scope.

(** ** Python primitives *)

Module Py.

Inductive exn : Type :=
| ZeroDivisionError
| ValueError
| KeyError (key : string)
| HTTPError (status : Z)
| RequestException (what : string).

Inductive result (A : Type) : Type :=
| Ok (a : A)
| Raise (e : exn).

Arguments Ok {A} a.
Arguments Raise {A} e.

Definition bind {A B} (r : result A) (f : A -> result B) : result B :=
  match r with
  | Ok a => f a
  | Raise e => Raise e
  end.

(** [a / b] on numbers: true division, [ZeroDivisionError] on a zero divisor. *)
Definition div (a b : R) : result R :=
  if Req_dec_T b 0 then Raise ZeroDivisionError else Ok (a / b).

(** [math.log(x)]: [ValueError] outside the domain. *)
Definition log (x : R) : result R :=
  if Rlt_dec 0 x then Ok (ln x) else Raise ValueError.

(** [max(a, b)] returns its first argument unless the second is strictly
    larger; [min(a, b)] unless the second is strictly smaller. *)
Definition max (a b : R) : R := if Rlt_dec a b then b else a.
Definition min (a b : R) : R := if Rlt_dec b a then b else a.

(** [int(x)] on a float: truncation toward zero. *)
Definition int (x : R) : Z :=
  if Rle_dec 0 x then Int_part x else (- Int_part (- x))%Z.

(** The integer nearest to [x], a tie going to the even one. *)
Definition round_half_even (x : R) : Z :=
  let f := Int_part x in
  let d := x - IZR f in
  if Rlt_dec d (1 / 2) then f
  else if Rlt_dec (1 / 2) d then (f + 1)%Z
  else if Z.even f then f else (f + 1)%Z.

(** The binary exponent of a non-zero real: [2^e <= |x| < 2^(e+1)]. *)
Definition exponent (x : R) : Z := Int_part (ln (Rabs x) / ln 2).

(** The binary64 number nearest to [x]: the significand has 53 bits and a
    tie goes to the even one. *)
Definition round64 (x : R) : R :=
  let e := exponent x in
  IZR (round_half_even (x * powerRZ 2 (52 - e))) * powerRZ 2 (e - 52).

(** [float(n)] of an [int]. *)
Definition float (n : Z) : R := round64 (IZR n).

(** [round(x, 2)] of a float: the binary64 number nearest to the multiple of
    0.01 that is nearest to [x], a tie of [x] itself going to the even
    multiple. *)
Definition round2 (x : R) : R := round64 (IZR (round_half_even (x * 100)) / 100).

End Py.

Import Py.

Declare Scope result_scope.
Delimit Scope result_scope with result.
Notation "x <- r ;; k" := (Py.bind r (fun x => k))
  (at level 61, r at next level, right associativity) : result_scope.

(** ** Strategy parameters (the attributes set by [__init__]) *)

Record Params : Type := {
  market_ticker : string;
  base_gamma : R;
  k : R;
  sigma : R;
  T : R;
  max_position : Z;
  order_expiration : Z;
  min_spread : R;
  position_limit_buffer : R;
  inventory_skew_factor : R;
  trade_side : string
}.

(** ** Quote engine *)

Module QuoteEngine.

Section Engine.
Variable P : Params.

Local Open Scope result_scope.

Definition calculate_dynamic_gamma (inventory : Z) : result R :=
  position_ratio <- Py.div (IZR inventory) (IZR (max_position P)) ;;
  Ok (base_gamma P * exp (- Rabs position_ratio)).

Definition calculate_reservation_price (mid_price : R) (inventory : Z) (t : R)
  : result R :=
  dynamic_gamma <- calculate_dynamic_gamma inventory ;;
  let inventory_skew := IZR inventory * inventory_skew_factor P * mid_price in
  t_over_T <- Py.div t (T P) ;;
  Ok (mid_price + inventory_skew
      - IZR inventory * dynamic_gamma * (sigma P) ^ 2 * (1 - t_over_T)).

Definition calculate_optimal_spread (t : R) (inventory : Z) : result R :=
  dynamic_gamma <- calculate_dynamic_gamma inventory ;;
  t_over_T <- Py.div t (T P) ;;
  two_over_gamma <- Py.div 2 dynamic_gamma ;;
  gamma_over_k <- Py.div dynamic_gamma (k P) ;;
  log_term <- Py.log (1 + gamma_over_k) ;;
  let base_spread :=
    dynamic_gamma * (sigma P) ^ 2 * (1 - t_over_T) + two_over_gamma * log_term in
  position_ratio <- Py.div (IZR (Z.abs inventory)) (IZR (max_position P)) ;;
  let spread_adjustment := 1 - position_ratio ^ 2 in
  Ok (Py.max (base_spread * spread_adjustment * 0.01) (min_spread P)).

Definition calculate_asymmetric_quotes (mid_price : R) (inventory : Z) (t : R)
  : result (R * R) :=
  reservation_price <- calculate_reservation_price mid_price inventory t ;;
  base_spread <- calculate_optimal_spread t inventory ;;
  position_ratio <- Py.div (IZR inventory) (IZR (max_position P)) ;;
  let spread_adjustment := base_spread * Rabs position_ratio * 3 in
  let '(bid_spread, ask_spread) :=
    if (0 <? inventory)%Z
    then (base_spread / 2 + spread_adjustment,
          Py.max (base_spread / 2 - spread_adjustment) (min_spread P / 2))
    else (Py.max (base_spread / 2 - spread_adjustment) (min_spread P / 2),
          base_spread / 2 + spread_adjustment) in
  let bid_price := Py.max 0 (Py.min mid_price (reservation_price - bid_spread)) in
  let ask_price := Py.min 1 (Py.max mid_price (reservation_price + ask_spread)) in
  Ok (bid_price, ask_price).

Definition calculate_order_sizes (inventory : Z) : Z * Z :=
  let remaining_capacity := (max_position P - Z.abs inventory)%Z in
  let buffer_size :=
    Py.int (Py.round64 (Py.float (max_position P) * position_limit_buffer P)) in
  if (0 <? inventory)%Z
  then (Z.max 1 (Z.min buffer_size remaining_capacity), Z.max 1 (max_position P))
  else (Z.max 1 (max_position P), Z.max 1 (Z.min buffer_size remaining_capacity)).

End Engine.

End QuoteEngine.

Import QuoteEngine.

(** ** The venue as the strategy sees it *)

(** The fields of the [market] object that [get_mid_price] reads (cents). *)
Record market : Type := {
  yes_bid : Z;
  yes_ask : Z;
  no_bid : Z;
  no_ask : Z
}.

(** An entry of [market_positions]. *)
Record market_position : Type := {
  pos_ticker : string;
  position : Z
}.

(** A resting order, with the keys the strategy reads. *)
Record order : Type := {
  order_id : string;
  side : string;
  action : string;
  yes_price : Z;
  no_price : Z;
  remaining_count : Z
}.

(** The keyword arguments of [create_order]. *)
Record order_request : Type := {
  req_ticker : string;
  req_client_order_id : string;
  req_side : string;
  req_action : string;
  req_count : Z;
  req_type : string;
  req_yes_price : option Z;
  req_no_price : option Z;
  req_expiration_ts : Z
}.

(** The world: the HTTP client's operations used by the strategy, the clock
    and the uuid generator.  Each operation may change the world; a gateway
    call either returns or raises. *)
Class World (W : Type) : Type := {
  get_market : string -> W -> result market * W;
  get_positions : string -> W -> result (list market_position) * W;
  get_orders : string -> W -> result (list order) * W;
  cancel_order : string -> W -> result unit * W;
  create_order : order_request -> W -> result string * W;
  uuid4 : W -> string * W;
  time_time : W -> R * W;
  time_sleep : R -> W -> W
}.

(** ** Observable behaviour: gateway calls and log records *)

Inductive level : Type := Info | Error.

Inductive log_msg : Type :=
| MsgRunning (current_time : R)
| MsgMidInventory (side : string) (mid_price : R) (inventory : Z)
| MsgReservation (reservation_price : R)
| MsgDesired (bid_price ask_price : R)
| MsgRetrieved (n : nat)
| MsgBuyOrders (n : nat)
| MsgSellOrders (n : nat)
| MsgKeeping (action id : string) (price : R)
| MsgCancelling (action id : string) (price : R)
| MsgCancelFailed (id : string) (e : exn)
| MsgPlaced (action id : string) (price : R) (size : Z)
| MsgPlaceFailed (action : string) (e : exn)
| MsgSkipped (action : string) (desired_price current_price : R).

Inductive event : Type :=
| EvGetMarket (ticker : string) (r : result market)
| EvGetPositions (ticker : string) (r : result (list market_position))
| EvGetOrders (ticker : string) (r : result (list order))
| EvCancelOrder (id : string) (r : result unit)
| EvCreateOrder (req : order_request) (r : result string)
| EvLog (lvl : level) (m : log_msg).

Definition trace : Type := list event.

Definition is_fetch (e : event) : bool :=
  match e with EvGetMarket _ _ => true | _ => false end.

Definition is_cancel (e : event) : bool :=
  match e with EvCancelOrder _ _ => true | _ => false end.

Definition is_create (e : event) : bool :=
  match e with EvCreateOrder _ _ => true | _ => false end.

(** The ids of the cancel calls of a trace, in order. *)
Fixpoint cancel_calls (tr : trace) : list string :=
  match tr with
  | [] => []
  | EvCancelOrder id _ :: rest => id :: cancel_calls rest
  | _ :: rest => cancel_calls rest
  end.

(** The requests of the create calls of a trace, in order. *)
Fixpoint create_calls (tr : trace) : list order_request :=
  match tr with
  | [] => []
  | EvCreateOrder req _ :: rest => req :: create_calls rest
  | _ :: rest => create_calls rest
  end.

(** The number of market fetches of a trace. *)
Definition fetch_count (tr : trace) : nat := length (filter is_fetch tr).

(** ** The monad of strategy code *)

Module Run.

Section Monad.
Context {W : Type}.

Definition M (A : Type) : Type := W -> result A * W * trace.

Definition ret {A} (a : A) : M A := fun w => (Ok a, w, []).

Definition raise {A} (e : exn) : M A := fun w => (Raise e, w, []).

Definition bind {A B} (m : M A) (f : A -> M B) : M B :=
  fun w =>
    match m w with
    | (Ok a, w1, t1) => let '(r, w2, t2) := f a w1 in (r, w2, t1 ++ t2)
    | (Raise e, w1, t1) => (Raise e, w1, t1)
    end.

(** [try: m except Exception as e: h e] *)
Definition try_except {A} (m : M A) (h : exn -> M A) : M A :=
  fun w =>
    match m w with
    | (Ok a, w1, t1) => (Ok a, w1, t1)
    | (Raise e, w1, t1) => let '(r, w2, t2) := h e w1 in (r, w2, t1 ++ t2)
    end.

Definition lift {A} (r : result A) : M A := fun w => (r, w, []).

(** A gateway call: performed on the world, recorded with its outcome. *)
Definition call {A} (op : W -> result A * W) (ev : result A -> event) : M A :=
  fun w => let '(r, w1) := op w in (r, w1, [ev r]).

(** A read of the clock or of the uuid generator: not a gateway call. *)
Definition ambient {A} (op : W -> A * W) : M A :=
  fun w => let '(a, w1) := op w in (Ok a, w1, []).

Definition logger (lvl : level) (m : log_msg) : M unit :=
  fun w => (Ok tt, w, [EvLog lvl m]).

End Monad.

End Run.

Declare Scope run_scope.
Delimit Scope run_scope with run.
Notation "x <- m ;; k" := (Run.bind m (fun x => k))
  (at level 61, m at next level, right associativity) : run_scope.
Notation "m ;; k" := (Run.bind m (fun _ => k))
  (at level 61, right associativity) : run_scope.

(** ** The strategy: fetches, reconciliation, one cycle *)

(** The dict returned by [get_mid_price]. *)
Record mid_prices : Type := {
  mid_yes : R;
  mid_no : R
}.

(** [mid_prices[key]]: the dict has the keys "yes" and "no" only. *)
Definition mid_of (d : mid_prices) (key : string) : result R :=
  if (key =? "yes")%string then Ok (mid_yes d)
  else if (key =? "no")%string then Ok (mid_no d)
  else Raise (KeyError key).

Definition is_none {A} (o : option A) : bool :=
  match o with None => true | Some _ => false end.

Module Strategy.

Import Run.

Section Strategy.
Context {W : Type} {world : World W}.
Variable P : Params.

Local Open Scope run_scope.

(** The quotients, the sum and the halving are binary64 operations, and
    [round] rounds their result to cents. *)
Definition get_mid_price : M (W := W) mid_prices :=
  data <- call (get_market (market_ticker P)) (EvGetMarket (market_ticker P)) ;;
  let yes_bid_d := Py.round64 (Py.float (yes_bid data) / 100) in
  let yes_ask_d := Py.round64 (Py.float (yes_ask data) / 100) in
  let no_bid_d := Py.round64 (Py.float (no_bid data) / 100) in
  let no_ask_d := Py.round64 (Py.float (no_ask data) / 100) in
  let yes_mid := Py.round2 (Py.round64 (Py.round64 (yes_bid_d + yes_ask_d) / 2)) in
  let no_mid := Py.round2 (Py.round64 (Py.round64 (no_bid_d + no_ask_d) / 2)) in
  ret {| mid_yes := yes_mid; mid_no := no_mid |}.

Definition get_current_position : M (W := W) Z :=
  positions <- call (get_positions (market_ticker P))
                    (EvGetPositions (market_ticker P)) ;;
  ret (fold_left
         (fun total_position pos =>
            if (pos_ticker pos =? market_ticker P)%string
            then (total_position + position pos)%Z
            else total_position)
         positions 0%Z).

Definition get_resting_orders : M (W := W) (list order) :=
  call (get_orders (market_ticker P)) (EvGetOrders (market_ticker P)).

(** The price of a resting order on the traded side, in dollars:
    [float(order['yes_price'])/100], a binary64 quotient. *)
Definition order_price (o : order) : R :=
  if (trade_side P =? "yes")%string
  then Py.round64 (Py.float (yes_price o) / 100)
  else Py.round64 (Py.float (no_price o) / 100).

(** [abs(current_price - desired_price) < 0.01 and
    order['remaining_count'] == desired_size]: the difference is a binary64
    difference and [0.01] the binary64 literal. *)
Definition order_matches (desired_price : R) (desired_size : Z) (o : order) : bool :=
  if Rlt_dec (Rabs (Py.round64 (order_price o - desired_price))) (Py.round64 0.01)
  then (remaining_count o =? desired_size)%Z
  else false.

(** The [for order in orders] loop of [handle_order_side]; [keep_order]
    is the loop's variable of that name. *)
Fixpoint reconcile_orders (action : string) (orders : list order)
    (desired_price : R) (desired_size : Z) (keep_order : option order)
  : M (W := W) (option order) :=
  match orders with
  | [] => ret keep_order
  | o :: rest =>
      let current_price := order_price o in
      if is_none keep_order && order_matches desired_price desired_size o
      then
        logger Info (MsgKeeping action (order_id o) current_price) ;;
        reconcile_orders action rest desired_price desired_size (Some o)
      else
        logger Info (MsgCancelling action (order_id o) current_price) ;;
        try_except
          (_ <- call (cancel_order (order_id o)) (EvCancelOrder (order_id o)) ;;
           ret tt)
          (fun e => logger Error (MsgCancelFailed (order_id o) e)) ;;
        reconcile_orders action rest desired_price desired_size keep_order
  end.

(** [(action == 'buy' and desired_price < current_price) or
     (action == 'sell' and desired_price > current_price)] *)
Definition improves_on_mid (action : string) (desired_price current_price : R) : bool :=
  ((action =? "buy")%string && (if Rlt_dec desired_price current_price then true else false))
  || ((action =? "sell")%string && (if Rlt_dec current_price desired_price then true else false)).

(** The [try] block that places a new order, with its [except] clause. *)
Definition place_order (action : string) (desired_price : R) (desired_size : Z)
  : M (W := W) unit :=
  try_except
    (let price_cents := Py.int (Py.round64 (desired_price * 100)) in
     let yes_price := if (trade_side P =? "yes")%string then Some price_cents else None in
     let no_price := if (trade_side P =? "no")%string then Some price_cents else None in
     client_order_id <- ambient uuid4 ;;
     now <- ambient time_time ;;
     let req := {| req_ticker := market_ticker P;
                   req_client_order_id := client_order_id;
                   req_side := trade_side P;
                   req_action := action;
                   req_count := desired_size;
                   req_type := "limit";
                   req_yes_price := yes_price;
                   req_no_price := no_price;
                   req_expiration_ts := (Py.int now + order_expiration P)%Z |} in
     new_id <- call (create_order req) (EvCreateOrder req) ;;
     logger Info (MsgPlaced action new_id desired_price desired_size))
    (fun e => logger Error (MsgPlaceFailed action e)).

Definition handle_order_side (action : string) (orders : list order)
    (desired_price : R) (desired_size : Z) : M (W := W) unit :=
  keep_order <- reconcile_orders action orders desired_price desired_size None ;;
  mids <- get_mid_price ;;
  current_price <- lift (mid_of mids (trade_side P)) ;;
  match keep_order with
  | None =>
      if improves_on_mid action desired_price current_price
      then place_order action desired_price desired_size
      else logger Info (MsgSkipped action desired_price current_price)
  | Some _ => ret tt
  end.

(** The loop of [manage_orders] that sorts the resting orders of the
    traded side into [buy_orders] and [sell_orders]. *)
Fixpoint split_orders (current_orders buy_orders sell_orders : list order)
  : list order * list order :=
  match current_orders with
  | [] => (buy_orders, sell_orders)
  | o :: rest =>
      if (side o =? trade_side P)%string
      then
        if (action o =? "buy")%string
        then split_orders rest (buy_orders ++ [o]) sell_orders
        else if (action o =? "sell")%string
             then split_orders rest buy_orders (sell_orders ++ [o])
             else split_orders rest buy_orders sell_orders
      else split_orders rest buy_orders sell_orders
  end.

Definition manage_orders (bid_price ask_price : R) (buy_size sell_size : Z)
  : M (W := W) unit :=
  current_orders <- get_resting_orders ;;
  logger Info (MsgRetrieved (length current_orders)) ;;
  let '(buy_orders, sell_orders) := split_orders current_orders [] [] in
  logger Info (MsgBuyOrders (length buy_orders)) ;;
  logger Info (MsgSellOrders (length sell_orders)) ;;
  handle_order_side "buy" buy_orders bid_price buy_size ;;
  handle_order_side "sell" sell_orders ask_price sell_size.

(** The body of the [while] loop of [run]: one cycle. *)
Definition run_cycle (start_time dt : R) : M (W := W) unit :=
  now <- ambient time_time ;;
  let current_time := now - start_time in
  logger Info (MsgRunning current_time) ;;
  mids <- get_mid_price ;;
  mid_price <- lift (mid_of mids (trade_side P)) ;;
  inventory <- get_current_position ;;
  logger Info (MsgMidInventory (trade_side P) mid_price inventory) ;;
  reservation_price <-
    lift (calculate_reservation_price P mid_price inventory current_time) ;;
  quotes <- lift (calculate_asymmetric_quotes P mid_price inventory current_time) ;;
  let '(bid_price, ask_price) := quotes in
  let '(buy_size, sell_size) := calculate_order_sizes P inventory in
  logger Info (MsgReservation reservation_price) ;;
  logger Info (MsgDesired bid_price ask_price) ;;
  manage_orders bid_price ask_price buy_size sell_size ;;
  ambient (fun w => (tt, time_sleep dt w)).

End Strategy.

End Strategy.

Import Strategy.

(** ** Reference notions used to state the reconciliation properties *)

(** The orders of a list other than the first one satisfying [keep]. *)
Fixpoint extraneous (keep : order -> bool) (orders : list order) : list order :=
  match orders with
  | [] => []
  | o :: rest => if keep o then rest else o :: extraneous keep rest
  end.

(** No cancel call is issued after a market fetch or a create call. *)
Fixpoint cancels_first (tr : trace) : bool :=
  match tr with
  | [] => true
  | e :: rest =>
      if is_fetch e || is_create e
      then forallb (fun e' => negb (is_cancel e')) rest
      else cancels_first rest
  end.

(** Every failed cancel or create call is followed at once by the error
    record of its [except] clause. *)
Fixpoint failures_logged (tr : trace) : Prop :=
  match tr with
  | [] => True
  | EvCancelOrder id (Raise e) :: rest =>
      hd_error rest = Some (EvLog Error (MsgCancelFailed id e)) /\ failures_logged rest
  | EvCreateOrder req (Raise e) :: rest =>
      hd_error rest = Some (EvLog Error (MsgPlaceFailed (req_action req) e))
      /\ failures_logged rest
  | _ :: rest => failures_logged rest
  end.

(** No fetch of the trace raised. *)
Definition fetch_failed (e : event) : bool :=
  match e with
  | EvGetMarket _ (Raise _) | EvGetPositions _ (Raise _) | EvGetOrders _ (Raise _) => true
  | _ => false
  end.

Definition fetches_succeed (tr : trace) : Prop :=
  forallb (fun e => negb (fetch_failed e)) tr = true.

(** The parameter ranges of the data model that the quote engine divides by
    or takes logarithms of. *)
Record valid_params (P : Params) : Prop := {
  gamma_pos : 0 < base_gamma P;
  k_pos : 0 < k P;
  T_pos : 0 < T P;
  max_position_pos : (0 < max_position P)%Z
}.

(** ** The shape of a run *)

(** The result and the emitted trace of a run. *)
Definition outcome {W A : Type} (x : result A * W * trace) : result A := fst (fst x).
Definition emitted {W A : Type} (x : result A * W * trace) : trace := snd x.

(** The mid [get_mid_price] computes from a bid and an ask in cents:
    [round((float(bid)/100 + float(ask)/100) / 2, 2)]. *)
Definition mid_cents (bid ask : Z) : R :=
  Py.round2
    (Py.round64
       (Py.round64 (Py.round64 (Py.float bid / 100) + Py.round64 (Py.float ask / 100))
        / 2)).

(** The dict [get_mid_price] computes from the fetched [market] object. *)
Definition mids_of (data : market) : mid_prices :=
  {| mid_yes := mid_cents (yes_bid data) (yes_ask data);
     mid_no := mid_cents (no_bid data) (no_ask data) |}.

(** The events of the reconciliation loop: cancel calls and log records. *)
Definition loop_event (e : event) : bool :=
  match e with
  | EvCancelOrder _ _ | EvLog _ _ => true
  | _ => false
  end.

(** The events after the fetch of one side: create calls and log records. *)
Definition placement_event (e : event) : bool :=
  match e with
  | EvCreateOrder _ _ | EvLog _ _ => true
  | _ => false
  end.

(** The record the [except] clause adds after a cancel call, if it raised. *)
Definition cancel_log (id : string) (r : result unit) : trace :=
  match r with
  | Ok _ => []
  | Raise e => [EvLog Error (MsgCancelFailed id e)]
  end.

(** The price of a resting order as the venue lists it: whole cents of the
    traded side, in dollars. *)
Definition listed_price (P : Params) (o : order) : R :=
  (if (trade_side P =? "yes")%string then IZR (yes_price o) else IZR (no_price o))
  / 100.

(** The value of [keep_order] after the loop, and the orders it cancelled,
    from the value [keep] of [keep_order] before it. *)
Definition kept (P : Params) (desired_price : R) (desired_size : Z)
    (keep : option order) (orders : list order) : option order :=
  match keep with
  | Some o => Some o
  | None => find (order_matches P desired_price desired_size) orders
  end.

Definition dropped (P : Params) (desired_price : R) (desired_size : Z)
    (keep : option order) (orders : list order) : list order :=
  match keep with
  | Some _ => orders
  | None => extraneous (order_matches P desired_price desired_size) orders
  end.

(** What [handle_order_side] does from the mid fetch on: [fetched] is the
    outcome of the fetch, [keep] the order kept by the loop. *)
Inductive side_tail (P : Params) (action : string) (desired_price : R)
    (desired_size : Z) (keep : option order)
  : result market -> result unit -> trace -> Prop :=
| TailFetchFailed (e : exn) :
    side_tail P action desired_price desired_size keep (Raise e) (Raise e) []
| TailNoMid (data : market) (e : exn) :
    mid_of (mids_of data) (trade_side P) = Raise e ->
    side_tail P action desired_price desired_size keep (Ok data) (Raise e) []
| TailKept (data : market) (current_price : R) (o : order) :
    keep = Some o ->
    mid_of (mids_of data) (trade_side P) = Ok current_price ->
    side_tail P action desired_price desired_size keep (Ok data) (Ok tt) []
| TailSkipped (data : market) (current_price : R) :
    keep = None ->
    mid_of (mids_of data) (trade_side P) = Ok current_price ->
    improves_on_mid action desired_price current_price = false ->
    side_tail P action desired_price desired_size keep (Ok data) (Ok tt)
      [EvLog Info (MsgSkipped action desired_price current_price)]
| TailPlaced (data : market) (current_price : R) (req : order_request) (new_id : string) :
    keep = None ->
    mid_of (mids_of data) (trade_side P) = Ok current_price ->
    improves_on_mid action desired_price current_price = true ->
    req_action req = action ->
    req_count req = desired_size ->
    side_tail P action desired_price desired_size keep (Ok data) (Ok tt)
      [EvCreateOrder req (Ok new_id);
       EvLog Info (MsgPlaced action new_id desired_price desired_size)]
| TailRejected (data : market) (current_price : R) (req : order_request) (e : exn) :
    keep = None ->
    mid_of (mids_of data) (trade_side P) = Ok current_price ->
    improves_on_mid action desired_price current_price = true ->
    req_action req = action ->
    req_count req = desired_size ->
    side_tail P action desired_price desired_size keep (Ok data) (Ok tt)
      [EvCreateOrder req (Raise e); EvLog Error (MsgPlaceFailed action e)].

(** A run of [handle_order_side]: the loop's cancels and records, the mid
    fetch, then the tail. *)
Inductive side_run (P : Params) (action : string) (orders : list order)
    (desired_price : R) (desired_size : Z) : result unit -> trace -> Prop :=
| SideRun (loop_trace : trace) (fetched : result market) (r : result unit) (tail : trace) :
    cancel_calls loop_trace
    = map order_id (extraneous (order_matches P desired_price desired_size) orders) ->
    forallb loop_event loop_trace = true ->
    failures_logged loop_trace ->
    side_tail P action desired_price desired_size
      (find (order_matches P desired_price desired_size) orders) fetched r tail ->
    side_run P action orders desired_price desired_size r
      (loop_trace ++ EvGetMarket (market_ticker P) fetched :: tail).

(** The records [manage_orders] emits before it handles the two sides. *)
Definition cycle_head (P : Params) (current_orders : list order) : trace :=
  [EvGetOrders (market_ticker P) (Ok current_orders);
   EvLog Info (MsgRetrieved (length current_orders));
   EvLog Info (MsgBuyOrders (length (fst (split_orders P current_orders [] []))));
   EvLog Info (MsgSellOrders (length (snd (split_orders P current_orders [] []))))].

(** A run of [manage_orders]: the order fetch, then the buy side, then (if
    the buy side returned) the sell side. *)
Inductive cycle_run (P : Params) (bid_price ask_price : R) (buy_size sell_size : Z)
  : result unit -> trace -> Prop :=
| CycleNoOrders (e : exn) :
    cycle_run P bid_price ask_price buy_size sell_size
      (Raise e) [EvGetOrders (market_ticker P) (Raise e)]
| CycleBuyRaised (current_orders : list order) (e : exn) (buy_trace : trace) :
    side_run P "buy" (fst (split_orders P current_orders [] [])) bid_price buy_size
      (Raise e) buy_trace ->
    cycle_run P bid_price ask_price buy_size sell_size
      (Raise e) (cycle_head P current_orders ++ buy_trace)
| CycleBothSides (current_orders : list order) (buy_trace : trace)
    (r : result unit) (sell_trace : trace) :
    side_run P "buy" (fst (split_orders P current_orders [] [])) bid_price buy_size
      (Ok tt) buy_trace ->
    side_run P "sell" (snd (split_orders P current_orders [] [])) ask_price sell_size
      r sell_trace ->
    cycle_run P bid_price ask_price buy_size sell_size
      r (cycle_head P current_orders ++ buy_trace ++ sell_trace).

(** ** A scripted venue, for running the strategy on concrete inputs *)

Module Sim.

Record venue : Type := {
  book : market;
  resting : list order;
  holdings : list market_position;
  clock : R;
  issued : nat;
  cancel_status : option Z;  (* [Some s]: every cancel raises [HTTPError s] *)
  create_status : option Z   (* [Some s]: every create raises [HTTPError s] *)
}.

Fixpoint tag (n : nat) : string :=
  match n with
  | O => EmptyString
  | S n' => ("i" ++ tag n')%string
  end.

Definition set_resting (v : venue) (os : list order) : venue :=
  {| book := book v; resting := os; holdings := holdings v; clock := clock v;
     issued := issued v; cancel_status := cancel_status v;
     create_status := create_status v |}.

Definition set_issued (v : venue) (n : nat) : venue :=
  {| book := book v; resting := resting v; holdings := holdings v; clock := clock v;
     issued := n; cancel_status := cancel_status v;
     create_status := create_status v |}.

Definition set_clock (v : venue) (t : R) : venue :=
  {| book := book v; resting := resting v; holdings := holdings v; clock := t;
     issued := issued v; cancel_status := cancel_status v;
     create_status := create_status v |}.

Definition sim_cancel (id : string) (v : venue) : result unit * venue :=
  match cancel_status v with
  | Some s => (Raise (HTTPError s), v)
  | None =>
      (Ok tt, set_resting v (filter (fun o => negb (order_id o =? id)%string) (resting v)))
  end.

Definition sim_create (req : order_request) (v : venue) : result string * venue :=
  match create_status v with
  | Some s => (Raise (HTTPError s), v)
  | None =>
      let id := ("o" ++ req_client_order_id req)%string in
      let cents (p : option Z) := match p with Some c => c | None => 0%Z end in
      (Ok id,
       set_resting v
         (resting v ++ [{| order_id := id; side := req_side req;
                           action := req_action req;
                           yes_price := cents (req_yes_price req);
                           no_price := cents (req_no_price req);
                           remaining_count := req_count req |}]))
  end.

#[export] Instance venue_world : World venue := {
  get_market _ v := (Ok (book v), v);
  get_positions _ v := (Ok (holdings v), v);
  get_orders _ v := (Ok (resting v), v);
  cancel_order := sim_cancel;
  create_order := sim_create;
  uuid4 v := (("u" ++ tag (issued v))%string, set_issued v (S (issued v)));
  time_time v := (clock v, v);
  time_sleep dt v := set_clock v (clock v + dt)
}.

End Sim.

(** A computation performs [n] market fetches whenever it returns, and at
    most [n] when it raises. *)
Definition fetches {W A : Type} (n : nat) (m : Run.M (W := W) A) : Prop :=
  forall w : W,
    match outcome (m w) with
    | Ok _ => fetch_count (emitted (m w)) = n
    | Raise _ => (fetch_count (emitted (m w)) <= n)%nat
    end.

(** ** Concrete inputs *)

Module Scenario.

Local Open Scope string_scope.

(** The defaults of [create_market_maker] (runner.py). *)
Definition params : Params := {|
  market_ticker := "MKT";
  base_gamma := 0.1;
  k := 1.5;
  sigma := 0.5;
  T := 3600;
  max_position := 100;
  order_expiration := 300;
  min_spread := 0.01;
  position_limit_buffer := 0.1;
  inventory_skew_factor := 0.01;
  trade_side := "yes"
|}.

(** A book quoted 49 / 51 cents on both sides: both mids are 0.50. *)
Definition quotes : market :=
  {| yes_bid := 49; yes_ask := 51; no_bid := 49; no_ask := 51 |}.

Definition resting_bid : order :=
  {| order_id := "b1"; side := "yes"; action := "buy";
     yes_price := 48; no_price := 52; remaining_count := 10 |}.

Definition resting_ask : order :=
  {| order_id := "a1"; side := "yes"; action := "sell";
     yes_price := 52; no_price := 48; remaining_count := 10 |}.

Definition stale_ask : order :=
  {| order_id := "s1"; side := "yes"; action := "sell";
     yes_price := 70; no_price := 30; remaining_count := 10 |}.

Definition venue_with (orders : list order) (cancel_status create_status : option Z)
  : Sim.venue :=
  {| Sim.book := quotes;
     Sim.resting := orders;
     Sim.holdings := [];
     Sim.clock := 1000;
     Sim.issued := 0;
     Sim.cancel_status := cancel_status;
     Sim.create_status := create_status |}.

(** A venue that accepts every call, and one that rejects every cancel
    (404) and every create (400). *)
Definition open_venue (orders : list order) : Sim.venue :=
  venue_with orders None None.

Definition rejecting_venue (orders : list order) : Sim.venue :=
  venue_with orders (Some 404%Z) (Some 400%Z).

Definition buy_request (cents : Z) (uuid : string) : order_request :=
  {| req_ticker := "MKT"; req_client_order_id := uuid; req_side := "yes";
     req_action := "buy"; req_count := 10; req_type := "limit";
     req_yes_price := Some cents; req_no_price := None;
     req_expiration_ts := 1300 |}.

Definition sell_request (cents : Z) (uuid : string) : order_request :=
  {| req_ticker := "MKT"; req_client_order_id := uuid; req_side := "yes";
     req_action := "sell"; req_count := 10; req_type := "limit";
     req_yes_price := Some cents; req_no_price := None;
     req_expiration_ts := 1300 |}.

(** A resting bid of 10 contracts at a given number of cents, and the
    defaults with another buffer fraction. *)
Definition bid_at (cents : Z) : order :=
  {| order_id := "b1"; side := "yes"; action := "buy";
     yes_price := cents; no_price := 100 - cents; remaining_count := 10 |}.

Definition with_buffer (fraction : R) : Params := {|
  market_ticker := "MKT";
  base_gamma := 0.1;
  k := 1.5;
  sigma := 0.5;
  T := 3600;
  max_position := 100;
  order_expiration := 300;
  min_spread := 0.01;
  position_limit_buffer := fraction;
  inventory_skew_factor := 0.01;
  trade_side := "yes"
|}.

End Scenario.

From Stdlib Require Import Ascii DecimalString.

(** ** Further reference notions *)

(** Every event a computation emits satisfies [Q], in every world. *)
Definition emits {W A : Type} (Q : event -> Prop) (m : Run.M (W := W) A) : Prop :=
  forall w : W, Forall Q (emitted (m w)).

(** The keyword arguments [handle_order_side] passes to [create_order] for
    the desired quote: everything but the uuid and the clock read is fixed by
    the parameters and the quote. *)
Definition request_for (P : Params) (action : string) (desired_price : R)
    (desired_size : Z) (req : order_request) : Prop :=
  req_ticker req = market_ticker P
  /\ req_side req = trade_side P
  /\ req_action req = action
  /\ req_count req = desired_size
  /\ req_type req = "limit"%string
  /\ req_yes_price req
     = (if (trade_side P =? "yes")%string
        then Some (Py.int (Py.round64 (desired_price * 100))) else None)
  /\ req_no_price req
     = (if (trade_side P =? "no")%string
        then Some (Py.int (Py.round64 (desired_price * 100))) else None)
  /\ exists now : R, req_expiration_ts req = (Py.int now + order_expiration P)%Z.

(** A resting order of the traded side with the given action. *)
Definition on_side (P : Params) (act : string) (o : order) : bool :=
  (side o =? trade_side P)%string && (action o =? act)%string.

Definition is_get_orders (e : event) : bool :=
  match e with EvGetOrders _ _ => true | _ => false end.

(** The sum of a list of integers. *)
Definition Zsum (l : list Z) : Z := fold_right Z.add 0%Z l.

(** The world a run ends in. *)
Definition world_after {W A : Type} (x : result A * W * trace) : W := snd (fst x).

(** ** The loop of [run] *)

Module Loop.

(** What [run] emits: the events of its cycles and, after the loop, the
    record "Avellaneda market maker finished running". *)
Inductive run_event : Type :=
| CycleEvent (e : event)
| LogFinished.

(** How a run ends: the loop condition failed, a cycle raised, or the fuel
    given to the model was used up before either happened. *)
Inductive run_outcome : Type :=
| Finished
| Crashed (e : exn)
| OutOfFuel.

Section Run.
Context {W : Type} {world : World W}.
Variable P : Params.

(** [while time.time() - start_time < self.T: <one cycle>], then the closing
    record.  An exception of a cycle is not caught. *)
Fixpoint run_loop (fuel : nat) (start_time dt : R) (w : W)
  : run_outcome * W * list run_event :=
  match fuel with
  | O => (OutOfFuel, w, [])
  | S fuel' =>
      let '(now, w0) := time_time w in
      if Rlt_dec (now - start_time) (T P)
      then
        match run_cycle P start_time dt w0 with
        | (Ok _, w1, tr) =>
            let '(r, w2, rest) := run_loop fuel' start_time dt w1 in
            (r, w2, map CycleEvent tr ++ rest)
        | (Raise e, w1, tr) => (Crashed e, w1, map CycleEvent tr)
        end
      else (Finished, w0, [LogFinished])
  end.

Definition run (fuel : nat) (dt : R) (w : W) : run_outcome * W * list run_event :=
  let '(start_time, w0) := time_time w in
  run_loop fuel start_time dt w0.

End Run.

End Loop.

(** ** A clock that does not run backwards *)

(** [clock_of] is the time a world shows: [time.time()] (and
    [datetime.now()]) read it, no operation sets it back, and [time.sleep(d)]
    moves it on by at least [d]. *)
Class ClockLaws (W : Type) {world : World W} : Type := {
  clock_of : W -> R;
  time_time_reads : forall w, fst (time_time w) = clock_of w;
  time_time_steady : forall w, clock_of w <= clock_of (snd (time_time w));
  time_sleep_advances : forall d w, clock_of w + d <= clock_of (time_sleep d w);
  uuid4_steady : forall w, clock_of w <= clock_of (snd (uuid4 w));
  get_market_steady : forall t w, clock_of w <= clock_of (snd (get_market t w));
  get_positions_steady : forall t w, clock_of w <= clock_of (snd (get_positions t w));
  get_orders_steady : forall t w, clock_of w <= clock_of (snd (get_orders t w));
  cancel_order_steady : forall id w, clock_of w <= clock_of (snd (cancel_order id w));
  create_order_steady : forall req w, clock_of w <= clock_of (snd (create_order req w))
}.

(** A computation moves the clock on by at least [d] when it returns, and
    does not set it back when it raises. *)
Definition advances {W A : Type} {world : World W} {laws : ClockLaws W}
    (d : R) (m : Run.M (W := W) A) : Prop :=
  forall w : W,
    match outcome (m w) with
    | Ok _ => clock_of w + d <= clock_of (world_after (m w))
    | Raise _ => clock_of w <= clock_of (world_after (m w))
    end.

(** ** The HTTP client (clients.py) *)

Module Client.

Local Open Scope string_scope.

(** [s[1:]] *)
Definition drop_first (s : string) : string :=
  match s with
  | EmptyString => EmptyString
  | String _ rest => rest
  end.

(** [{k: v for k, v in params.items() if v is not None}], on a dict given as
    the list of its items; the values are given as [str(v)]. *)
Fixpoint relevant_params (params : list (string * option string))
  : list (string * string) :=
  match params with
  | [] => []
  | (key, Some v) :: rest => (key, v) :: relevant_params rest
  | (_, None) :: rest => relevant_params rest
  end.

Definition query_generation (params : list (string * option string)) : string :=
  let relevant := relevant_params params in
  if (0 <? length relevant)%nat
  then "?" ++ drop_first
                (String.concat ""
                   (map (fun kv => "&" ++ fst kv ++ "=" ++ snd kv) relevant))
  else "".

(** [x in range(lo, hi)] *)
Definition in_range (lo hi x : Z) : bool := ((lo <=? x) && (x <? hi))%Z.

(** [raise_if_bad_response]; [raise_for_status] is the method of the
    response object (requests library), given its status code. *)
Definition raise_if_bad_response (raise_for_status : Z -> result unit)
    (status_code : Z) : result unit :=
  if negb (in_range 200 299 status_code)
  then raise_for_status status_code
  else Ok tt.

(** [path.split('?')[0]] *)
Fixpoint before_query (path : string) : string :=
  match path with
  | EmptyString => EmptyString
  | String c rest =>
      if (c =? "?")%char then EmptyString else String c (before_query rest)
  end.

(** The text [request_headers] signs. *)
Definition msg_string (timestamp_str method path : string) : string :=
  let path0 := before_query path in
  if String.prefix "/trade-api/ws" path0
  then timestamp_str ++ method ++ path0
  else timestamp_str ++ method ++ "/trade-api/v2" ++ path0.

(** [request_headers], given the clock read in milliseconds and the
    signature function of the key. *)
Definition request_headers (sign_pss_text : string -> string) (key_id : string)
    (current_time_milliseconds : Z) (method path : string)
  : list (string * string) :=
  let timestamp_str :=
    DecimalString.NilZero.string_of_int (Z.to_int current_time_milliseconds) in
  let signature := sign_pss_text (msg_string timestamp_str method path) in
  [("Content-Type", "application/json");
   ("KALSHI-ACCESS-KEY", key_id);
   ("KALSHI-ACCESS-SIGNATURE", signature);
   ("KALSHI-ACCESS-TIMESTAMP", timestamp_str)].

Section RateLimit.
Context {W : Type} {world : World W}.

(** [rate_limit], on the value of [self.last_api_call]: returns its new
    value.  The threshold is 100 ms. *)
Definition rate_limit (last_api_call : R) (w : W) : R * W :=
  let '(now, w1) := time_time w in
  let w2 := if Rlt_dec (now - last_api_call) 0.1 then time_sleep 0.1 w1 else w1 in
  time_time w2.

End RateLimit.

End Client.

(** ** Further concrete inputs *)

Module Edge.

Local Open Scope string_scope.

(** The default parameters with no capacity at all. *)
Definition no_capacity : Params := {|
  market_ticker := "MKT";
  base_gamma := 0.1;
  k := 1.5;
  sigma := 0.5;
  T := 3600;
  max_position := 0;
  order_expiration := 300;
  min_spread := 0.01;
  position_limit_buffer := 0.1;
  inventory_skew_factor := 0.01;
  trade_side := "yes"
|}.

(** The default parameters with a traded side the venue does not have. *)
Definition unknown_side : Params := {|
  market_ticker := "MKT";
  base_gamma := 0.1;
  k := 1.5;
  sigma := 0.5;
  T := 3600;
  max_position := 100;
  order_expiration := 300;
  min_spread := 0.01;
  position_limit_buffer := 0.1;
  inventory_skew_factor := 0.01;
  trade_side := "maybe"
|}.

(** A portfolio with a position in the market and one in another market. *)
Definition portfolio : Sim.venue :=
  {| Sim.book := Scenario.quotes;
     Sim.resting := [];
     Sim.holdings := [ {| pos_ticker := "MKT"; position := 7 |};
                       {| pos_ticker := "OTHER"; position := 5 |};
                       {| pos_ticker := "MKT"; position := -3 |} ];
     Sim.clock := 1000;
     Sim.issued := 0;
     Sim.cancel_status := None;
     Sim.create_status := None |}.

(** The ask of 10 contracts the scripted venue rests after a create call at
    57 cents, and the venue resting it. *)
Definition placed_ask : order :=
  {| order_id := "ou"; side := "yes"; action := "sell";
     yes_price := 57; no_price := 0; remaining_count := 10 |}.

Definition venue_resting_ask : Sim.venue :=
  {| Sim.book := Scenario.quotes;
     Sim.resting := [placed_ask];
     Sim.holdings := [];
     Sim.clock := 1000;
     Sim.issued := 1;
     Sim.cancel_status := None;
     Sim.create_status := None |}.

(** [raise_for_status] of the requests library: an [HTTPError] for the
    client and server error codes, nothing otherwise. *)
Definition raise_for_status (status_code : Z) : result unit :=
  if ((400 <=? status_code) && (status_code <? 600))%Z
  then Raise (HTTPError status_code)
  else Ok tt.

End Edge.

(** * Properties *)

(** ** Python primitives *)

Lemma div_ok (a b : R) : b <> 0 -> Py.div a b = Ok (a / b).
Proof.
  intros Hb. unfold Py.div. destruct (Req_dec_T b 0) as [E | _]; [contradiction | reflexivity].
Qed.

Lemma log_ok (x : R) : 0 < x -> Py.log x = Ok (ln x).
Proof.
  intros Hx. unfold Py.log. destruct (Rlt_dec 0 x) as [_ | N]; [reflexivity | contradiction].
Qed.

Lemma max_is_Rmax (a b : R) : Py.max a b = Rmax a b.
Proof.
  unfold Py.max, Rmax. destruct (Rlt_dec a b), (Rle_dec a b); lra.
Qed.

Lemma min_is_Rmin (a b : R) : Py.min a b = Rmin a b.
Proof.
  unfold Py.min, Rmin. destruct (Rlt_dec b a), (Rle_dec a b); lra.
Qed.

Lemma max_bounds (a b : R) : a <= Py.max a b /\ b <= Py.max a b.
Proof. unfold Py.max. destruct (Rlt_dec a b); lra. Qed.

Lemma min_bounds (a b : R) : Py.min a b <= a /\ Py.min a b <= b.
Proof. unfold Py.min. destruct (Rlt_dec b a); lra. Qed.

(** Clamping into [[lo, hi]] the way the quotes are clamped. *)
Lemma clamp_low (lo hi x : R) : lo <= hi -> lo <= Py.max lo (Py.min hi x) <= hi.
Proof.
  intros H. unfold Py.max, Py.min.
  destruct (Rlt_dec x hi); destruct (Rlt_dec lo _); lra.
Qed.

Lemma clamp_high (lo hi x : R) : lo <= hi -> lo <= Py.min hi (Py.max lo x) <= hi.
Proof.
  intros H. unfold Py.max, Py.min.
  destruct (Rlt_dec lo x); destruct (Rlt_dec _ hi); lra.
Qed.

(** [int] and the floor differ only on negative non-integers, where both are
    at most zero. *)
Lemma int_floor (x : R) :
  Py.int x = Int_part x \/ ((Py.int x <= 0)%Z /\ (Int_part x <= 0)%Z).
Proof.
  unfold Py.int. destruct (Rle_dec 0 x) as [Hx | Hx]; [left; reflexivity | right].
  assert (Hneg : x < 0) by lra.
  destruct (base_Int_part x) as [Hle Hgt].
  destruct (base_Int_part (- x)) as [Hle' Hgt'].
  split.
  - assert (H0 : (-1 < Int_part (- x))%Z) by (apply lt_IZR; lra).
    lia.
  - apply le_IZR. lra.
Qed.

(** Truncation toward zero is the floor on non-negative numbers. *)
Lemma int_nonneg_floor (x : R) :
  0 <= x -> (0 <= Py.int x)%Z /\ IZR (Py.int x) <= x < IZR (Py.int x) + 1.
Proof.
  intros Hx. unfold Py.int. destruct (Rle_dec 0 x) as [_ | N]; [|contradiction].
  destruct (base_Int_part x) as [Hlo Hhi]. split; [|lra].
  assert (H : (-1 < Int_part x)%Z) by (apply lt_IZR; lra). lia.
Qed.

Lemma int_between (n : Z) (x : R) :
  (0 <= n)%Z -> IZR n <= x < IZR n + 1 -> Py.int x = n.
Proof.
  intros Hn [Hlo Hhi]. apply IZR_le in Hn.
  destruct (int_nonneg_floor x) as [_ [H1 H2]]; [lra|].
  assert (A : (n - 1 < Py.int x)%Z) by (apply lt_IZR; rewrite minus_IZR; lra).
  assert (B : (Py.int x < n + 1)%Z) by (apply lt_IZR; rewrite plus_IZR; lra).
  lia.
Qed.

(** ** binary64 rounding

    [round64] is characterised by the binade of its argument and the nearest
    integer significand ([round64_eq], [round64_dyadic]); it moves a number
    by at most [2^-53] of its magnitude ([round64_error]) and leaves a
    binary64 number as it is ([round64_idem], [round64_IZR]). *)

Lemma ln2_pos : 0 < ln 2.
Proof. rewrite <- ln_1. apply ln_increasing; lra. Qed.

Lemma ln_pow2 (e : Z) : ln (powerRZ 2 e) = IZR e * ln 2.
Proof. rewrite powerRZ_Rpower by lra. apply ln_Rpower. Qed.

Lemma pow2_pos (e : Z) : 0 < powerRZ 2 e.
Proof. apply powerRZ_lt; lra. Qed.

Lemma ln_le (x y : R) : 0 < x -> x <= y -> ln x <= ln y.
Proof.
  intros Hx [H | ->]; [left; apply ln_increasing; assumption | right; reflexivity].
Qed.

Lemma exponent_unique (x : R) (e : Z) :
  powerRZ 2 e <= Rabs x < powerRZ 2 (e + 1) -> Py.exponent x = e.
Proof.
  intros [Hlo Hhi]. unfold Py.exponent. symmetry. apply Int_part_spec.
  pose proof ln2_pos as L. pose proof (pow2_pos e) as Pe.
  assert (Hx : 0 < Rabs x) by lra.
  apply ln_le in Hlo; [|assumption]. apply ln_increasing in Hhi; [|assumption].
  rewrite ln_pow2 in Hlo, Hhi. rewrite plus_IZR in Hhi.
  set (l := ln (Rabs x)) in *.
  assert (E : l / ln 2 * ln 2 = l) by (field; lra).
  split.
  - apply Rmult_lt_reg_r with (ln 2); [assumption|].
    replace ((l / ln 2 - 1) * ln 2) with (l - ln 2) by (field; lra). lra.
  - apply Rmult_le_reg_r with (ln 2); [assumption|]. lra.
Qed.

Lemma exponent_bracket (x : R) :
  x <> 0 -> powerRZ 2 (Py.exponent x) <= Rabs x < powerRZ 2 (Py.exponent x + 1).
Proof.
  intros Hx. pose proof ln2_pos as L.
  assert (Ha : 0 < Rabs x) by (apply Rabs_pos_lt; assumption).
  unfold Py.exponent. set (l := ln (Rabs x)).
  destruct (base_Int_part (l / ln 2)) as [Hlo Hhi].
  set (e := Int_part (l / ln 2)) in *.
  assert (E : l / ln 2 * ln 2 = l) by (field; lra).
  assert (H1 : IZR e * ln 2 <= l).
  { rewrite <- E. apply Rmult_le_compat_r; lra. }
  assert (H2 : l < IZR (e + 1) * ln 2).
  { rewrite <- E at 1. rewrite plus_IZR. apply Rmult_lt_compat_r; lra. }
  rewrite <- (exp_ln (Rabs x)) by assumption. fold l.
  rewrite !powerRZ_Rpower by lra. unfold Rpower. split.
  - destruct H1 as [H1 | H1].
    + left. apply exp_increasing. assumption.
    + right. rewrite H1. reflexivity.
  - apply exp_increasing; assumption.
Qed.

Lemma round_half_even_near (z : R) : Rabs (IZR (Py.round_half_even z) - z) <= 1 / 2.
Proof.
  unfold Py.round_half_even. destruct (base_Int_part z) as [Hlo Hhi].
  set (f := Int_part z) in *.
  destruct (Rlt_dec _ _) as [H | H];
    [|destruct (Rlt_dec _ _) as [H' | H']; [|destruct (Z.even f)]];
    rewrite ?plus_IZR; unfold Rabs; destruct (Rcase_abs _); lra.
Qed.

Lemma round_half_even_unique (z : R) (n : Z) :
  Rabs (z - IZR n) < 1 / 2 -> Py.round_half_even z = n.
Proof.
  intros H. unfold Py.round_half_even. destruct (base_Int_part z) as [Hlo Hhi].
  set (f := Int_part z) in *.
  assert (Hn : - (1 / 2) < z - IZR n < 1 / 2).
  { unfold Rabs in H. destruct (Rcase_abs _); lra. }
  assert (H1 : (f - 1 < n)%Z) by (apply lt_IZR; rewrite minus_IZR; lra).
  assert (H2 : (n < f + 2)%Z) by (apply lt_IZR; rewrite plus_IZR; lra).
  assert (C : n = f \/ n = (f + 1)%Z) by lia.
  destruct C as [-> | ->]; rewrite ?plus_IZR in Hn.
  - destruct (Rlt_dec _ _) as [D | D]; [reflexivity | lra].
  - destruct (Rlt_dec _ _) as [D | D]; [lra|].
    destruct (Rlt_dec _ _) as [D' | D']; [reflexivity | lra].
Qed.

Lemma pow2_split (e : Z) : powerRZ 2 (52 - e) * powerRZ 2 (e - 52) = 1.
Proof.
  rewrite <- powerRZ_add by lra. replace (52 - e + (e - 52))%Z with 0%Z by lia.
  reflexivity.
Qed.

(** [round64] is determined by the binade of [x] and the integer nearest to
    the scaled [x]. *)
Lemma round64_eq (x : R) (e n : Z) :
  powerRZ 2 e <= Rabs x < powerRZ 2 (e + 1) ->
  Rabs (x * powerRZ 2 (52 - e) - IZR n) < 1 / 2 ->
  Py.round64 x = IZR n * powerRZ 2 (e - 52).
Proof.
  intros Hb Hn. unfold Py.round64. rewrite (exponent_unique x e Hb).
  rewrite (round_half_even_unique _ n Hn). reflexivity.
Qed.

Lemma round64_0 : Py.round64 0 = 0.
Proof.
  unfold Py.round64. rewrite Rmult_0_l.
  assert (E : Py.round_half_even 0 = 0%Z)
    by (apply round_half_even_unique; rewrite Rminus_diag, Rabs_R0; lra).
  rewrite E. lra.
Qed.

(** The relative error of one rounding is at most [2^-53]. *)
Lemma round64_error (x : R) : Rabs (Py.round64 x - x) <= Rabs x * powerRZ 2 (-53).
Proof.
  destruct (Req_dec x 0) as [-> | Hx].
  - rewrite round64_0, Rminus_diag, Rabs_R0. lra.
  - destruct (exponent_bracket x Hx) as [Hlo Hhi]. unfold Py.round64.
    set (e := Py.exponent x) in *.
    pose proof (round_half_even_near (x * powerRZ 2 (52 - e))) as Hn.
    set (n := Py.round_half_even _) in *.
    pose proof (pow2_split e) as Hs.
    pose proof (pow2_pos (e - 52)) as P1.
    replace (IZR n * powerRZ 2 (e - 52) - x)
      with ((IZR n - x * powerRZ 2 (52 - e)) * powerRZ 2 (e - 52))
      by (rewrite Rmult_minus_distr_r, Rmult_assoc, Hs; ring).
    rewrite Rabs_mult, (Rabs_pos_eq (powerRZ 2 (e - 52))) by lra.
    assert (E53 : powerRZ 2 (e - 52) * (1 / 2) = powerRZ 2 e * powerRZ 2 (-53)).
    { rewrite <- powerRZ_add by lra.
      replace (e + -53)%Z with ((e - 52) + -1)%Z by lia.
      rewrite powerRZ_add by lra. simpl. lra. }
    pose proof (pow2_pos (-53)) as P2.
    apply Rle_trans with (1 / 2 * powerRZ 2 (e - 52)).
    + apply Rmult_le_compat_r; lra.
    + rewrite Rmult_comm, E53. apply Rmult_le_compat_r; lra.
Qed.

Lemma pow2_IZR (p : Z) : (0 <= p)%Z -> powerRZ 2 p = IZR (2 ^ p).
Proof.
  intros Hp. rewrite <- (Z2Nat.id p Hp) at 2. rewrite <- pow_IZR.
  rewrite <- (Z2Nat.id p Hp) at 1. rewrite <- pow_powerRZ. reflexivity.
Qed.

Lemma pow2_opp (p : Z) : powerRZ 2 (- p) = / powerRZ 2 p.
Proof.
  pose proof (pow2_pos p) as H.
  apply Rmult_eq_reg_l with (powerRZ 2 p); [|lra].
  rewrite <- powerRZ_add by lra. rewrite Z.add_opp_diag_r. simpl. field. lra.
Qed.

(** A real whose scaling by [2^p] lies in the range of the 53-bit
    significands rounds to the nearest multiple of [2^-p]. *)
Lemma round64_dyadic (x : R) (p n : Z) :
  (0 <= p)%Z ->
  IZR (2 ^ 52) <= Rabs x * IZR (2 ^ p) < IZR (2 ^ 53) ->
  Rabs (x * IZR (2 ^ p) - IZR n) < 1 / 2 ->
  Py.round64 x = IZR n / IZR (2 ^ p).
Proof.
  intros Hp [Hlo Hhi] Hn.
  pose proof (pow2_pos p) as Pp. rewrite <- (pow2_IZR p Hp) in *.
  assert (E1 : powerRZ 2 (52 - p) = IZR (2 ^ 52) / powerRZ 2 p).
  { unfold Z.sub. rewrite powerRZ_add, pow2_opp by lra.
    rewrite (pow2_IZR 52) by lia. reflexivity. }
  assert (E2 : powerRZ 2 (52 - p + 1) = IZR (2 ^ 53) / powerRZ 2 p).
  { replace (52 - p + 1)%Z with (53 + - p)%Z by lia.
    rewrite powerRZ_add, pow2_opp by lra.
    rewrite (pow2_IZR 53) by lia. reflexivity. }
  rewrite (round64_eq x (52 - p) n).
  - replace (52 - p - 52)%Z with (- p)%Z by lia. rewrite pow2_opp. reflexivity.
  - rewrite E1, E2. split.
    + apply Rmult_le_reg_r with (powerRZ 2 p); [assumption|].
      unfold Rdiv. rewrite Rmult_assoc, Rinv_l by lra. lra.
    + apply Rmult_lt_reg_r with (powerRZ 2 p); [assumption|].
      unfold Rdiv. rewrite Rmult_assoc, Rinv_l by lra. lra.
  - replace (52 - (52 - p))%Z with p by lia. exact Hn.
Qed.

(** An integer below [2^53] is a binary64 number. *)
Lemma round64_IZR (n : Z) : (Z.abs n < 2 ^ 53)%Z -> Py.round64 (IZR n) = IZR n.
Proof.
  intros Hn. destruct (Z.eq_dec n 0) as [-> | Hz]; [apply round64_0|].
  assert (Ha : (0 < Z.abs n)%Z) by lia.
  destruct (Z.log2_spec (Z.abs n) Ha) as [Hlo Hhi].
  set (e := Z.log2 (Z.abs n)) in *.
  assert (He0 : (0 <= e)%Z) by apply Z.log2_nonneg.
  assert (He : (e < 53)%Z).
  { apply (Z.pow_lt_mono_r_iff 2); lia. }
  assert (P2 : (0 < 2 ^ (52 - e))%Z) by (apply Z.pow_pos_nonneg; lia).
  assert (E52 : (2 ^ e * 2 ^ (52 - e) = 2 ^ 52)%Z).
  { rewrite <- Z.pow_add_r by lia. f_equal. lia. }
  assert (E53 : (2 ^ Z.succ e * 2 ^ (52 - e) = 2 ^ 53)%Z).
  { rewrite <- Z.pow_add_r by lia. f_equal. lia. }
  rewrite (round64_dyadic (IZR n) (52 - e) (n * 2 ^ (52 - e))).
  - rewrite mult_IZR. field. apply not_0_IZR. lia.
  - lia.
  - rewrite <- abs_IZR, <- mult_IZR. split.
    + apply IZR_le. rewrite <- E52. apply Z.mul_le_mono_nonneg_r; lia.
    + apply IZR_lt. rewrite <- E53. apply Z.mul_lt_mono_pos_r; lia.
  - rewrite mult_IZR, Rminus_diag, Rabs_R0. lra.
Qed.

Lemma pow2_succ (e : Z) : powerRZ 2 (e + 1) = 2 * powerRZ 2 e.
Proof. rewrite powerRZ_add by lra. simpl. lra. Qed.

(** The significand of a rounding has 53 bits, or is [2^53]. *)
Lemma significand_range (z : R) :
  IZR (2 ^ 52) <= Rabs z < IZR (2 ^ 53) ->
  (2 ^ 52 <= Z.abs (Py.round_half_even z) <= 2 ^ 53)%Z.
Proof.
  intros [Hlo Hhi]. pose proof (round_half_even_near z) as Hn.
  set (n := Py.round_half_even z) in *.
  change (2 ^ 52)%Z with 4503599627370496%Z in *.
  change (2 ^ 53)%Z with 9007199254740992%Z in *.
  unfold Rabs in Hlo, Hhi, Hn.
  destruct (Rcase_abs z), (Rcase_abs (IZR n - z)).
  - assert (A : (n < -4503599627370495)%Z) by (apply lt_IZR; lra).
    assert (B : (-9007199254740993 < n)%Z) by (apply lt_IZR; lra). lia.
  - assert (A : (n < -4503599627370495)%Z) by (apply lt_IZR; lra).
    assert (B : (-9007199254740993 < n)%Z) by (apply lt_IZR; lra). lia.
  - assert (A : (4503599627370495 < n)%Z) by (apply lt_IZR; lra).
    assert (B : (n < 9007199254740993)%Z) by (apply lt_IZR; lra). lia.
  - assert (A : (4503599627370495 < n)%Z) by (apply lt_IZR; lra).
    assert (B : (n < 9007199254740993)%Z) by (apply lt_IZR; lra). lia.
Qed.

(** A binary64 number rounds to itself. *)
Lemma round64_idem (x : R) : Py.round64 (Py.round64 x) = Py.round64 x.
Proof.
  destruct (Req_dec x 0) as [-> | Hx]; [rewrite round64_0; apply round64_0|].
  destruct (exponent_bracket x Hx) as [Hlo Hhi].
  unfold Py.round64 at 2. unfold Py.round64 at 2.
  set (e := exponent x) in *.
  pose proof (pow2_pos e) as Pe. pose proof (pow2_pos (52 - e)) as Ps.
  pose proof (pow2_pos (e - 52)) as Pu. pose proof (pow2_split e) as Hs.
  assert (E52 : powerRZ 2 e * powerRZ 2 (52 - e) = IZR (2 ^ 52)).
  { rewrite <- powerRZ_add by lra. replace (e + (52 - e))%Z with 52%Z by lia.
    apply pow2_IZR. lia. }
  assert (E53 : powerRZ 2 (e + 1) * powerRZ 2 (52 - e) = IZR (2 ^ 53)).
  { rewrite <- powerRZ_add by lra. replace (e + 1 + (52 - e))%Z with 53%Z by lia.
    apply pow2_IZR. lia. }
  assert (Hz : IZR (2 ^ 52) <= Rabs (x * powerRZ 2 (52 - e)) < IZR (2 ^ 53)).
  { rewrite Rabs_mult, (Rabs_pos_eq (powerRZ 2 (52 - e))) by lra.
    rewrite <- E52, <- E53. split.
    - apply Rmult_le_compat_r; lra.
    - apply Rmult_lt_compat_r; lra. }
  apply significand_range in Hz.
  set (n := Py.round_half_even (x * powerRZ 2 (52 - e))) in *.
  assert (Habs : Rabs (IZR n * powerRZ 2 (e - 52)) = IZR (Z.abs n) * powerRZ 2 (e - 52)).
  { rewrite Rabs_mult, (Rabs_pos_eq (powerRZ 2 (e - 52))) by lra.
    rewrite abs_IZR. reflexivity. }
  assert (Eu : powerRZ 2 e = IZR (2 ^ 52) * powerRZ 2 (e - 52)).
  { rewrite <- (pow2_IZR 52) by lia. rewrite <- powerRZ_add by lra.
    f_equal. lia. }
  destruct (Z.eq_dec (Z.abs n) (2 ^ 53)) as [Etop | Ntop].
  - (* the rounding went up to the next power of two *)
    assert (Em : IZR n = IZR (Z.sgn n * 2 ^ 52) * 2).
    { rewrite mult_IZR. replace (IZR n) with (IZR (Z.sgn n * Z.abs n)) by (f_equal; lia).
      rewrite mult_IZR, Etop.
      change (2 ^ 53)%Z with 9007199254740992%Z.
      change (2 ^ 52)%Z with 4503599627370496%Z. lra. }
    rewrite (round64_eq _ (e + 1) (Z.sgn n * 2 ^ 52)).
    + replace (e + 1 - 52)%Z with ((e - 52) + 1)%Z by lia.
      rewrite pow2_succ, Em. ring.
    + rewrite Habs, Etop. rewrite !pow2_succ, Eu.
      change (2 ^ 53)%Z with 9007199254740992%Z.
      change (2 ^ 52)%Z with 4503599627370496%Z. lra.
    + replace (52 - (e + 1))%Z with ((52 - e) + - (1))%Z by lia.
      rewrite powerRZ_add, pow2_opp by lra.
      replace (IZR n * powerRZ 2 (e - 52) * (powerRZ 2 (52 - e) * / powerRZ 2 1))
        with (IZR n * (powerRZ 2 (52 - e) * powerRZ 2 (e - 52)) / 2)
        by (simpl; field).
      rewrite Hs, Em.
      replace (IZR (Z.sgn n * 2 ^ 52) * 2 * 1 / 2 - IZR (Z.sgn n * 2 ^ 52)) with 0 by field.
      rewrite Rabs_R0. lra.
  - rewrite (round64_eq _ e n); [reflexivity | |].
    + rewrite Habs, pow2_succ, Eu.
      assert (A : IZR (2 ^ 52) <= IZR (Z.abs n)) by (apply IZR_le; lia).
      assert (B : IZR (Z.abs n) < IZR (2 ^ 53)) by (apply IZR_lt; lia).
      change (2 ^ 53)%Z with 9007199254740992%Z in *.
      change (2 ^ 52)%Z with 4503599627370496%Z in *.
      split.
      * apply Rmult_le_compat_r; lra.
      * replace (2 * (4503599627370496 * powerRZ 2 (e - 52)))
          with (9007199254740992 * powerRZ 2 (e - 52)) by ring.
        apply Rmult_lt_compat_r; lra.
    + replace (IZR n * powerRZ 2 (e - 52) * powerRZ 2 (52 - e))
        with (IZR n * (powerRZ 2 (52 - e) * powerRZ 2 (e - 52))) by ring.
      rewrite Hs, Rmult_1_r, Rminus_diag, Rabs_R0. lra.
Qed.

Lemma float_exact (n : Z) : (Z.abs n < 2 ^ 53)%Z -> Py.float n = IZR n.
Proof. apply round64_IZR. Qed.

Lemma float_cents (n : Z) : (0 <= n <= 100)%Z -> Py.float n = IZR n.
Proof. intros H. apply float_exact. lia. Qed.

(** Evaluate the powers of two, then settle a side condition of
    [round64_dyadic] on concrete numbers. *)
Ltac eval_pow2 :=
  repeat match goal with
         | |- context [(2 ^ Z.pos ?p)%Z] =>
             let v := eval vm_compute in (2 ^ Z.pos p)%Z in
             change (2 ^ Z.pos p)%Z with v
         end.

Ltac round64_side :=
  first [ lia
        | eval_pow2; unfold Rabs; repeat destruct (Rcase_abs _); lra ].

(** [round64_is x p n]: replace [round64 x] by its value [n / 2^p]. *)
Ltac round64_is x p n :=
  rewrite (round64_dyadic x p n) by round64_side; eval_pow2.

Lemma half_ulp : powerRZ 2 (-53) = / 9007199254740992.
Proof.
  change (-53)%Z with (Z.opp 53). rewrite pow2_opp, (pow2_IZR 53) by lia.
  reflexivity.
Qed.

Lemma round64_nonneg (x : R) : 0 <= x -> 0 <= Py.round64 x.
Proof.
  intros Hx. pose proof (round64_error x) as H.
  rewrite half_ulp, (Rabs_pos_eq x Hx) in H.
  unfold Rabs in H. destruct (Rcase_abs _); lra.
Qed.

(** One rounding of a number bounded by [M] moves it by [M * 2^-53] at
    most. *)
Lemma round64_close (x M : R) :
  Rabs x <= M ->
  - (M * / 9007199254740992) <= Py.round64 x - x <= M * / 9007199254740992.
Proof.
  intros Hx. pose proof (round64_error x) as E. rewrite half_ulp in E.
  assert (Hu : Rabs x * / 9007199254740992 <= M * / 9007199254740992)
    by (apply Rmult_le_compat_r; lra).
  set (ax := Rabs x) in *.
  unfold Rabs in E. destruct (Rcase_abs (Py.round64 x - x)); lra.
Qed.

(** ** Quote engine *)

Section DynamicGamma.
Variable P : Params.
Hypothesis Hmax : (0 < max_position P)%Z.

Let mp_pos : 0 < IZR (max_position P).
Proof. apply (IZR_lt 0). exact Hmax. Qed.

(** The exponent of the decay: [|inventory / max_position|]. *)
Lemma ratio_abs (inventory : Z) :
  Rabs (IZR inventory / IZR (max_position P))
  = IZR (Z.abs inventory) / IZR (max_position P).
Proof.
  unfold Rdiv. rewrite Rabs_mult, abs_IZR.
  rewrite (Rabs_pos_eq (/ IZR (max_position P))); [reflexivity|].
  left. apply Rinv_0_lt_compat. exact mp_pos.
Qed.

Lemma ratio_nonneg (inventory : Z) :
  0 <= IZR (Z.abs inventory) / IZR (max_position P).
Proof.
  apply Rmult_le_pos.
  - apply (IZR_le 0). apply Z.abs_nonneg.
  - left. apply Rinv_0_lt_compat. exact mp_pos.
Qed.

Lemma ratio_mono (i1 i2 : Z) :
  (Z.abs i1 <= Z.abs i2)%Z ->
  IZR (Z.abs i1) / IZR (max_position P) <= IZR (Z.abs i2) / IZR (max_position P).
Proof.
  intros H. apply Rmult_le_compat_r.
  - left. apply Rinv_0_lt_compat. exact mp_pos.
  - apply IZR_le. exact H.
Qed.

Lemma ratio_strict_mono (i1 i2 : Z) :
  (Z.abs i1 < Z.abs i2)%Z ->
  IZR (Z.abs i1) / IZR (max_position P) < IZR (Z.abs i2) / IZR (max_position P).
Proof.
  intros H. apply Rmult_lt_compat_r.
  - apply Rinv_0_lt_compat. exact mp_pos.
  - apply IZR_lt. exact H.
Qed.

Lemma dynamic_gamma_value (inventory : Z) :
  calculate_dynamic_gamma P inventory
  = Ok (base_gamma P * exp (- (IZR (Z.abs inventory) / IZR (max_position P)))).
Proof.
  unfold calculate_dynamic_gamma.
  rewrite div_ok by lra. simpl. rewrite ratio_abs. reflexivity.
Qed.

(** The decay factor lies in (0, 1]. *)
Lemma decay_range (inventory : Z) :
  0 < exp (- (IZR (Z.abs inventory) / IZR (max_position P))) <= 1.
Proof.
  split; [apply exp_pos|].
  pose proof (ratio_nonneg inventory) as Hr.
  destruct Hr as [Hr | Hr].
  - left. rewrite <- exp_0. apply exp_increasing. lra.
  - rewrite <- Hr. rewrite Ropp_0, exp_0. lra.
Qed.

End DynamicGamma.

(** C5. With [gamma > 0] and [max_position > 0], the dynamic risk aversion of
    every inventory is [gamma * exp(-|inventory / max_position|)], lies in
    (0, gamma], and decreases as [|inventory|] grows (strictly when
    [|inventory|] grows strictly). *)
Theorem dynamic_gamma_decay (P : Params) :
  0 < base_gamma P -> (0 < max_position P)%Z ->
  (forall inventory : Z,
      exists g : R,
        calculate_dynamic_gamma P inventory = Ok g
        /\ g = base_gamma P * exp (- Rabs (IZR inventory / IZR (max_position P)))
        /\ 0 < g <= base_gamma P)
  /\ (forall (i1 i2 : Z) (g1 g2 : R),
        calculate_dynamic_gamma P i1 = Ok g1 ->
        calculate_dynamic_gamma P i2 = Ok g2 ->
        ((Z.abs i1 <= Z.abs i2)%Z -> g2 <= g1)
        /\ ((Z.abs i1 < Z.abs i2)%Z -> g2 < g1)).
Proof.
  intros Hg Hmax. split.
  - intros inventory. eexists. split; [apply dynamic_gamma_value; exact Hmax|].
    split.
    + rewrite ratio_abs by exact Hmax. reflexivity.
    + pose proof (decay_range P Hmax inventory) as [Hlo Hhi]. split; nra.
  - intros i1 i2 g1 g2 E1 E2.
    rewrite dynamic_gamma_value in E1, E2 by exact Hmax.
    injection E1 as <-. injection E2 as <-. split; intros Habs.
    + apply Rmult_le_compat_l; [lra|].
      pose proof (ratio_mono P Hmax i1 i2 Habs) as Hr.
      destruct Hr as [Hr | Hr].
      * left. apply exp_increasing. lra.
      * rewrite Hr. lra.
    + apply Rmult_lt_compat_l; [lra|].
      apply exp_increasing.
      pose proof (ratio_strict_mono P Hmax i1 i2 Habs). lra.
Qed.

Section ValidParams.
Variable P : Params.
Hypothesis HP : valid_params P.

Lemma max_position_nonzero : IZR (max_position P) <> 0.
Proof.
  pose proof (IZR_lt 0 _ (max_position_pos P HP)). lra.
Qed.

Lemma horizon_nonzero : T P <> 0.
Proof. pose proof (T_pos P HP). lra. Qed.

Lemma dynamic_gamma_pos (inventory : Z) :
  exists g : R, calculate_dynamic_gamma P inventory = Ok g /\ 0 < g.
Proof.
  eexists. split; [apply dynamic_gamma_value; apply (max_position_pos P HP)|].
  pose proof (decay_range P (max_position_pos P HP) inventory) as [Hlo _].
  apply Rmult_lt_0_compat; [apply (gamma_pos P HP) | exact Hlo].
Qed.

(** The reservation price is defined for every mid, inventory and time. *)
Lemma reservation_price_returns (mid_price : R) (inventory : Z) (t : R) :
  exists r : R, calculate_reservation_price P mid_price inventory t = Ok r.
Proof.
  destruct (dynamic_gamma_pos inventory) as (g & Eg & _).
  unfold calculate_reservation_price. rewrite Eg. simpl.
  rewrite div_ok by apply horizon_nonzero. simpl. eexists. reflexivity.
Qed.

(** The spread is defined, and it is a [max] against [min_spread]. *)
Lemma optimal_spread_returns (t : R) (inventory : Z) :
  exists raw : R,
    calculate_optimal_spread P t inventory = Ok (Py.max raw (min_spread P)).
Proof.
  destruct (dynamic_gamma_pos inventory) as (g & Eg & Hg).
  pose proof (k_pos P HP) as Hk.
  unfold calculate_optimal_spread. rewrite Eg. simpl.
  rewrite div_ok by apply horizon_nonzero. simpl.
  rewrite div_ok by lra. simpl.
  rewrite div_ok by lra. simpl.
  rewrite log_ok.
  - simpl. rewrite div_ok by apply max_position_nonzero. simpl.
    eexists. reflexivity.
  - assert (0 < g / k P) by (apply Rdiv_lt_0_compat; assumption). lra.
Qed.

(** The quotes are defined for every mid, inventory and time. *)
Lemma asymmetric_quotes_returns (mid_price : R) (inventory : Z) (t : R) :
  exists quotes : R * R,
    calculate_asymmetric_quotes P mid_price inventory t = Ok quotes.
Proof.
  destruct (reservation_price_returns mid_price inventory t) as (r & Er).
  destruct (optimal_spread_returns t inventory) as (raw & Es).
  unfold calculate_asymmetric_quotes. rewrite Er. simpl. rewrite Es. simpl.
  rewrite div_ok by apply max_position_nonzero. simpl.
  destruct (0 <? inventory)%Z; eexists; reflexivity.
Qed.

End ValidParams.

(** Whenever the spread is returned, it is a [max] against [min_spread]. *)
Lemma optimal_spread_shape (P : Params) (t : R) (inventory : Z) (spread : R) :
  calculate_optimal_spread P t inventory = Ok spread ->
  exists raw : R, spread = Py.max raw (min_spread P).
Proof.
  unfold calculate_optimal_spread.
  destruct (calculate_dynamic_gamma P inventory) as [g | e]; simpl; [|discriminate].
  destruct (Py.div t (T P)) as [tT | e]; simpl; [|discriminate].
  destruct (Py.div 2 g) as [q | e]; simpl; [|discriminate].
  destruct (Py.div g (k P)) as [gk | e]; simpl; [|discriminate].
  destruct (Py.log (1 + gk)) as [l | e]; simpl; [|discriminate].
  destruct (Py.div (IZR (Z.abs inventory)) (IZR (max_position P))) as [pr | e];
    simpl; [|discriminate].
  intros E. injection E as <-. eexists. reflexivity.
Qed.

(** Whenever the quotes are returned, they are the two clamps around the mid. *)
Lemma asymmetric_quotes_shape (P : Params) (mid_price : R) (inventory : Z) (t : R)
    (bid_price ask_price : R) :
  calculate_asymmetric_quotes P mid_price inventory t = Ok (bid_price, ask_price) ->
  exists x y : R,
    bid_price = Py.max 0 (Py.min mid_price x)
    /\ ask_price = Py.min 1 (Py.max mid_price y).
Proof.
  unfold calculate_asymmetric_quotes.
  destruct (calculate_reservation_price P mid_price inventory t) as [r | e];
    simpl; [|discriminate].
  destruct (calculate_optimal_spread P t inventory) as [s | e]; simpl; [|discriminate].
  destruct (Py.div (IZR inventory) (IZR (max_position P))) as [pr | e];
    simpl; [|discriminate].
  destruct (0 <? inventory)%Z; intros E; injection E as <- <-;
    eexists; eexists; split; reflexivity.
Qed.

(** C8. With [gamma > 0], [k > 0] and [max_position > 0], for every elapsed
    time and inventory: a spread returned by [calculate_optimal_spread] is at
    least [min_spread]; and with the horizon [T > 0] of the data model (the
    code divides by it) a spread is returned. *)
Theorem optimal_spread_floor (P : Params) (t : R) (inventory : Z) :
  0 < base_gamma P -> 0 < k P -> (0 < max_position P)%Z ->
  (forall spread : R,
      calculate_optimal_spread P t inventory = Ok spread -> min_spread P <= spread)
  /\ (0 < T P ->
      exists spread : R,
        calculate_optimal_spread P t inventory = Ok spread /\ min_spread P <= spread).
Proof.
  intros Hg Hk Hm. split.
  - intros spread E. destruct (optimal_spread_shape P t inventory spread E) as (raw & ->).
    apply max_bounds.
  - intros HT.
    destruct (optimal_spread_returns P (Build_valid_params P Hg Hk HT Hm) t inventory)
      as (raw & E).
    eexists. split; [exact E|]. apply max_bounds.
Qed.

(** C4. For every mid in [[0, 1]], every inventory and every elapsed time: a
    pair returned by [calculate_asymmetric_quotes] satisfies
    [0 <= bid_price <= mid <= ask_price <= 1]; and for valid parameters a
    pair is returned. *)
Theorem quotes_bracket_mid (P : Params) (mid_price : R) (inventory : Z) (t : R) :
  0 <= mid_price <= 1 ->
  (forall bid_price ask_price : R,
      calculate_asymmetric_quotes P mid_price inventory t = Ok (bid_price, ask_price) ->
      0 <= bid_price <= mid_price /\ mid_price <= ask_price <= 1)
  /\ (valid_params P ->
      exists bid_price ask_price : R,
        calculate_asymmetric_quotes P mid_price inventory t = Ok (bid_price, ask_price)
        /\ 0 <= bid_price <= mid_price
        /\ mid_price <= ask_price <= 1).
Proof.
  intros [Hlo Hhi].
  assert (Hshape : forall bid_price ask_price : R,
             calculate_asymmetric_quotes P mid_price inventory t
             = Ok (bid_price, ask_price) ->
             0 <= bid_price <= mid_price /\ mid_price <= ask_price <= 1).
  { intros bid_price ask_price E.
    destruct (asymmetric_quotes_shape P mid_price inventory t _ _ E) as (x & y & -> & ->).
    split; [apply clamp_low | apply clamp_high]; assumption. }
  split; [exact Hshape|].
  intros HP.
  destruct (asymmetric_quotes_returns P HP mid_price inventory t)
    as ([bid_price ask_price] & E).
  exists bid_price, ask_price. split; [exact E|]. apply Hshape. exact E.
Qed.

(** C7. With [max_position > 0] and [|inventory| <= max_position], both
    sizes lie between 1 and [max_position], whatever the buffer fraction. *)
Theorem order_sizes_bounded (P : Params) (inventory : Z) :
  (0 < max_position P)%Z ->
  (Z.abs inventory <= max_position P)%Z ->
  (1 <= fst (calculate_order_sizes P inventory) <= max_position P)%Z
  /\ (1 <= snd (calculate_order_sizes P inventory) <= max_position P)%Z.
Proof.
  intros Hmax Hinv. unfold calculate_order_sizes.
  destruct (0 <? inventory)%Z eqn:Hsign; simpl.
  - apply Z.ltb_lt in Hsign. lia.
  - lia.
Qed.

(** Under the cap by the remaining capacity and the floor of one contract,
    truncation and floor of the buffer give the same size. *)
Lemma buffered_size_floor (x : R) (capacity : Z) :
  Z.max 1 (Z.min (Py.int x) capacity) = Z.max 1 (Z.min (Int_part x) capacity).
Proof.
  destruct (int_floor x) as [E | [H1 H2]].
  - rewrite E. reflexivity.
  - lia.
Qed.

(** C9. At inventory 0 the sizes are not symmetric: the buy size is the full
    [max(1, max_position)], the sell size the buffered
    [max(1, min(floor(max_position * position_limit_buffer), max_position))],
    where the product is the binary64 product of [float(max_position)] and
    the buffer fraction, which the code truncates; every
    short position is sized by the same branch, with the remaining capacity
    [max_position - |inventory|] in place of [max_position]. *)
Theorem order_sizes_flat_inventory (P : Params) :
  calculate_order_sizes P 0
  = (Z.max 1 (max_position P),
     Z.max 1 (Z.min (Int_part (Py.round64 (Py.float (max_position P)
                                           * position_limit_buffer P)))
                    (max_position P)))
  /\ (forall short : positive,
         calculate_order_sizes P (Z.neg short)
         = (Z.max 1 (max_position P),
            Z.max 1 (Z.min (Int_part (Py.round64 (Py.float (max_position P)
                                                  * position_limit_buffer P)))
                           (max_position P - Z.pos short)))).
Proof.
  split.
  - unfold calculate_order_sizes. rewrite buffered_size_floor.
    change (0 <? 0)%Z with false. cbv iota. simpl Z.abs.
    rewrite Z.sub_0_r. reflexivity.
  - intros short. unfold calculate_order_sizes. rewrite buffered_size_floor.
    change (0 <? Z.neg short)%Z with false. reflexivity.
Qed.

(** ** Order reconciler *)

(** *** Traces *)

Lemma cancel_calls_app (t1 t2 : trace) :
  cancel_calls (t1 ++ t2) = cancel_calls t1 ++ cancel_calls t2.
Proof.
  induction t1 as [|e t1 IH]; [reflexivity|].
  destruct e; simpl; rewrite IH; reflexivity.
Qed.

Lemma create_calls_app (t1 t2 : trace) :
  create_calls (t1 ++ t2) = create_calls t1 ++ create_calls t2.
Proof.
  induction t1 as [|e t1 IH]; [reflexivity|].
  destruct e; simpl; rewrite IH; reflexivity.
Qed.

Lemma fetch_count_app (t1 t2 : trace) :
  fetch_count (t1 ++ t2) = (fetch_count t1 + fetch_count t2)%nat.
Proof.
  unfold fetch_count. rewrite filter_app, length_app. reflexivity.
Qed.

Lemma failures_logged_app (t1 t2 : trace) :
  failures_logged t1 -> failures_logged t2 -> failures_logged (t1 ++ t2).
Proof.
  intros H1 H2. induction t1 as [|e t1 IH]; [exact H2|].
  destruct e as [ | | |id [u|x]|req [s|x]| ]; simpl in *; auto.
  - destruct H1 as [Hhd H1]. split; [|auto].
    destruct t1; [discriminate|]. exact Hhd.
  - destruct H1 as [Hhd H1]. split; [|auto].
    destruct t1; [discriminate|]. exact Hhd.
Qed.

Lemma fetches_succeed_app (t1 t2 : trace) :
  fetches_succeed (t1 ++ t2) <-> fetches_succeed t1 /\ fetches_succeed t2.
Proof.
  unfold fetches_succeed. rewrite forallb_app. apply andb_true_iff.
Qed.

Lemma loop_trace_no_create (tr : trace) :
  forallb loop_event tr = true -> create_calls tr = [].
Proof.
  induction tr as [|e tr IH]; [reflexivity|].
  simpl. intros H. apply andb_true_iff in H as [He Ht].
  destruct e; try discriminate; simpl; auto.
Qed.

Lemma loop_trace_no_fetch (tr : trace) :
  forallb loop_event tr = true -> fetch_count tr = 0%nat.
Proof.
  unfold fetch_count. induction tr as [|e tr IH]; [reflexivity|].
  simpl. intros H. apply andb_true_iff in H as [He Ht].
  destruct e; try discriminate; simpl; auto.
Qed.

Lemma loop_trace_fetches_succeed (tr : trace) :
  forallb loop_event tr = true -> fetches_succeed tr.
Proof.
  unfold fetches_succeed. induction tr as [|e tr IH]; [reflexivity|].
  simpl. intros H. apply andb_true_iff in H as [He Ht].
  destruct e; try discriminate; simpl; auto.
Qed.

Lemma placement_trace_no_cancel (tr : trace) :
  forallb placement_event tr = true ->
  forallb (fun e => negb (is_cancel e)) tr = true.
Proof.
  induction tr as [|e tr IH]; [reflexivity|].
  simpl. intros H. apply andb_true_iff in H as [He Ht].
  destruct e; try discriminate; simpl; auto.
Qed.

Lemma cancels_first_loop_prefix (t1 t2 : trace) :
  forallb loop_event t1 = true ->
  cancels_first (t1 ++ t2) = cancels_first t2.
Proof.
  induction t1 as [|e t1 IH]; [reflexivity|].
  simpl. intros H. apply andb_true_iff in H as [He Ht].
  destruct e; try discriminate; simpl; auto.
Qed.

(** *** Running the monad *)

Import Run.

Section MonadFacts.
Context {W : Type}.

Lemma bind_ok {A B} (m : M A) (f : A -> M B) (w w1 w2 : W) a r t1 t2 :
  m w = (Ok a, w1, t1) -> f a w1 = (r, w2, t2) ->
  Run.bind m f w = (r, w2, t1 ++ t2).
Proof. intros Hm Hf. unfold Run.bind. rewrite Hm, Hf. reflexivity. Qed.

Lemma bind_raise {A B} (m : M A) (f : A -> M B) (w w1 : W) e t1 :
  m w = (Raise e, w1, t1) ->
  Run.bind m f w = (Raise e, w1, t1).
Proof. intros Hm. unfold Run.bind. rewrite Hm. reflexivity. Qed.

Lemma logger_run lvl msg (w : W) : logger lvl msg w = (Ok tt, w, [EvLog lvl msg]).
Proof. reflexivity. Qed.

Lemma call_run {A} (op : W -> result A * W) (ev : result A -> event) (w w1 : W) r :
  op w = (r, w1) -> call op ev w = (r, w1, [ev r]).
Proof. intros H. unfold call. rewrite H. reflexivity. Qed.

End MonadFacts.

Section Reconciler.
Context {W : Type} {world : World W}.
Variable P : Params.

Lemma cancel_attempt_run (id : string) (w w1 : W) (rc : result unit) :
  cancel_order id w = (rc, w1) ->
  try_except
    (Run.bind (call (cancel_order id) (EvCancelOrder id)) (fun _ => ret tt))
    (fun e => logger Error (MsgCancelFailed id e)) w
  = (Ok tt, w1, EvCancelOrder id rc :: cancel_log id rc).
Proof.
  intros Hc. unfold try_except, Run.bind, call. rewrite Hc.
  destruct rc as [[]|e]; reflexivity.
Qed.

Lemma reconcile_orders_run action dp ds orders : forall keep (w : W),
exists w' tr,
  reconcile_orders P action orders dp ds keep w = (Ok (kept P dp ds keep orders), w', tr)
  /\ cancel_calls tr = map order_id (dropped P dp ds keep orders)
  /\ forallb loop_event tr = true
  /\ failures_logged tr.
Proof.
  induction orders as [|o rest IH]; intros keep w.
  - exists w, []. destruct keep; simpl; auto.
  - simpl reconcile_orders.
    destruct (is_none keep && order_matches P dp ds o) eqn:Hkeep.
    + apply andb_true_iff in Hkeep as [Hnone Hm].
      destruct keep; [discriminate|].
      destruct (IH (Some o) w) as (w' & tr & Hrun & Hc & Hl & Hf).
      eexists. eexists. split; [|split; [|split]].
      * eapply bind_ok; [apply logger_run|].
        rewrite Hrun. simpl. rewrite Hm. reflexivity.
      * simpl. rewrite Hm. simpl in Hc. exact Hc.
      * exact Hl.
      * exact Hf.
    + destruct (cancel_order (order_id o) w) as [rc w1] eqn:Ec.
      destruct (IH keep w1) as (w' & tr & Hrun & Hc & Hl & Hf).
      eexists. eexists. split; [|split; [|split]].
      * eapply bind_ok; [apply logger_run|].
        eapply bind_ok; [apply cancel_attempt_run; exact Ec|].
        rewrite Hrun. f_equal. f_equal. f_equal.
        destruct keep; simpl in *; [reflexivity|].
        rewrite Hkeep. reflexivity.
      * simpl. rewrite cancel_calls_app, Hc.
        assert (cancel_calls (cancel_log (order_id o) rc) = []) as -> by (destruct rc; reflexivity).
        destruct keep; simpl in *; [reflexivity|]. rewrite Hkeep. reflexivity.
      * simpl. rewrite forallb_app, Hl. destruct rc; reflexivity.
      * simpl. destruct rc as [[]|e]; simpl; auto.
Qed.

Lemma get_mid_price_run (w w1 : W) (fetched : result market) :
  get_market (market_ticker P) w = (fetched, w1) ->
  get_mid_price P w
  = (match fetched with Ok data => Ok (mids_of data) | Raise e => Raise e end,
     w1, [EvGetMarket (market_ticker P) fetched]).
Proof.
  intros Hg. unfold get_mid_price, Run.bind, call. rewrite Hg.
  destruct fetched; reflexivity.
Qed.

(** The [try] block of the placement never raises out of its [except]. *)
Lemma place_order_run (action : string) (dp : R) (ds : Z) (w : W) :
  exists (req : order_request) (rc : result string) (w' : W),
    place_order P action dp ds w
    = (Ok tt, w',
       EvCreateOrder req rc ::
       match rc with
       | Ok new_id => [EvLog Info (MsgPlaced action new_id dp ds)]
       | Raise e => [EvLog Error (MsgPlaceFailed action e)]
       end)
    /\ req_action req = action /\ req_count req = ds.
Proof.
  unfold place_order, try_except, Run.bind, ambient, call, logger.
  destruct (uuid4 w) as [uuid wa].
  destruct (time_time wa) as [now wb].
  match goal with
  | |- context [create_order ?r wb] =>
      exists r; destruct (create_order r wb) as [[new_id | e] wc]
  end.
  - exists (Ok new_id), wc. simpl. auto.
  - exists (Raise e), wc. simpl. auto.
Qed.

Lemma handle_order_side_run (action : string) (orders : list order)
    (dp : R) (ds : Z) (w : W) :
  side_run P action orders dp ds
    (outcome (handle_order_side P action orders dp ds w))
    (emitted (handle_order_side P action orders dp ds w)).
Proof.
  destruct (reconcile_orders_run action dp ds orders None w)
    as (w1 & t1 & Hloop & Hc & Hl & Hf).
  simpl kept in Hloop. simpl dropped in Hc.
  destruct (get_market (market_ticker P) w1) as [fetched w2] eqn:Hg.
  pose proof (get_mid_price_run w1 w2 fetched Hg) as Hmid.
  unfold handle_order_side.
  destruct fetched as [data | e].
  - destruct (mid_of (mids_of data) (trade_side P)) as [cur | e] eqn:Hcur.
    + destruct (find (order_matches P dp ds) orders) as [o |] eqn:Hfind.
      * erewrite bind_ok;
          [| exact Hloop
           | eapply bind_ok; [exact Hmid |];
             eapply bind_ok; [unfold lift; rewrite Hcur; reflexivity | reflexivity]].
        unfold outcome, emitted. simpl fst. simpl snd.
        apply SideRun; try assumption.
        rewrite Hfind. eapply TailKept; eauto.
      * destruct (improves_on_mid action dp cur) eqn:Himp.
        -- destruct (place_order_run action dp ds w2)
             as (req & rc & w3 & Hplace & Hact & Hcount).
           erewrite bind_ok;
             [| exact Hloop
              | eapply bind_ok; [exact Hmid |];
                eapply bind_ok; [unfold lift; rewrite Hcur; reflexivity |];
                rewrite Himp; exact Hplace].
           unfold outcome, emitted. simpl fst. simpl snd.
           apply SideRun; try assumption.
           rewrite Hfind.
           destruct rc as [new_id | e].
           ++ eapply TailPlaced; eauto.
           ++ eapply TailRejected; eauto.
        -- erewrite bind_ok;
             [| exact Hloop
              | eapply bind_ok; [exact Hmid |];
                eapply bind_ok; [unfold lift; rewrite Hcur; reflexivity |];
                rewrite Himp; apply logger_run].
           unfold outcome, emitted. simpl fst. simpl snd.
           apply SideRun; try assumption.
           rewrite Hfind. eapply TailSkipped; eauto.
    + erewrite bind_ok;
        [| exact Hloop
         | eapply bind_ok; [exact Hmid |];
           eapply bind_raise; unfold lift; rewrite Hcur; reflexivity].
      unfold outcome, emitted. simpl fst. simpl snd.
      apply SideRun; try assumption.
      apply TailNoMid. exact Hcur.
  - erewrite bind_ok; [| exact Hloop | eapply bind_raise; exact Hmid].
    unfold outcome, emitted. simpl fst. simpl snd.
    apply SideRun; try assumption.
    apply TailFetchFailed.
Qed.

End Reconciler.

(** *** What a run of one side looks like *)

Section SideFacts.
Variable P : Params.
Variables (action : string) (dp : R) (ds : Z).

Lemma side_tail_events keep fetched r tail :
  side_tail P action dp ds keep fetched r tail ->
  forallb placement_event tail = true.
Proof. intros H. inversion H; reflexivity. Qed.

Lemma side_tail_no_cancel keep fetched r tail :
  side_tail P action dp ds keep fetched r tail -> cancel_calls tail = [].
Proof. intros H. inversion H; reflexivity. Qed.

Lemma side_tail_no_fetch keep fetched r tail :
  side_tail P action dp ds keep fetched r tail -> fetch_count tail = 0%nat.
Proof. intros H. inversion H; reflexivity. Qed.

Lemma side_tail_failures_logged keep fetched r tail :
  side_tail P action dp ds keep fetched r tail -> failures_logged tail.
Proof. intros H. inversion H; subst; simpl; auto. Qed.

Lemma side_tail_one_create keep fetched r tail :
  side_tail P action dp ds keep fetched r tail ->
  (length (create_calls tail) <= 1)%nat.
Proof. intros H. inversion H; simpl; lia. Qed.

(** A kept order rules the placement out. *)
Lemma side_tail_kept_no_create keep fetched r tail :
  side_tail P action dp ds keep fetched r tail ->
  keep <> None -> create_calls tail = [].
Proof. intros H Hk. inversion H; subst; try reflexivity; contradiction. Qed.

(** Only the mid fetch can make a side raise. *)
Lemma side_tail_returns keep data r tail :
  side_tail P action dp ds keep (Ok data) r tail ->
  trade_side P = "yes"%string \/ trade_side P = "no"%string ->
  r = Ok tt.
Proof.
  intros H Hside. inversion H; subst; try reflexivity.
  exfalso. unfold mid_of in *.
  destruct Hside as [E | E]; rewrite E in *; simpl in *; discriminate.
Qed.

Variable orders : list order.

Lemma side_run_cancel_calls r tr :
  side_run P action orders dp ds r tr ->
  cancel_calls tr = map order_id (extraneous (order_matches P dp ds) orders).
Proof.
  intros H. inversion H as [t1 fetched r' tail Hc Hl Hf Ht]; subst.
  rewrite cancel_calls_app. simpl.
  rewrite (side_tail_no_cancel _ _ _ _ Ht), app_nil_r. exact Hc.
Qed.

Lemma side_run_fetch_count r tr :
  side_run P action orders dp ds r tr -> fetch_count tr = 1%nat.
Proof.
  intros H. inversion H as [t1 fetched r' tail Hc Hl Hf Ht]; subst.
  rewrite fetch_count_app, (loop_trace_no_fetch _ Hl).
  change (EvGetMarket (market_ticker P) fetched :: tail)
    with ([EvGetMarket (market_ticker P) fetched] ++ tail).
  rewrite fetch_count_app, (side_tail_no_fetch _ _ _ _ Ht). reflexivity.
Qed.

Lemma side_run_cancels_first r tr :
  side_run P action orders dp ds r tr -> cancels_first tr = true.
Proof.
  intros H. inversion H as [t1 fetched r' tail Hc Hl Hf Ht]; subst.
  rewrite (cancels_first_loop_prefix _ _ Hl). simpl.
  apply placement_trace_no_cancel. exact (side_tail_events _ _ _ _ Ht).
Qed.

Lemma side_run_failures_logged r tr :
  side_run P action orders dp ds r tr -> failures_logged tr.
Proof.
  intros H. inversion H as [t1 fetched r' tail Hc Hl Hf Ht]; subst.
  apply failures_logged_app; [exact Hf|]. simpl.
  exact (side_tail_failures_logged _ _ _ _ Ht).
Qed.

Lemma side_run_one_create r tr :
  side_run P action orders dp ds r tr -> (length (create_calls tr) <= 1)%nat.
Proof.
  intros H. inversion H as [t1 fetched r' tail Hc Hl Hf Ht]; subst.
  rewrite create_calls_app, (loop_trace_no_create _ Hl). simpl.
  exact (side_tail_one_create _ _ _ _ Ht).
Qed.

Lemma side_run_kept_no_create r tr :
  side_run P action orders dp ds r tr ->
  find (order_matches P dp ds) orders <> None ->
  create_calls tr = [].
Proof.
  intros H Hk. inversion H as [t1 fetched r' tail Hc Hl Hf Ht]; subst.
  rewrite create_calls_app, (loop_trace_no_create _ Hl). simpl.
  exact (side_tail_kept_no_create _ _ _ _ Ht Hk).
Qed.

Lemma side_run_returns r tr :
  side_run P action orders dp ds r tr ->
  trade_side P = "yes"%string \/ trade_side P = "no"%string ->
  fetches_succeed tr ->
  r = Ok tt.
Proof.
  intros H Hside Hfetch. inversion H as [t1 fetched r' tail Hc Hl Hf Ht]; subst.
  apply fetches_succeed_app in Hfetch as [_ Hfetch].
  unfold fetches_succeed in Hfetch. simpl in Hfetch.
  destruct fetched as [data | e]; [|discriminate].
  exact (side_tail_returns _ _ _ _ Ht Hside).
Qed.

End SideFacts.

(** *** What a cycle looks like *)

Section CycleFacts.
Context {W : Type} {world : World W}.
Variable P : Params.

Lemma manage_orders_run (bid ask : R) (bs ss : Z) (w : W) :
  cycle_run P bid ask bs ss
    (outcome (manage_orders P bid ask bs ss w))
    (emitted (manage_orders P bid ask bs ss w)).
Proof.
  destruct (get_orders (market_ticker P) w) as [[os | e] w1] eqn:Hg.
  - pose proof (handle_order_side_run P "buy"
                  (fst (split_orders P os [] [])) bid bs w1) as Hbuy.
    destruct (handle_order_side P "buy" (fst (split_orders P os [] [])) bid bs w1)
      as [[rb wb] tb] eqn:Hb.
    unfold outcome, emitted in Hbuy. simpl in Hbuy.
    destruct rb as [[] | e].
    + pose proof (handle_order_side_run P "sell"
                    (snd (split_orders P os [] [])) ask ss wb) as Hsell.
      destruct (handle_order_side P "sell" (snd (split_orders P os [] [])) ask ss wb)
        as [[rs ws] ts] eqn:Hs.
      unfold outcome, emitted in Hsell. simpl in Hsell.
      assert (E : manage_orders P bid ask bs ss w
                  = (rs, ws, cycle_head P os ++ tb ++ ts)).
      { unfold manage_orders, get_resting_orders, cycle_head.
        destruct (split_orders P os [] []) as [buys sells] eqn:Hsplit.
        simpl fst in *. simpl snd in *.
        change (?a :: ?b :: ?c :: ?d :: [])
          with ([a] ++ [b] ++ [c] ++ [d]).
        repeat rewrite <- app_assoc.
        eapply bind_ok; [apply call_run; exact Hg|].
        eapply bind_ok; [apply logger_run|].
        rewrite Hsplit.
        eapply bind_ok; [apply logger_run|].
        eapply bind_ok; [apply logger_run|].
        eapply bind_ok; [exact Hb | exact Hs]. }
      rewrite E. apply CycleBothSides; assumption.
    + assert (E : manage_orders P bid ask bs ss w
                  = (Raise e, wb, cycle_head P os ++ tb)).
      { unfold manage_orders, get_resting_orders, cycle_head.
        destruct (split_orders P os [] []) as [buys sells] eqn:Hsplit.
        simpl fst in *. simpl snd in *.
        change (?a :: ?b :: ?c :: ?d :: [])
          with ([a] ++ [b] ++ [c] ++ [d]).
        repeat rewrite <- app_assoc.
        eapply bind_ok; [apply call_run; exact Hg|].
        eapply bind_ok; [apply logger_run|].
        rewrite Hsplit.
        eapply bind_ok; [apply logger_run|].
        eapply bind_ok; [apply logger_run|].
        eapply bind_raise. exact Hb. }
      rewrite E. apply CycleBuyRaised; assumption.
  - assert (E : manage_orders P bid ask bs ss w
                = (Raise e, w1, [EvGetOrders (market_ticker P) (Raise e)])).
    { unfold manage_orders, get_resting_orders.
      eapply bind_raise. apply call_run. exact Hg. }
    rewrite E. apply CycleNoOrders.
Qed.

End CycleFacts.

(** *** The match test and the reference notions *)

Lemma order_matches_iff (P : Params) (dp : R) (ds : Z) (o : order) :
  order_matches P dp ds o = true
  <-> Rabs (Py.round64 (order_price P o - dp)) < Py.round64 0.01
      /\ remaining_count o = ds.
Proof.
  unfold order_matches. destruct (Rlt_dec _ _) as [H | H].
  - rewrite Z.eqb_eq. tauto.
  - split; [discriminate | tauto].
Qed.

(** The binary64 literal [0.01]. *)
Lemma tolerance_literal : Py.round64 0.01 = 5764607523034235 / 576460752303423488.
Proof.
  round64_is 0.01 59%Z 5764607523034235%Z. reflexivity.
Qed.

(** The keep test is the tolerance test of the two binary64 prices up to the
    rounding of the difference and of the literal: a distance of at most
    [0.01 - 2^-59] passes and a distance of at least [0.01 + 2^-59] fails. *)
Lemma keep_test_near (P : Params) (dp : R) (o : order) :
  (Rabs (order_price P o - dp) <= 0.01 - / 576460752303423488 ->
   Rabs (Py.round64 (order_price P o - dp)) < Py.round64 0.01)
  /\ (Rabs (Py.round64 (order_price P o - dp)) < Py.round64 0.01 ->
      Rabs (order_price P o - dp) < 0.01 + / 576460752303423488).
Proof.
  rewrite tolerance_literal.
  pose proof (round64_error (order_price P o - dp)) as E.
  rewrite half_ulp in E.
  set (y := order_price P o - dp) in *. set (d := Py.round64 y) in *.
  split; intros H; unfold Rabs in *;
    repeat match goal with
           | H : context [Rcase_abs ?x] |- _ => destruct (Rcase_abs x)
           | |- context [Rcase_abs ?x] => destruct (Rcase_abs x)
           end; lra.
Qed.

(** In terms of the price the venue lists, the quotient [cents/100] is
    rounded as well: for a price of 0 to 100 cents, a distance of at most
    [0.01 - 2^-52] passes and a distance of at least [0.01 + 2^-52] fails. *)
Lemma keep_test_tolerance (P : Params) (dp : R) (o : order) :
  0 <= listed_price P o <= 1 ->
  (Rabs (listed_price P o - dp) <= 0.01 - / 4503599627370496 ->
   Rabs (Py.round64 (order_price P o - dp)) < Py.round64 0.01)
  /\ (Rabs (Py.round64 (order_price P o - dp)) < Py.round64 0.01 ->
      Rabs (listed_price P o - dp) < 0.01 + / 4503599627370496).
Proof.
  intros Hq. rewrite tolerance_literal.
  assert (Hp : order_price P o = Py.round64 (listed_price P o)).
  { unfold order_price, listed_price in *.
    destruct (trade_side P =? "yes")%string;
      rewrite float_cents; try reflexivity;
      split; apply le_IZR; lra. }
  rewrite Hp. set (q := listed_price P o) in *.
  pose proof (round64_error q) as E1.
  pose proof (round64_error (Py.round64 q - dp)) as E2.
  rewrite half_ulp in E1, E2.
  set (p := Py.round64 q) in *. set (d := Py.round64 (p - dp)) in *.
  split; intros H; unfold Rabs in *;
    repeat match goal with
           | H : context [Rcase_abs ?x] |- _ => destruct (Rcase_abs x)
           | |- context [Rcase_abs ?x] => destruct (Rcase_abs x)
           end; lra.
Qed.

Lemma improves_on_mid_iff (action : string) (dp cur : R) :
  improves_on_mid action dp cur = true
  <-> (action = "buy"%string /\ dp < cur) \/ (action = "sell"%string /\ cur < dp).
Proof.
  unfold improves_on_mid.
  rewrite orb_true_iff, !andb_true_iff, !String.eqb_eq.
  destruct (Rlt_dec dp cur), (Rlt_dec cur dp); intuition (try discriminate; try lra).
Qed.

(** [find] returns the first match and [extraneous] all the other orders. *)
Lemma first_match_split (keep : order -> bool) (orders : list order) :
  (exists pre o post,
      orders = pre ++ o :: post
      /\ (forall x, In x pre -> keep x = false)
      /\ keep o = true
      /\ find keep orders = Some o
      /\ extraneous keep orders = pre ++ post)
  \/ ((forall x, In x orders -> keep x = false)
      /\ find keep orders = None
      /\ extraneous keep orders = orders).
Proof.
  induction orders as [|o rest IH].
  - right. split; [intros x []|]. split; reflexivity.
  - simpl. destruct (keep o) eqn:Ho.
    + left. exists [], o, rest. simpl. intuition.
    + destruct IH as [(pre & o' & post & E & Hpre & Ho' & Hf & Hx) | (Hall & Hf & Hx)].
      * left. exists (o :: pre), o', post. rewrite Hx, Hf.
        split; [rewrite E; reflexivity|]. split; [|auto].
        intros x [<- | Hin]; auto.
      * right. rewrite Hx. split; [|auto].
        intros x [<- | Hin]; auto.
Qed.

(** *** Requests of one side *)

Lemma side_run_creates (P : Params) (action : string) (orders : list order)
    (dp : R) (ds : Z) (r : result unit) (tr : trace) :
  side_run P action orders dp ds r tr ->
  create_calls tr = []
  \/ exists req, create_calls tr = [req] /\ req_action req = action /\ req_count req = ds.
Proof.
  intros H. inversion H as [t1 fetched r' tail Hc Hl Hf Ht]; subst.
  rewrite create_calls_app, (loop_trace_no_create _ Hl). simpl.
  inversion Ht; subst; simpl; auto; right; eexists; eauto.
Qed.

Lemma side_run_requests_per_action (P : Params) (action : string)
    (orders : list order) (dp : R) (ds : Z) (r : result unit) (tr : trace) (a : string) :
  side_run P action orders dp ds r tr ->
  length (filter (fun req => (req_action req =? a)%string) (create_calls tr))
  = (if (action =? a)%string then length (create_calls tr) else 0)%nat
  /\ (length (create_calls tr) <= 1)%nat.
Proof.
  intros H. destruct (side_run_creates _ _ _ _ _ _ _ H) as [E | (req & E & Ha & _)];
    rewrite E; simpl.
  - destruct (action =? a)%string; auto.
  - rewrite Ha. destruct (action =? a)%string; auto.
Qed.

Lemma cycle_head_quiet (P : Params) (os : list order) :
  cancel_calls (cycle_head P os) = []
  /\ create_calls (cycle_head P os) = []
  /\ fetch_count (cycle_head P os) = 0%nat
  /\ failures_logged (cycle_head P os)
  /\ fetches_succeed (cycle_head P os).
Proof. unfold fetches_succeed. simpl. auto. Qed.

(** *** Keeping, cancelling, placing *)

(** C2. An order matches when its price is within the tolerance 0.01 of the
    desired price, as the code tests it, and its remaining count equals the
    desired size.  The code's test is on binary64 numbers: the rounded
    difference of the order's price, the quotient [cents/100], and the
    desired price is less than the literal [0.01] in absolute value.  With
    equal sizes, every distance of the two prices up to [0.01 - 2^-59]
    passes and every distance from [0.01 + 2^-59] on fails; in terms of the
    listed price of 0 to 100 cents the margin is [2^-52].  Of the orders of
    one side, the reconciler keeps the first match and nothing else, and
    issues one cancel call for each of the others, in order; when an order
    is kept no order is placed.  In particular a single resting order that
    matches is neither cancelled nor replaced. *)
Theorem keep_first_match_cancel_rest {W : Type} {world : World W} (P : Params)
    (action : string) (orders : list order) (dp : R) (ds : Z) (w : W) :
  (forall o : order,
      (order_matches P dp ds o = true
       <-> Rabs (Py.round64 (order_price P o - dp)) < Py.round64 0.01
           /\ remaining_count o = ds)
      /\ (remaining_count o = ds ->
          (Rabs (order_price P o - dp) <= 0.01 - / 576460752303423488 ->
           order_matches P dp ds o = true)
          /\ (order_matches P dp ds o = true ->
              Rabs (order_price P o - dp) < 0.01 + / 576460752303423488))
      /\ (remaining_count o = ds ->
          0 <= listed_price P o <= 1 ->
          (Rabs (listed_price P o - dp) <= 0.01 - / 4503599627370496 ->
           order_matches P dp ds o = true)
          /\ (order_matches P dp ds o = true ->
              Rabs (listed_price P o - dp) < 0.01 + / 4503599627370496)))
  /\ ((exists pre o post,
          orders = pre ++ o :: post
          /\ (forall x, In x pre -> order_matches P dp ds x = false)
          /\ order_matches P dp ds o = true
          /\ outcome (reconcile_orders P action orders dp ds None w) = Ok (Some o)
          /\ cancel_calls (emitted (handle_order_side P action orders dp ds w))
             = map order_id (pre ++ post)
          /\ create_calls (emitted (handle_order_side P action orders dp ds w)) = [])
      \/ ((forall x, In x orders -> order_matches P dp ds x = false)
          /\ outcome (reconcile_orders P action orders dp ds None w) = Ok None
          /\ cancel_calls (emitted (handle_order_side P action orders dp ds w))
             = map order_id orders))
  /\ (forall o : order,
         if order_matches P dp ds o
         then cancel_calls (emitted (handle_order_side P action [o] dp ds w)) = []
              /\ create_calls (emitted (handle_order_side P action [o] dp ds w)) = []
         else cancel_calls (emitted (handle_order_side P action [o] dp ds w))
              = [order_id o]).
Proof.
  split.
  { intros o. split; [apply order_matches_iff|]. split.
    - intros Hs. destruct (keep_test_near P dp o) as [Hin Hout]. split.
      + intros Hd. apply order_matches_iff. split; [apply Hin; exact Hd | exact Hs].
      + intros Hm. apply order_matches_iff in Hm as [Hm _]. apply Hout. exact Hm.
    - intros Hs Hq. destruct (keep_test_tolerance P dp o Hq) as [Hin Hout]. split.
      + intros Hd. apply order_matches_iff. split; [apply Hin; exact Hd | exact Hs].
      + intros Hm. apply order_matches_iff in Hm as [Hm _]. apply Hout. exact Hm. }
  split.
  - destruct (reconcile_orders_run P action dp ds orders None w)
      as (w1 & t1 & Hloop & _).
    simpl kept in Hloop.
    pose proof (handle_order_side_run P action orders dp ds w) as Hside.
    pose proof (side_run_cancel_calls _ _ _ _ _ _ _ Hside) as Hcancel.
    destruct (first_match_split (order_matches P dp ds) orders)
      as [(pre & o & post & E & Hpre & Ho & Hf & Hx) | (Hall & Hf & Hx)].
    + left. exists pre, o, post.
      split; [exact E|]. split; [exact Hpre|]. split; [exact Ho|].
      split; [rewrite Hloop, Hf; reflexivity|].
      split; [rewrite Hcancel, Hx; reflexivity|].
      apply (side_run_kept_no_create _ _ _ _ _ _ _ Hside). rewrite Hf. discriminate.
    + right. split; [exact Hall|].
      split; [rewrite Hloop, Hf; reflexivity|].
      rewrite Hcancel, Hx. reflexivity.
  - intros o.
    pose proof (handle_order_side_run P action [o] dp ds w) as Hside.
    pose proof (side_run_cancel_calls _ _ _ _ _ _ _ Hside) as Hcancel.
    pose proof (side_run_kept_no_create _ _ _ _ _ _ _ Hside) as Hcreate.
    simpl in Hcancel, Hcreate.
    destruct (order_matches P dp ds o).
    + split; [exact Hcancel|]. apply Hcreate. discriminate.
    + exact Hcancel.
Qed.

(** C1, as amended.  Within one invocation of [handle_order_side] no cancel
    call follows the mid fetch or the create call of that invocation; a cycle
    is the order fetch, then the buy side, then the sell side, so the sell
    side's cancels do follow the buy side's fetch and placement. *)
Theorem cancels_precede_fetch_within_side {W : Type} {world : World W} (P : Params)
    (w : W) :
  (forall (action : string) (orders : list order) (dp : R) (ds : Z),
      cancels_first (emitted (handle_order_side P action orders dp ds w)) = true)
  /\ (forall (bid ask : R) (bs ss : Z),
         cycle_run P bid ask bs ss
           (outcome (manage_orders P bid ask bs ss w))
           (emitted (manage_orders P bid ask bs ss w))).
Proof.
  split.
  - intros action orders dp ds.
    apply (side_run_cancels_first P action dp ds orders
             (outcome (handle_order_side P action orders dp ds w))).
    apply handle_order_side_run.
  - intros bid ask bs ss. apply manage_orders_run.
Qed.

(** C3. When no order of the side matches and the re-fetch of the mid
    returns, [handle_order_side] returns normally; it issues a create call
    (exactly one, for this action and size) if the desired price is strictly
    below the fresh mid for a buy, strictly above it for a sell; otherwise it
    issues none, and the last thing it does after the fetch is to log the
    skip at level [Info]. *)
Theorem placement_iff_improves_on_fresh_mid {W : Type} {world : World W}
    (P : Params) (action : string) (orders : list order) (dp : R) (ds : Z) (w : W)
    (data : market) (cur : R) :
  find (order_matches P dp ds) orders = None ->
  In (EvGetMarket (market_ticker P) (Ok data))
     (emitted (handle_order_side P action orders dp ds w)) ->
  mid_of (mids_of data) (trade_side P) = Ok cur ->
  outcome (handle_order_side P action orders dp ds w) = Ok tt
  /\ ((action = "buy"%string /\ dp < cur) \/ (action = "sell"%string /\ cur < dp) ->
      exists req : order_request,
        create_calls (emitted (handle_order_side P action orders dp ds w)) = [req]
        /\ req_action req = action /\ req_count req = ds)
  /\ (~ ((action = "buy"%string /\ dp < cur) \/ (action = "sell"%string /\ cur < dp)) ->
      create_calls (emitted (handle_order_side P action orders dp ds w)) = []
      /\ exists loop_trace : trace,
          forallb loop_event loop_trace = true
          /\ emitted (handle_order_side P action orders dp ds w)
             = loop_trace ++ [EvGetMarket (market_ticker P) (Ok data);
                              EvLog Info (MsgSkipped action dp cur)]).
Proof.
  intros Hnone Hin Hcur.
  pose proof (handle_order_side_run P action orders dp ds w) as Hside.
  remember (outcome (handle_order_side P action orders dp ds w)) as r eqn:Er.
  remember (emitted (handle_order_side P action orders dp ds w)) as tr eqn:Etr.
  clear Er Etr.
  destruct Hside as [t1 fetched r tail Hc Hl Hf Ht].
  rewrite Hnone in Ht.
  assert (Hfetched : fetched = Ok data).
  { apply in_app_or in Hin as [Hin | [Hin | Hin]].
    - rewrite forallb_forall in Hl. apply Hl in Hin. discriminate.
    - injection Hin as E. exact E.
    - pose proof (side_tail_events _ _ _ _ _ _ _ _ Ht) as Hp.
      rewrite forallb_forall in Hp. apply Hp in Hin. discriminate. }
  subst fetched.
  rewrite create_calls_app, (loop_trace_no_create _ Hl). simpl app.
  inversion Ht as [ | d e Hm | d c o Hk Hm | d c Hk Hm Himp
                  | d c req new_id Hk Hm Himp Ha Hn
                  | d c req e Hk Hm Himp Ha Hn ]; subst;
    try congruence; rewrite Hcur in Hm; injection Hm as <-.
  - split; [reflexivity|]. split.
    + intros Hbeats. apply improves_on_mid_iff in Hbeats. congruence.
    + intros _. split; [reflexivity|]. exists t1. split; [exact Hl | reflexivity].
  - split; [reflexivity|]. split.
    + intros _. exists req. simpl. auto.
    + intros Hnot. exfalso. apply Hnot. apply improves_on_mid_iff. exact Himp.
  - split; [reflexivity|]. split.
    + intros _. exists req. simpl. auto.
    + intros Hnot. exfalso. apply Hnot. apply improves_on_mid_iff. exact Himp.
Qed.

(** *** Failures of single order operations *)

(** C6. Let the traded side be "yes" or "no" and let every fetch of the cycle
    succeed; whatever the cancel and create calls do, [manage_orders] returns
    normally.  Every call that raised is followed at once by its error
    record; the cancel calls are one per extraneous order, buy side first, in
    order, whether or not earlier ones raised; no action is requested twice. *)
Theorem order_failures_stay_in_cycle {W : Type} {world : World W} (P : Params)
    (bid ask : R) (bs ss : Z) (w : W) :
  trade_side P = "yes"%string \/ trade_side P = "no"%string ->
  fetches_succeed (emitted (manage_orders P bid ask bs ss w)) ->
  outcome (manage_orders P bid ask bs ss w) = Ok tt
  /\ failures_logged (emitted (manage_orders P bid ask bs ss w))
  /\ (exists current_orders : list order,
         hd_error (emitted (manage_orders P bid ask bs ss w))
         = Some (EvGetOrders (market_ticker P) (Ok current_orders))
         /\ cancel_calls (emitted (manage_orders P bid ask bs ss w))
            = map order_id
                (extraneous (order_matches P bid bs)
                   (fst (split_orders P current_orders [] [])))
              ++ map order_id
                   (extraneous (order_matches P ask ss)
                      (snd (split_orders P current_orders [] []))))
  /\ (forall a : string,
         (length (filter (fun req => (req_action req =? a)%string)
                    (create_calls (emitted (manage_orders P bid ask bs ss w))))
          <= 1)%nat).
Proof.
  intros Hside Hfetch.
  pose proof (manage_orders_run P bid ask bs ss w) as Hrun.
  remember (outcome (manage_orders P bid ask bs ss w)) as r eqn:Er.
  remember (emitted (manage_orders P bid ask bs ss w)) as tr eqn:Etr.
  clear Er Etr.
  destruct Hrun as [e | os e tb Hb | os tb r ts Hb Hs].
  - discriminate Hfetch.
  - apply fetches_succeed_app in Hfetch as [_ Hfetch].
    pose proof (side_run_returns _ _ _ _ _ _ _ Hb Hside Hfetch). discriminate.
  - destruct (cycle_head_quiet P os) as (Hhc & Hhp & _ & Hhf & _).
    apply fetches_succeed_app in Hfetch as [_ Hfetch].
    apply fetches_succeed_app in Hfetch as [_ Hfetch].
    split; [exact (side_run_returns _ _ _ _ _ _ _ Hs Hside Hfetch)|].
    split.
    { apply failures_logged_app; [exact Hhf|].
      apply failures_logged_app; eapply side_run_failures_logged; eassumption. }
    split.
    { exists os. split; [reflexivity|].
      rewrite !cancel_calls_app, Hhc.
      rewrite (side_run_cancel_calls _ _ _ _ _ _ _ Hb).
      rewrite (side_run_cancel_calls _ _ _ _ _ _ _ Hs). reflexivity. }
    intros a. rewrite !create_calls_app, Hhp. simpl app.
    rewrite filter_app, length_app.
    destruct (side_run_requests_per_action _ _ _ _ _ _ _ a Hb) as [Eb Lb].
    destruct (side_run_requests_per_action _ _ _ _ _ _ _ a Hs) as [Es Ls].
    rewrite Eb, Es.
    destruct ("buy" =? a)%string eqn:Ebuy; destruct ("sell" =? a)%string eqn:Esell;
      try lia.
    apply String.eqb_eq in Ebuy, Esell. congruence.
Qed.

(** *** Counting market fetches *)

Section Fetches.
Context {W : Type}.

Lemma fetches_ret {A} (a : A) : fetches (W := W) 0 (ret a).
Proof. intros w. reflexivity. Qed.

Lemma fetches_lift {A} (r : result A) : fetches (W := W) 0 (lift r).
Proof. intros w. unfold lift, outcome, emitted. simpl. destruct r; auto. Qed.

Lemma fetches_logger lvl msg : fetches (W := W) 0 (logger lvl msg).
Proof. intros w. reflexivity. Qed.

Lemma fetches_ambient {A} (op : W -> A * W) : fetches 0 (ambient op).
Proof. intros w. unfold ambient, outcome, emitted. destruct (op w). reflexivity. Qed.

Lemma fetches_call {A} (op : W -> result A * W) (ev : result A -> event) :
  (forall r, is_fetch (ev r) = false) -> fetches 0 (call op ev).
Proof.
  intros Hev w. unfold call, outcome, emitted, fetch_count.
  destruct (op w) as [r w1]. simpl. rewrite Hev. destruct r; auto.
Qed.

Lemma fetches_bind {A B} (n k : nat) (m : M A) (f : A -> M (W := W) B) :
  fetches n m -> (forall a, fetches k (f a)) -> fetches (n + k) (Run.bind m f).
Proof.
  intros Hm Hf w. specialize (Hm w). unfold Run.bind.
  destruct (m w) as [[[a | e] w1] t1]; unfold outcome, emitted in *; simpl in *.
  - specialize (Hf a w1). unfold outcome, emitted in Hf.
    destruct (f a w1) as [[r w2] t2]. simpl in *.
    rewrite fetch_count_app. destruct r; lia.
  - lia.
Qed.

End Fetches.

Section CycleFetches.
Context {W : Type} {world : World W}.
Variable P : Params.

Lemma fetches_get_mid_price : fetches 1 (get_mid_price P).
Proof.
  intros w. destruct (get_market (market_ticker P) w) as [fetched w1] eqn:Hg.
  rewrite (get_mid_price_run P w w1 fetched Hg).
  unfold outcome, emitted. simpl. destruct fetched; auto.
Qed.

Lemma fetches_handle_order_side action orders dp ds :
  fetches 1 (handle_order_side P action orders dp ds).
Proof.
  intros w.
  pose proof (side_run_fetch_count _ _ _ _ _ _ _
                (handle_order_side_run P action orders dp ds w)) as E.
  rewrite E. destruct (outcome _); auto.
Qed.

Lemma fetches_manage_orders bid ask bs ss :
  fetches 2 (manage_orders P bid ask bs ss).
Proof.
  unfold manage_orders, get_resting_orders.
  apply (fetches_bind 0 2); [apply fetches_call; reflexivity|]. intros os.
  apply (fetches_bind 0 2); [apply fetches_logger|]. intros _.
  destruct (split_orders P os [] []) as [buys sells].
  apply (fetches_bind 0 2); [apply fetches_logger|]. intros _.
  apply (fetches_bind 0 2); [apply fetches_logger|]. intros _.
  apply (fetches_bind 1 1); [apply fetches_handle_order_side|]. intros _.
  apply fetches_handle_order_side.
Qed.

Lemma fetches_run_cycle start_time dt : fetches 3 (run_cycle P start_time dt).
Proof.
  unfold run_cycle.
  apply (fetches_bind 0 3); [apply fetches_ambient|]. intros now.
  apply (fetches_bind 0 3); [apply fetches_logger|]. intros _.
  apply (fetches_bind 1 2); [apply fetches_get_mid_price|]. intros mids.
  apply (fetches_bind 0 2); [apply fetches_lift|]. intros mid_price.
  apply (fetches_bind 0 2).
  { unfold get_current_position.
    apply (fetches_bind 0 0); [apply fetches_call; reflexivity|]. intros ps.
    apply fetches_ret. }
  intros inventory.
  apply (fetches_bind 0 2); [apply fetches_logger|]. intros _.
  apply (fetches_bind 0 2); [apply fetches_lift|]. intros reservation_price.
  apply (fetches_bind 0 2); [apply fetches_lift|]. intros [bid_price ask_price].
  destruct (calculate_order_sizes P inventory) as [buy_size sell_size].
  apply (fetches_bind 0 2); [apply fetches_logger|]. intros _.
  apply (fetches_bind 0 2); [apply fetches_logger|]. intros _.
  apply (fetches_bind 2 0); [apply fetches_manage_orders|]. intros _.
  apply fetches_ambient.
Qed.

End CycleFetches.

(** C10. Every invocation of [handle_order_side] fetches the market exactly
    once, whatever it keeps, cancels or places and whether or not it returns.
    A [manage_orders] that returns has fetched it twice, and a whole cycle that
    returns three times: the snapshot and the two re-fetches.  A cycle that
    raises has fetched it at most that often. *)
Theorem one_mid_fetch_per_side {W : Type} {world : World W} (P : Params) (w : W) :
  (forall (action : string) (orders : list order) (dp : R) (ds : Z),
      fetch_count (emitted (handle_order_side P action orders dp ds w)) = 1%nat)
  /\ (forall (bid ask : R) (bs ss : Z),
         match outcome (manage_orders P bid ask bs ss w) with
         | Ok _ => fetch_count (emitted (manage_orders P bid ask bs ss w)) = 2%nat
         | Raise _ => (fetch_count (emitted (manage_orders P bid ask bs ss w)) <= 2)%nat
         end)
  /\ (forall start_time dt : R,
         match outcome (run_cycle P start_time dt w) with
         | Ok _ => fetch_count (emitted (run_cycle P start_time dt w)) = 3%nat
         | Raise _ => (fetch_count (emitted (run_cycle P start_time dt w)) <= 3)%nat
         end).
Proof.
  split; [|split].
  - intros action orders dp ds.
    exact (side_run_fetch_count _ _ _ _ _ _ _
             (handle_order_side_run P action orders dp ds w)).
  - intros bid ask bs ss. apply fetches_manage_orders.
  - intros start_time dt. apply fetches_run_cycle.
Qed.

(** ** Concrete runs on the scripted venue *)

(** [round(x, 2)] of a float less than half a cent away from [n] cents. *)
Lemma round2_cents (n : Z) (x : R) :
  Rabs (x * 100 - IZR n) < 1 / 2 -> Py.round2 x = Py.round64 (IZR n / 100).
Proof.
  intros H. unfold Py.round2. rewrite (round_half_even_unique _ n H). reflexivity.
Qed.

Lemma int_whole (n : Z) (x : R) : (0 <= n)%Z -> x = IZR n -> Py.int x = n.
Proof.
  intros Hn ->. unfold Py.int. apply IZR_le in Hn.
  destruct (Rle_dec 0 (IZR n)) as [_ | N]; [| lra].
  symmetry. apply Int_part_spec. lra.
Qed.

(** The mid of the book quoted 49 / 51: the two binary64 prices add up to
    1 exactly. *)
Lemma mid_quotes :
  Py.round2
    (Py.round64
       (Py.round64 (Py.round64 (Py.float 49 / 100) + Py.round64 (Py.float 51 / 100))
        / 2))
  = 0.50.
Proof.
  rewrite !float_cents by lia.
  round64_is (49 / 100) 54%Z 8827055269646172%Z.
  round64_is (51 / 100) 53%Z 4593671619917906%Z.
  round64_is (8827055269646172 / 18014398509481984
              + 4593671619917906 / 9007199254740992) 52%Z 4503599627370496%Z.
  round64_is (4503599627370496 / 4503599627370496 / 2) 53%Z 4503599627370496%Z.
  rewrite (round2_cents 50) by (unfold Rabs; destruct (Rcase_abs _); lra).
  round64_is (50 / 100) 53%Z 4503599627370496%Z. lra.
Qed.

(** A whole number below [2^53] survives the rounding and the truncation. *)
Lemma int_round64_whole (n : Z) (x : R) :
  (0 <= n < 2 ^ 53)%Z -> x = IZR n -> Py.int (Py.round64 x) = n.
Proof.
  intros Hn ->. rewrite round64_IZR by lia. apply int_whole; [lia | reflexivity].
Qed.

(** A binary64 literal between 0 and 1 is within [2^-53] of its decimal. *)
Lemma literal_near (x : R) :
  0 <= x <= 1 ->
  x - / 9007199254740992 <= Py.round64 x <= x + / 9007199254740992.
Proof.
  intros Hx. pose proof (round64_close x 1) as H.
  assert (Ha : Rabs x <= 1) by (apply Rabs_le; lra).
  apply H in Ha. lra.
Qed.

Ltac literal_near_fact dp :=
  lazymatch dp with
  | Py.round64 ?x => pose proof (literal_near x ltac:(lra))
  | _ => idtac
  end.

(** The listed price of a concrete order is in range. *)
Ltac listed_in_range :=
  unfold listed_price; simpl; lra.

(** Settle a match test on concrete numbers away from the tolerance. *)
Ltac decide_match :=
  match goal with
  | |- context [order_matches ?P ?dp ?ds ?o] =>
      first
        [ let H := fresh in
          assert (H : order_matches P dp ds o = true)
            by (literal_near_fact dp;
                apply order_matches_iff; split; [|reflexivity];
                apply (keep_test_tolerance P dp o); [listed_in_range|];
                unfold listed_price; simpl;
                unfold Rabs; destruct (Rcase_abs _); lra);
          rewrite H; clear H
        | let H := fresh in
          assert (H : order_matches P dp ds o = false)
            by (literal_near_fact dp;
                apply not_true_is_false; intros H;
                apply order_matches_iff in H as [H ?];
                first [ discriminate
                      | apply (keep_test_tolerance P dp o) in H; [|listed_in_range];
                        unfold listed_price in H; simpl in H;
                        unfold Rabs in H; destruct (Rcase_abs _); lra ]);
          rewrite H; clear H ]
  end.

(** Settle the comparison with the fresh mid on concrete numbers. *)
Ltac decide_improves :=
  match goal with
  | |- context [improves_on_mid ?a ?dp ?cur] =>
      first
        [ let H := fresh in
          assert (H : improves_on_mid a dp cur = true)
            by (rewrite improves_on_mid_iff;
                solve [left; split; [reflexivity | lra]
                      | right; split; [reflexivity | lra]]);
          rewrite H; clear H
        | let H := fresh in
          assert (H : improves_on_mid a dp cur = false)
            by (apply not_true_is_false; rewrite improves_on_mid_iff;
                intros [[? ?] | [? ?]]; solve [discriminate | lra]);
          rewrite H; clear H ]
  end.

(** Settle [int] on a whole number of cents or seconds. *)
Ltac decide_int :=
  match goal with
  | |- context [Py.int ?x] =>
      first [ rewrite (int_round64_whole 40) by (solve [lia | lra])
            | rewrite (int_round64_whole 60) by (solve [lia | lra])
            | rewrite (int_whole 1000 x) by (solve [lia | lra]) ]
  end.

Ltac run_step :=
  first [ progress cbv -[improves_on_mid order_matches Py.round2 Py.int Py.round64
                          Py.float
                          calculate_reservation_price calculate_asymmetric_quotes
                          Z.max Z.min
                          Rdiv Rminus Rmult Rplus Ropp Rinv IZR Q2R Rabs
                          Rlt_dec Rle_dec]
        | rewrite mid_quotes
        | decide_match
        | decide_improves
        | decide_int ].

Ltac run_strategy :=
  unfold outcome, emitted, manage_orders, get_resting_orders, handle_order_side,
    place_order;
  repeat run_step.

Lemma scenario_params_valid : valid_params Scenario.params.
Proof. split; simpl; solve [lra | lia]. Qed.

Section ConcreteRuns.
Import Scenario.
Import Sim.

Local Open Scope string_scope.

(** Scenario C, one side: the bid resting at 0.48 for 10 is kept when the
    desired bid is 0.481 for 10. *)
Example resting_bid_kept :
  handle_order_side params "buy" [resting_bid] (Py.round64 0.481) 10
    (open_venue [resting_bid])
  = (Ok tt, open_venue [resting_bid],
     [EvLog Info (MsgKeeping "buy" "b1" (Py.round64 (Py.float 48 / 100)));
      EvGetMarket "MKT" (Ok quotes)]).
Proof. run_strategy. reflexivity. Qed.

(** Scenario C, the cycle: both resting orders match, nothing is cancelled
    and nothing is placed. *)
Example matching_book_cycle :
  manage_orders params (Py.round64 0.481) (Py.round64 0.52) 10 10
    (open_venue [resting_bid; resting_ask])
  = (Ok tt, open_venue [resting_bid; resting_ask],
     [EvGetOrders "MKT" (Ok [resting_bid; resting_ask]);
      EvLog Info (MsgRetrieved 2);
      EvLog Info (MsgBuyOrders 1);
      EvLog Info (MsgSellOrders 1);
      EvLog Info (MsgKeeping "buy" "b1" (Py.round64 (Py.float 48 / 100)));
      EvGetMarket "MKT" (Ok quotes);
      EvLog Info (MsgKeeping "sell" "a1" (Py.round64 (Py.float 52 / 100)));
      EvGetMarket "MKT" (Ok quotes)]).
Proof. run_strategy. reflexivity. Qed.

(** One cent apart, in binary64: the bid resting at 48 cents fails the keep
    test for the desired price [0.49], whose difference rounds to
    0.010000000000000009; a bid resting at 14 cents passes it for the
    desired price [0.15], whose difference rounds to 0.009999999999999981. *)
Example bid_48_for_49_fails :
  order_matches params (Py.round64 0.49) 10 resting_bid = false.
Proof.
  apply not_true_is_false. intros H. apply order_matches_iff in H as [H _].
  revert H. unfold order_price. simpl. rewrite tolerance_literal, float_cents by lia.
  round64_is (48 / 100) 54%Z 8646911284551352%Z.
  round64_is 0.49 54%Z 8827055269646172%Z.
  round64_is (8646911284551352 / 18014398509481984
              - 8827055269646172 / 18014398509481984) 59%Z (-5764607523034240)%Z.
  unfold Rabs. destruct (Rcase_abs _); lra.
Qed.

Example bid_14_for_15_passes :
  order_matches params (Py.round64 0.15) 10 (bid_at 14) = true.
Proof.
  apply order_matches_iff. split; [|reflexivity].
  unfold order_price. simpl. rewrite tolerance_literal, float_cents by lia.
  round64_is (14 / 100) 55%Z 5044031582654956%Z.
  round64_is 0.15 55%Z 5404319552844595%Z.
  round64_is (5044031582654956 / 36028797018963968
              - 5404319552844595 / 36028797018963968) 59%Z (-5764607523034224)%Z.
  unfold Rabs. destruct (Rcase_abs _); lra.
Qed.

(** The desired price [0.49] is sent as 49 cents. *)
Lemma cents_of_49 : Py.int (Py.round64 (Py.round64 0.49 * 100)) = 49%Z.
Proof.
  round64_is 0.49 54%Z 8827055269646172%Z.
  round64_is (8827055269646172 / 18014398509481984 * 100) 47%Z 6896136929411072%Z.
  apply int_whole; [lia | lra].
Qed.

Lemma price_49_below_mid : improves_on_mid "buy" (Py.round64 0.49) 0.50 = true.
Proof.
  apply improves_on_mid_iff. left. split; [reflexivity|].
  round64_is 0.49 54%Z 8827055269646172%Z. lra.
Qed.

(** The cycle of the first of the two: the bid at 48 cents is cancelled and
    a bid at 49 cents is placed. *)
Example one_cent_away_cancelled :
  emitted (handle_order_side params "buy" [resting_bid] (Py.round64 0.49) 10
             (open_venue [resting_bid]))
  = [EvLog Info (MsgCancelling "buy" "b1" (Py.round64 (Py.float 48 / 100)));
     EvCancelOrder "b1" (Ok tt);
     EvGetMarket "MKT" (Ok quotes);
     EvCreateOrder (buy_request 49 "u") (Ok "ou");
     EvLog Info (MsgPlaced "buy" "ou" (Py.round64 0.49) 10)].
Proof.
  pose proof bid_48_for_49_fails as Hfails.
  cbv delta [params resting_bid] in Hfails.
  run_strategy. rewrite Hfails.
  repeat run_step. rewrite price_49_below_mid.
  repeat run_step. rewrite cents_of_49.
  repeat run_step. reflexivity.
Qed.

(** Scenario D: with no resting order and a desired bid equal to the fresh
    mid, nothing is placed and the skip is logged. *)
Example bid_at_mid_skipped :
  handle_order_side params "buy" [] 0.50 10 (open_venue [])
  = (Ok tt, open_venue [],
     [EvGetMarket "MKT" (Ok quotes);
      EvLog Info (MsgSkipped "buy" 0.50 0.50)]).
Proof. run_strategy. reflexivity. Qed.

(** A cycle that places a bid and replaces a stale ask. *)
Example stale_ask_cycle :
  outcome (manage_orders params 0.40 0.60 10 10 (open_venue [stale_ask])) = Ok tt
  /\ emitted (manage_orders params 0.40 0.60 10 10 (open_venue [stale_ask]))
     = [EvGetOrders "MKT" (Ok [stale_ask]);
        EvLog Info (MsgRetrieved 1);
        EvLog Info (MsgBuyOrders 0);
        EvLog Info (MsgSellOrders 1);
        EvGetMarket "MKT" (Ok quotes);
        EvCreateOrder (buy_request 40 "u") (Ok "ou");
        EvLog Info (MsgPlaced "buy" "ou" 0.40 10);
        EvLog Info (MsgCancelling "sell" "s1" (Py.round64 (Py.float 70 / 100)));
        EvCancelOrder "s1" (Ok tt);
        EvGetMarket "MKT" (Ok quotes);
        EvCreateOrder (sell_request 60 "ui") (Ok "oui");
        EvLog Info (MsgPlaced "sell" "oui" 0.60 10)].
Proof. split; run_strategy; reflexivity. Qed.

(** The same cycle on a venue that rejects every cancel and every create. *)
Example rejected_cycle :
  outcome (manage_orders params 0.40 0.60 10 10 (rejecting_venue [stale_ask])) = Ok tt
  /\ emitted (manage_orders params 0.40 0.60 10 10 (rejecting_venue [stale_ask]))
     = [EvGetOrders "MKT" (Ok [stale_ask]);
        EvLog Info (MsgRetrieved 1);
        EvLog Info (MsgBuyOrders 0);
        EvLog Info (MsgSellOrders 1);
        EvGetMarket "MKT" (Ok quotes);
        EvCreateOrder (buy_request 40 "u") (Raise (HTTPError 400));
        EvLog Error (MsgPlaceFailed "buy" (HTTPError 400));
        EvLog Info (MsgCancelling "sell" "s1" (Py.round64 (Py.float 70 / 100)));
        EvCancelOrder "s1" (Raise (HTTPError 404));
        EvLog Error (MsgCancelFailed "s1" (HTTPError 404));
        EvGetMarket "MKT" (Ok quotes);
        EvCreateOrder (sell_request 60 "ui") (Raise (HTTPError 400));
        EvLog Error (MsgPlaceFailed "sell" (HTTPError 400))].
Proof. split; run_strategy; reflexivity. Qed.

(** The sizes at inventory 0: with the defaults the buffer is 10; with the
    buffer fraction [0.29] the binary64 product [100 * 0.29] is
    28.999999999999996 and the buffer is 28. *)
Example default_sizes_flat : calculate_order_sizes params 0 = (100, 10)%Z.
Proof.
  unfold calculate_order_sizes. simpl. rewrite float_cents by lia.
  rewrite (int_round64_whole 10) by (solve [lia | lra]). reflexivity.
Qed.

Example buffer_29_sizes_flat :
  calculate_order_sizes (with_buffer (Py.round64 0.29)) 0 = (100, 28)%Z.
Proof.
  unfold calculate_order_sizes. simpl. rewrite float_cents by lia.
  round64_is 0.29 54%Z 5224175567749775%Z.
  round64_is (100 * (5224175567749775 / 18014398509481984)) 48%Z 8162774324609023%Z.
  rewrite (int_between 28) by (solve [lia | split; lra]). reflexivity.
Qed.

(** A whole cycle on an empty book: whatever the quotes of the engine
    are, the cycle returns and has fetched the market three times. *)
Example whole_cycle_returns :
  outcome (run_cycle params 1000 1 (open_venue [])) = Ok tt
  /\ fetch_count (emitted (run_cycle params 1000 1 (open_venue []))) = 3%nat.
Proof.
  destruct (reservation_price_returns params scenario_params_valid
              0.50 0 (1000 - 1000)) as (r & Er).
  destruct (asymmetric_quotes_returns params scenario_params_valid
              0.50 0 (1000 - 1000)) as ([bid ask] & Eq).
  cbv delta [params] in Er, Eq.
  unfold outcome, emitted, run_cycle, get_mid_price, get_current_position.
  repeat run_step. rewrite Er.
  repeat run_step. rewrite Eq.
  repeat run_step.
  destruct (improves_on_mid "buy" bid 0.50); repeat run_step;
    destruct (improves_on_mid "sell" ask 0.50); repeat run_step;
    split; reflexivity.
Qed.

End ConcreteRuns.

(** ** The properties at concrete inputs *)

Import Sim.

(** The decay of the risk aversion with the default parameters. *)
Lemma dynamic_gamma_decay_witness :
  (0 < base_gamma Scenario.params /\ (0 < max_position Scenario.params)%Z)
  /\ (forall inventory : Z,
         exists g : R,
           calculate_dynamic_gamma Scenario.params inventory = Ok g
           /\ g = base_gamma Scenario.params
                  * exp (- Rabs (IZR inventory / IZR (max_position Scenario.params)))
           /\ 0 < g <= base_gamma Scenario.params).
Proof.
  assert (Hg : 0 < base_gamma Scenario.params) by (simpl; lra).
  assert (Hm : (0 < max_position Scenario.params)%Z) by (simpl; lia).
  split; [split; assumption|].
  exact (proj1 (dynamic_gamma_decay Scenario.params Hg Hm)).
Defined.

(** The spread floor at the start of the run with a flat inventory. *)
Lemma optimal_spread_floor_witness :
  (0 < base_gamma Scenario.params /\ 0 < k Scenario.params
   /\ (0 < max_position Scenario.params)%Z /\ 0 < T Scenario.params)
  /\ exists spread : R,
      calculate_optimal_spread Scenario.params 0 0 = Ok spread
      /\ min_spread Scenario.params <= spread.
Proof.
  assert (Hg : 0 < base_gamma Scenario.params) by (simpl; lra).
  assert (Hk : 0 < k Scenario.params) by (simpl; lra).
  assert (Hm : (0 < max_position Scenario.params)%Z) by (simpl; lia).
  assert (HT : 0 < T Scenario.params) by (simpl; lra).
  split; [repeat split; assumption|].
  exact (proj2 (optimal_spread_floor Scenario.params 0 0 Hg Hk Hm) HT).
Defined.

(** The quotes around a mid of 0.50 when 80 contracts long. *)
Lemma quotes_bracket_mid_witness :
  (0 <= 0.50 <= 1 /\ valid_params Scenario.params)
  /\ exists bid_price ask_price : R,
      calculate_asymmetric_quotes Scenario.params 0.50 80 0 = Ok (bid_price, ask_price)
      /\ 0 <= bid_price <= 0.50
      /\ 0.50 <= ask_price <= 1.
Proof.
  assert (Hmid : 0 <= 0.50 <= 1) by lra.
  split; [split; [exact Hmid | exact scenario_params_valid]|].
  exact (proj2 (quotes_bracket_mid Scenario.params 0.50 80 0 Hmid)
           scenario_params_valid).
Defined.

(** Scenario B: 80 contracts long out of 100. *)
Lemma order_sizes_bounded_witness :
  ((0 < max_position Scenario.params)%Z
   /\ (Z.abs 80 <= max_position Scenario.params)%Z)
  /\ (1 <= fst (calculate_order_sizes Scenario.params 80) <= 100)%Z
  /\ (1 <= snd (calculate_order_sizes Scenario.params 80) <= 100)%Z.
Proof.
  assert (Hm : (0 < max_position Scenario.params)%Z) by (simpl; lia).
  assert (Hi : (Z.abs 80 <= max_position Scenario.params)%Z) by (simpl; lia).
  split; [split; assumption|].
  exact (order_sizes_bounded Scenario.params 80 Hm Hi).
Defined.

(** Scenario D as an instance of the placement rule. *)
Lemma placement_iff_improves_witness :
  (find (order_matches Scenario.params 0.50 10) [] = None
   /\ In (EvGetMarket "MKT" (Ok Scenario.quotes))
         (emitted (handle_order_side Scenario.params "buy" [] 0.50 10
                     (Scenario.open_venue [])))
   /\ mid_of (mids_of Scenario.quotes) (trade_side Scenario.params) = Ok 0.50)
  /\ outcome (handle_order_side Scenario.params "buy" [] 0.50 10
                (Scenario.open_venue [])) = Ok tt
  /\ create_calls (emitted (handle_order_side Scenario.params "buy" [] 0.50 10
                              (Scenario.open_venue []))) = [].
Proof.
  assert (Hnone : find (order_matches Scenario.params 0.50 10) [] = None)
    by reflexivity.
  assert (Hin : In (EvGetMarket (market_ticker Scenario.params) (Ok Scenario.quotes))
                   (emitted (handle_order_side Scenario.params "buy" [] 0.50 10
                               (Scenario.open_venue [])))).
  { rewrite bid_at_mid_skipped. left. reflexivity. }
  assert (Hmid : mid_of (mids_of Scenario.quotes) (trade_side Scenario.params) = Ok 0.50).
  { unfold mids_of, mid_cents, Scenario.quotes. simpl. rewrite mid_quotes.
    reflexivity. }
  split; [split; [exact Hnone | split; [exact Hin | exact Hmid]]|].
  destruct (placement_iff_improves_on_fresh_mid Scenario.params "buy" []
              0.50 10 (Scenario.open_venue []) Scenario.quotes 0.50 Hnone Hin Hmid)
    as (Hok & _ & Hskip).
  split; [exact Hok|].
  apply Hskip. intros [[_ Hlt] | [Hsell _]]; [lra | discriminate].
Defined.

(** A cycle on the rejecting venue as an instance of the recovery rule. *)
Lemma order_failures_witness :
  (trade_side Scenario.params = "yes"%string
   /\ fetches_succeed
        (emitted (manage_orders Scenario.params 0.40 0.60 10 10
                    (Scenario.rejecting_venue [Scenario.stale_ask]))))
  /\ outcome (manage_orders Scenario.params 0.40 0.60 10 10
                (Scenario.rejecting_venue [Scenario.stale_ask])) = Ok tt
  /\ failures_logged
       (emitted (manage_orders Scenario.params 0.40 0.60 10 10
                   (Scenario.rejecting_venue [Scenario.stale_ask]))).
Proof.
  assert (Hside : trade_side Scenario.params = "yes"%string
                  \/ trade_side Scenario.params = "no"%string)
    by (left; reflexivity).
  assert (Hfetch : fetches_succeed
                     (emitted (manage_orders Scenario.params 0.40 0.60 10 10
                                 (Scenario.rejecting_venue [Scenario.stale_ask])))).
  { rewrite (proj2 rejected_cycle). reflexivity. }
  split; [split; [reflexivity | exact Hfetch]|].
  destruct (order_failures_stay_in_cycle Scenario.params 0.40 0.60 10 10
              (Scenario.rejecting_venue [Scenario.stale_ask]) Hside Hfetch)
    as (Hok & Hlogged & _).
  split; assumption.
Defined.

(** The claim C1 as stated fails on a cycle: the cancel of the stale ask is
    issued after the buy side's mid fetch and after the buy side's create
    call. *)
Lemma sell_cancel_follows_buy_placement :
  cancels_first
    (emitted (manage_orders Scenario.params 0.40 0.60 10 10
                (Scenario.open_venue [Scenario.stale_ask])))
  = false.
Proof. rewrite (proj2 stale_ask_cycle). reflexivity. Qed.

(** * Further properties of the code *)

(** ** Quote engine: special cases and errors *)

(** X1. With a flat inventory the reservation price is the mid, at every
    time, whenever the two divisors are not zero. *)
Theorem reservation_price_flat_inventory (P : Params) (mid_price t : R) :
  max_position P <> 0%Z -> T P <> 0 ->
  calculate_reservation_price P mid_price 0 t = Ok mid_price.
Proof.
  intros Hm HT. unfold calculate_reservation_price, calculate_dynamic_gamma.
  rewrite div_ok by (apply not_0_IZR; exact Hm). simpl.
  rewrite div_ok by exact HT. simpl. f_equal. ring.
Qed.

(** X2. At the horizon [t = T] the inventory-risk term vanishes: the
    reservation price is the mid moved by the linear skew
    [inventory * inventory_skew_factor * mid] alone. *)
Theorem reservation_price_at_horizon (P : Params) (mid_price : R) (inventory : Z) :
  max_position P <> 0%Z -> T P <> 0 ->
  calculate_reservation_price P mid_price inventory (T P)
  = Ok (mid_price + IZR inventory * inventory_skew_factor P * mid_price).
Proof.
  intros Hm HT. unfold calculate_reservation_price, calculate_dynamic_gamma.
  rewrite div_ok by (apply not_0_IZR; exact Hm). simpl.
  rewrite div_ok by exact HT. simpl. f_equal. field. exact HT.
Qed.

Lemma dynamic_gamma_even (P : Params) (inventory : Z) :
  calculate_dynamic_gamma P (- inventory) = calculate_dynamic_gamma P inventory.
Proof.
  unfold calculate_dynamic_gamma, Py.div.
  destruct (Req_dec_T (IZR (max_position P)) 0) as [E | N]; [reflexivity|].
  simpl. rewrite opp_IZR.
  replace (- IZR inventory / IZR (max_position P))
    with (- (IZR inventory / IZR (max_position P))) by (field; exact N).
  rewrite Rabs_Ropp. reflexivity.
Qed.

(** X3. The dynamic risk aversion and the spread depend on the inventory
    through its absolute value only: a short position of a given size gets
    the results (or the exception) of the long position of that size. *)
Theorem spread_ignores_inventory_sign (P : Params) (t : R) (inventory : Z) :
  calculate_dynamic_gamma P (- inventory) = calculate_dynamic_gamma P inventory
  /\ calculate_optimal_spread P t (- inventory) = calculate_optimal_spread P t inventory.
Proof.
  split; [apply dynamic_gamma_even|].
  unfold calculate_optimal_spread. rewrite dynamic_gamma_even, Z.abs_opp. reflexivity.
Qed.

(** X4. At the position limit, [|inventory| = max_position], the quadratic
    compression cancels the theoretical spread: the spread returned is
    [min_spread] (for valid parameters and [min_spread >= 0]). *)
Theorem spread_at_position_limit (P : Params) (t : R) (inventory : Z) :
  valid_params P -> 0 <= min_spread P ->
  Z.abs inventory = max_position P ->
  calculate_optimal_spread P t inventory = Ok (min_spread P).
Proof.
  intros HP Hmin Hfull.
  destruct (dynamic_gamma_pos P HP inventory) as (g & Eg & Hg).
  pose proof (k_pos P HP) as Hk.
  pose proof (max_position_nonzero P HP) as Hm.
  unfold calculate_optimal_spread. rewrite Eg. simpl.
  rewrite div_ok by (apply horizon_nonzero; exact HP). simpl.
  rewrite div_ok by lra. simpl.
  rewrite div_ok by lra. simpl.
  rewrite log_ok
    by (assert (0 < g / k P) by (apply Rdiv_lt_0_compat; assumption); lra).
  simpl. rewrite div_ok by exact Hm. simpl. rewrite Hfull. f_equal.
  match goal with
  | |- Py.max ?raw _ = _ =>
      replace raw with 0
        by (field; repeat split;
            [exact Hm | lra | apply horizon_nonzero; exact HP])
  end.
  unfold Py.max. destruct (Rlt_dec 0 (min_spread P)); lra.
Qed.

(** X5. With a flat inventory the quotes are symmetric about the mid: half
    the spread below and half above, clamped to [[0, 1]] (for valid
    parameters and [min_spread >= 0]). *)
Theorem quotes_flat_inventory (P : Params) (mid_price t : R) :
  valid_params P -> 0 <= min_spread P ->
  exists spread : R,
    calculate_optimal_spread P t 0 = Ok spread
    /\ min_spread P <= spread
    /\ calculate_asymmetric_quotes P mid_price 0 t
       = Ok (Py.max 0 (mid_price - spread / 2), Py.min 1 (mid_price + spread / 2)).
Proof.
  intros HP Hmin.
  destruct (optimal_spread_returns P HP t 0) as (raw & Es).
  pose proof (max_bounds raw (min_spread P)) as [_ Hfloor].
  set (spread := Py.max raw (min_spread P)) in *.
  exists spread. split; [exact Es|]. split; [exact Hfloor|].
  unfold calculate_asymmetric_quotes.
  rewrite reservation_price_flat_inventory
    by (try (apply horizon_nonzero; exact HP);
        pose proof (max_position_pos P HP); lia).
  simpl. rewrite Es. simpl.
  rewrite div_ok by (apply max_position_nonzero; exact HP). simpl.
  f_equal.
  replace (0 / IZR (max_position P)) with 0
    by (field; apply max_position_nonzero; exact HP).
  rewrite Rabs_R0.
  assert (Ehalf : Py.max (spread / 2 - spread * 0 * 3) (min_spread P / 2) = spread / 2).
  { unfold Py.max. destruct (Rlt_dec _ _); lra. }
  rewrite Ehalf. f_equal.
  - f_equal. unfold Py.min. destruct (Rlt_dec _ _); lra.
  - f_equal. unfold Py.max. destruct (Rlt_dec _ _); lra.
Qed.

(** X7. With [max_position = 0] every formula of the quote engine that
    divides by it raises [ZeroDivisionError], for every mid, inventory and
    time; only the order sizes are still computed. *)
Theorem zero_max_position_raises (P : Params) (mid_price t : R) (inventory : Z) :
  max_position P = 0%Z ->
  calculate_dynamic_gamma P inventory = Raise ZeroDivisionError
  /\ calculate_reservation_price P mid_price inventory t = Raise ZeroDivisionError
  /\ calculate_optimal_spread P t inventory = Raise ZeroDivisionError
  /\ calculate_asymmetric_quotes P mid_price inventory t = Raise ZeroDivisionError
  /\ calculate_order_sizes P inventory = (1, 1)%Z.
Proof.
  intros Hm.
  assert (Eg : calculate_dynamic_gamma P inventory = Raise ZeroDivisionError).
  { unfold calculate_dynamic_gamma, Py.div. rewrite Hm.
    destruct (Req_dec_T 0 0) as [_ | N]; [reflexivity | contradiction]. }
  assert (Er : calculate_reservation_price P mid_price inventory t
               = Raise ZeroDivisionError).
  { unfold calculate_reservation_price. rewrite Eg. reflexivity. }
  split; [exact Eg|]. split; [exact Er|].
  split; [unfold calculate_optimal_spread; rewrite Eg; reflexivity|].
  split; [unfold calculate_asymmetric_quotes; rewrite Er; reflexivity|].
  unfold calculate_order_sizes. rewrite Hm.
  destruct (0 <? inventory)%Z; f_equal; lia.
Qed.

(** ** Order sizes *)

(** X8. At or beyond the position limit the side that would increase the
    inventory is still quoted, with a size of one contract; the other side
    keeps the full flattening size. *)
Theorem order_sizes_at_limit (P : Params) (inventory : Z) :
  (max_position P <= Z.abs inventory)%Z ->
  calculate_order_sizes P inventory
  = if (0 <? inventory)%Z
    then (1, Z.max 1 (max_position P))%Z
    else (Z.max 1 (max_position P), 1)%Z.
Proof.
  intros Hfull. unfold calculate_order_sizes.
  destruct (0 <? inventory)%Z; f_equal; lia.
Qed.

(** X9. Long and short positions of the same size are sized as mirror
    images: the buy size of one is the sell size of the other. *)
Theorem order_sizes_mirror (P : Params) (inventory : Z) :
  inventory <> 0%Z ->
  calculate_order_sizes P (- inventory)
  = (snd (calculate_order_sizes P inventory), fst (calculate_order_sizes P inventory)).
Proof.
  intros Hnz. unfold calculate_order_sizes. rewrite Z.abs_opp.
  destruct (0 <? inventory)%Z eqn:Hpos; destruct (0 <? - inventory)%Z eqn:Hneg;
    try rewrite Z.ltb_lt in *; try rewrite Z.ltb_ge in *; simpl; try reflexivity; lia.
Qed.

(** ** Fetches *)

(** For a bid and an ask of up to [2^40] cents in magnitude, the five
    roundings of the average move it by much less than half a cent, so the
    mid is a whole number of cents next to the exact average. *)
Lemma mid_cents_near (b a : Z) :
  (Z.abs b <= 2 ^ 40)%Z -> (Z.abs a <= 2 ^ 40)%Z ->
  exists c : Z,
    mid_cents b a = Py.round64 (IZR c / 100)
    /\ (2 * c - 1 <= b + a <= 2 * c + 1)%Z.
Proof.
  intros Hb Ha. unfold mid_cents, Py.round2.
  rewrite !float_exact by lia.
  change (2 ^ 40)%Z with 1099511627776%Z in Hb, Ha.
  assert (Rb : - 1099511627776 <= IZR b <= 1099511627776)
    by (split; [apply (IZR_le (-1099511627776)) | apply (IZR_le _ 1099511627776)]; lia).
  assert (Ra : - 1099511627776 <= IZR a <= 1099511627776)
    by (split; [apply (IZR_le (-1099511627776)) | apply (IZR_le _ 1099511627776)]; lia).
  pose proof (round64_close (IZR b / 100) 10995116277.76) as E1.
  pose proof (round64_close (IZR a / 100) 10995116277.76) as E2.
  set (pb := Py.round64 (IZR b / 100)) in *.
  set (pa := Py.round64 (IZR a / 100)) in *.
  assert (B1 : - (10995116277.76 * / 9007199254740992) <= pb - IZR b / 100
               <= 10995116277.76 * / 9007199254740992)
    by (apply E1; apply Rabs_le; lra).
  assert (B2 : - (10995116277.76 * / 9007199254740992) <= pa - IZR a / 100
               <= 10995116277.76 * / 9007199254740992)
    by (apply E2; apply Rabs_le; lra).
  clear E1 E2.
  pose proof (round64_close (pb + pa) 43980465111.04) as E3.
  set (s := Py.round64 (pb + pa)) in *.
  assert (B3 : - (43980465111.04 * / 9007199254740992) <= s - (pb + pa)
               <= 43980465111.04 * / 9007199254740992)
    by (apply E3; apply Rabs_le; lra).
  clear E3.
  pose proof (round64_close (s / 2) 43980465111.04) as E4.
  set (h := Py.round64 (s / 2)) in *.
  assert (B4 : - (43980465111.04 * / 9007199254740992) <= h - s / 2
               <= 43980465111.04 * / 9007199254740992)
    by (apply E4; apply Rabs_le; lra).
  clear E4.
  pose proof (round_half_even_near (h * 100)) as Hc.
  set (c := Py.round_half_even (h * 100)) in *.
  exists c. split; [reflexivity|].
  assert (Hx : - (1 / 2) < h * 100 - (IZR b + IZR a) / 2 < 1 / 2) by lra.
  assert (Hc' : - (1 / 2) <= IZR c - h * 100 <= 1 / 2).
  { unfold Rabs in Hc. destruct (Rcase_abs _); lra. }
  assert (H1 : (2 * c - 2 < b + a)%Z).
  { apply lt_IZR. rewrite minus_IZR, mult_IZR, plus_IZR. lra. }
  assert (H2 : (b + a < 2 * c + 2)%Z).
  { apply lt_IZR. rewrite !plus_IZR, mult_IZR. lra. }
  lia.
Qed.

(** A book quoted 49 / 50: the binary64 average is 0.49499999999999999556,
    below the half cent, and the mid is 0.49. *)
Example mid_of_49_50 : mid_cents 49 50 = Py.round64 (49 / 100).
Proof.
  unfold mid_cents. rewrite !float_cents by lia.
  round64_is (49 / 100) 54%Z 8827055269646172%Z.
  round64_is (50 / 100) 53%Z 4503599627370496%Z.
  round64_is (8827055269646172 / 18014398509481984
              + 4503599627370496 / 9007199254740992) 53%Z 8917127262193582%Z.
  round64_is (8917127262193582 / 9007199254740992 / 2) 54%Z 8917127262193582%Z.
  rewrite (round2_cents 49) by (unfold Rabs; destruct (Rcase_abs _); lra).
  round64_is (49 / 100) 54%Z 8827055269646172%Z. reflexivity.
Qed.

(** X10. When the gateway returns a market whose bids and asks are at most
    [2^40] cents in magnitude, [get_mid_price] returns for each side the
    binary64 number nearest to a whole number of cents; that number of
    cents is within half a cent of the average of bid and ask, hence
    between the two. *)
Theorem mid_between_bid_and_ask {W : Type} {world : World W} (P : Params)
    (w w1 : W) (data : market) :
  get_market (market_ticker P) w = (Ok data, w1) ->
  (Z.abs (yes_bid data) <= 2 ^ 40)%Z /\ (Z.abs (yes_ask data) <= 2 ^ 40)%Z
  /\ (Z.abs (no_bid data) <= 2 ^ 40)%Z /\ (Z.abs (no_ask data) <= 2 ^ 40)%Z ->
  exists cy cn : Z,
    outcome (get_mid_price P w)
    = Ok {| mid_yes := Py.round64 (IZR cy / 100);
            mid_no := Py.round64 (IZR cn / 100) |}
    /\ (2 * cy - 1 <= yes_bid data + yes_ask data <= 2 * cy + 1)%Z
    /\ (Z.min (yes_bid data) (yes_ask data) <= cy <= Z.max (yes_bid data) (yes_ask data))%Z
    /\ (2 * cn - 1 <= no_bid data + no_ask data <= 2 * cn + 1)%Z
    /\ (Z.min (no_bid data) (no_ask data) <= cn <= Z.max (no_bid data) (no_ask data))%Z.
Proof.
  intros Hg (Hyb & Hya & Hnb & Hna).
  rewrite (get_mid_price_run P w w1 (Ok data) Hg).
  destruct (mid_cents_near (yes_bid data) (yes_ask data) Hyb Hya) as (cy & Ey & Hy).
  destruct (mid_cents_near (no_bid data) (no_ask data) Hnb Hna) as (cn & En & Hn).
  exists cy, cn. unfold outcome, mids_of. cbn [fst]. rewrite Ey, En.
  split; [reflexivity|]. repeat split; lia.
Qed.

(** X11. [get_current_position] returns the sum of the positions of the
    entries whose ticker is the market's; entries of other tickers are
    ignored and an empty response gives 0. *)
Theorem current_position_sums_ticker {W : Type} {world : World W} (P : Params)
    (w w1 : W) (positions : list market_position) :
  get_positions (market_ticker P) w = (Ok positions, w1) ->
  outcome (get_current_position P w)
  = Ok (Zsum (map position
                (filter (fun pos => (pos_ticker pos =? market_ticker P)%string)
                   positions))).
Proof.
  intros Hg. unfold get_current_position.
  erewrite bind_ok; [| apply call_run; exact Hg | reflexivity].
  unfold outcome. simpl. f_equal.
  assert (Hacc : forall (ps : list market_position) (acc : Z),
             fold_left
               (fun total_position pos =>
                  if (pos_ticker pos =? market_ticker P)%string
                  then (total_position + position pos)%Z
                  else total_position) ps acc
             = (acc + Zsum (map position
                              (filter (fun pos =>
                                         (pos_ticker pos =? market_ticker P)%string)
                                 ps)))%Z).
  { induction ps as [|p ps IH]; intros acc; simpl.
    - lia.
    - rewrite IH. destruct (pos_ticker p =? market_ticker P)%string; simpl; lia. }
  rewrite Hacc. lia.
Qed.

(** ** What a computation emits *)

Section Emits.
Context {W : Type}.
Variable Q : event -> Prop.

Lemma emits_ret {A} (a : A) : emits (W := W) Q (ret a).
Proof. intros w. constructor. Qed.

Lemma emits_lift {A} (r : result A) : emits (W := W) Q (lift r).
Proof. intros w. constructor. Qed.

Lemma emits_logger lvl msg : Q (EvLog lvl msg) -> emits (W := W) Q (logger lvl msg).
Proof. intros H w. constructor; [exact H | constructor]. Qed.

Lemma emits_ambient {A} (op : W -> A * W) : emits Q (ambient op).
Proof. intros w. unfold ambient, emitted. destruct (op w). constructor. Qed.

Lemma emits_call {A} (op : W -> result A * W) (ev : result A -> event) :
  (forall r, Q (ev r)) -> emits Q (call op ev).
Proof.
  intros H w. unfold call, emitted. destruct (op w) as [r w1].
  constructor; [apply H | constructor].
Qed.

Lemma emits_bind {A B} (m : M A) (f : A -> M (W := W) B) :
  emits Q m -> (forall a, emits Q (f a)) -> emits Q (Run.bind m f).
Proof.
  intros Hm Hf w. specialize (Hm w). unfold Run.bind, emitted in *.
  destruct (m w) as [[[a | e] w1] t1]; simpl in *; [|exact Hm].
  specialize (Hf a w1). unfold emitted in Hf.
  destruct (f a w1) as [[r w2] t2]. simpl in *.
  apply Forall_app. split; assumption.
Qed.

Lemma emits_try_except {A} (m : M A) (h : exn -> M (W := W) A) :
  emits Q m -> (forall e, emits Q (h e)) -> emits Q (try_except m h).
Proof.
  intros Hm Hh w. specialize (Hm w). unfold try_except, emitted in *.
  destruct (m w) as [[[a | e] w1] t1]; simpl in *; [exact Hm|].
  specialize (Hh e w1). unfold emitted in Hh.
  destruct (h e w1) as [[r w2] t2]. simpl in *.
  apply Forall_app. split; assumption.
Qed.

End Emits.

Section SideEmits.
Context {W : Type} {world : World W}.
Variable P : Params.

(** A side emits cancel calls for orders of its list only, log records, the
    mid fetch, and create calls. *)
Lemma emits_reconcile_orders (Q : event -> Prop) action orders dp ds keep :
  (forall lvl msg, Q (EvLog lvl msg)) ->
  (forall o r, In o orders -> Q (EvCancelOrder (order_id o) r)) ->
  emits Q (reconcile_orders (W := W) P action orders dp ds keep).
Proof.
  intros Hlog. revert keep.
  induction orders as [|o rest IH]; intros keep Hcancel; simpl.
  - apply emits_ret.
  - destruct (is_none keep && order_matches P dp ds o).
    + apply emits_bind; [apply emits_logger; apply Hlog|]. intros _.
      apply IH. intros o' r Hin. apply Hcancel. right. exact Hin.
    + apply emits_bind; [apply emits_logger; apply Hlog|]. intros _.
      apply emits_bind.
      * apply emits_try_except.
        -- apply emits_bind; [|intros; apply emits_ret].
           apply emits_call. intros r. apply Hcancel. left. reflexivity.
        -- intros e. apply emits_logger. apply Hlog.
      * intros _. apply IH. intros o' r Hin. apply Hcancel. right. exact Hin.
Qed.

Lemma emits_place_order (Q : event -> Prop) action dp ds :
  (forall lvl msg, Q (EvLog lvl msg)) ->
  (forall req r, request_for P action dp ds req -> Q (EvCreateOrder req r)) ->
  emits Q (place_order (W := W) P action dp ds).
Proof.
  intros Hlog Hcreate. unfold place_order.
  apply emits_try_except; [|intros e; apply emits_logger; apply Hlog].
  apply emits_bind; [apply emits_ambient|]. intros uuid.
  apply emits_bind; [apply emits_ambient|]. intros now.
  apply emits_bind; [|intros id; apply emits_logger; apply Hlog].
  apply emits_call. intros r. apply Hcreate.
  unfold request_for. simpl. repeat split; try reflexivity.
  exists now. reflexivity.
Qed.

Lemma emits_handle_order_side (Q : event -> Prop) action orders dp ds :
  (forall lvl msg, Q (EvLog lvl msg)) ->
  (forall r, Q (EvGetMarket (market_ticker P) r)) ->
  (forall o r, In o orders -> Q (EvCancelOrder (order_id o) r)) ->
  (forall req r, request_for P action dp ds req -> Q (EvCreateOrder req r)) ->
  emits Q (handle_order_side (W := W) P action orders dp ds).
Proof.
  intros Hlog Hfetch Hcancel Hcreate. unfold handle_order_side.
  apply emits_bind; [apply emits_reconcile_orders; assumption|]. intros keep.
  apply emits_bind.
  { unfold get_mid_price. apply emits_bind; [|intros; apply emits_ret].
    apply emits_call. exact Hfetch. }
  intros mids. apply emits_bind; [apply emits_lift|]. intros cur.
  destruct keep; [apply emits_ret|].
  destruct (improves_on_mid action dp cur).
  - apply emits_place_order; assumption.
  - apply emits_logger. apply Hlog.
Qed.

End SideEmits.

Lemma create_calls_In (tr : trace) (req : order_request) :
  In req (create_calls tr) <-> exists r, In (EvCreateOrder req r) tr.
Proof.
  induction tr as [|e tr IH]; simpl.
  - split; [intros [] | intros [r []]].
  - destruct e; simpl; rewrite IH; split; intros H;
      repeat match goal with
             | H : exists _, _ |- _ => destruct H
             | H : _ \/ _ |- _ => destruct H
             | H : _ = _ |- _ => first [discriminate H | injection H as -> ->]
             end;
      subst; eauto.
Qed.

Lemma cancel_calls_In (tr : trace) (id : string) :
  In id (cancel_calls tr) <-> exists r, In (EvCancelOrder id r) tr.
Proof.
  induction tr as [|e tr IH]; simpl.
  - split; [intros [] | intros [r []]].
  - destruct e; simpl; rewrite IH; split; intros H;
      repeat match goal with
             | H : exists _, _ |- _ => destruct H
             | H : _ \/ _ |- _ => destruct H
             | H : _ = _ |- _ => first [discriminate H | injection H as -> ->]
             end;
      subst; eauto.
Qed.

(** ** Placement requests *)

Lemma create_calls_request_for {W : Type} {world : World W} (P : Params)
    (action : string) (orders : list order) (dp : R) (ds : Z) (w : W)
    (req : order_request) :
  In req (create_calls (emitted (handle_order_side P action orders dp ds w))) ->
  request_for P action dp ds req.
Proof.
  intros Hin. apply create_calls_In in Hin as [r Hin].
  pose proof (emits_handle_order_side P
                (fun e => match e with
                          | EvCreateOrder req' _ => request_for P action dp ds req'
                          | _ => True
                          end)
                action orders dp ds) as Hemits.
  specialize (Hemits (fun _ _ => I) (fun _ => I) (fun _ _ _ => I) (fun _ _ H => H) w).
  rewrite Forall_forall in Hemits. exact (Hemits _ Hin).
Qed.


(** The cents sent for a desired price in [[0, 1]]. *)
Lemma price_cents_range (dp : R) :
  0 <= dp <= 1 ->
  (0 <= Py.int (Py.round64 (dp * 100)) <= 100)%Z
  /\ dp * 100 - 1 - / 70368744177664 < IZR (Py.int (Py.round64 (dp * 100)))
     <= dp * 100 + / 70368744177664.
Proof.
  intros [Hlo Hhi].
  assert (Hx : 0 <= dp * 100) by lra.
  pose proof (round64_error (dp * 100)) as E.
  rewrite half_ulp, (Rabs_pos_eq _ Hx) in E.
  pose proof (round64_nonneg _ Hx) as Hr.
  destruct (int_nonneg_floor _ Hr) as [H0 [H1 H2]].
  set (r := Py.round64 (dp * 100)) in *. set (c := Py.int r) in *.
  assert (Er : dp * 100 - / 70368744177664 <= r <= dp * 100 + / 70368744177664).
  { unfold Rabs in E. destruct (Rcase_abs _); lra. }
  split; [|lra].
  split; [exact H0|]. assert (Hc : (c < 101)%Z) by (apply lt_IZR; lra). lia.
Qed.

(** X13. A desired price in [[0, 1]] is sent as a whole number of cents
    between 0 and 100 on the traded side's price field, and the other
    side's field is absent.  The cents are the truncation of the binary64
    product: never more than [2^-46] cent above [desired_price * 100] and
    less than one cent and [2^-46] below it. *)
Theorem quoted_price_in_cents {W : Type} {world : World W} (P : Params)
    (action : string) (orders : list order) (dp : R) (ds : Z) (w : W)
    (req : order_request) :
  0 <= dp <= 1 ->
  trade_side P = "yes"%string \/ trade_side P = "no"%string ->
  In req (create_calls (emitted (handle_order_side P action orders dp ds w))) ->
  exists cents : Z,
    (0 <= cents <= 100)%Z
    /\ dp * 100 - 1 - / 70368744177664 < IZR cents <= dp * 100 + / 70368744177664
    /\ ((trade_side P = "yes"%string
         /\ req_yes_price req = Some cents /\ req_no_price req = None)
        \/ (trade_side P = "no"%string
            /\ req_no_price req = Some cents /\ req_yes_price req = None)).
Proof.
  intros Hdp Hside Hin.
  destruct (create_calls_request_for P action orders dp ds w req Hin)
    as (_ & _ & _ & _ & _ & Hyes & Hno & _).
  exists (Py.int (Py.round64 (dp * 100))).
  destruct (price_cents_range dp Hdp) as [Hrange Hnear].
  split; [exact Hrange|]. split; [exact Hnear|].
  destruct Hside as [E | E]; rewrite E in *; simpl in Hyes, Hno; auto.
Qed.

(** The desired ask [0.58]: it is above the mid of 0.50, it is sent as 57
    cents, and an ask resting at 57 cents fails the keep test for it. *)
Lemma price_58_above_mid : improves_on_mid "sell" (Py.round64 0.58) 0.50 = true.
Proof.
  apply improves_on_mid_iff. right. split; [reflexivity|].
  round64_is 0.58 53%Z 5224175567749775%Z. lra.
Qed.

(** The desired price [0.57] is sent as 56 cents: the binary64 product
    [0.57 * 100] is 56.99999999999999. *)
Example cents_of_57 : Py.int (Py.round64 (Py.round64 0.57 * 100)) = 56%Z.
Proof.
  round64_is 0.57 53%Z 5134103575202365%Z.
  round64_is (5134103575202365 / 9007199254740992 * 100) 47%Z 8022036836253695%Z.
  apply int_between; [lia | split; lra].
Qed.

Lemma cents_of_58 : Py.int (Py.round64 (Py.round64 0.58 * 100)) = 57%Z.
Proof.
  round64_is 0.58 53%Z 5224175567749775%Z.
  round64_is (5224175567749775 / 9007199254740992 * 100) 47%Z 8162774324609023%Z.
  apply int_between; [lia | split; lra].
Qed.

Lemma ask_57_for_58_fails :
  order_matches Scenario.params (Py.round64 0.58) 10 Edge.placed_ask = false.
Proof.
  apply not_true_is_false. intros H. apply order_matches_iff in H as [H _].
  revert H. unfold order_price. simpl. rewrite tolerance_literal, float_cents by lia.
  round64_is (57 / 100) 53%Z 5134103575202365%Z.
  round64_is 0.58 53%Z 5224175567749775%Z.
  round64_is (5134103575202365 / 9007199254740992
              - 5224175567749775 / 9007199254740992) 59%Z (-5764607523034240)%Z.
  unfold Rabs. destruct (Rcase_abs _); lra.
Qed.

(** X14. Placing and keeping do not always agree.  For the desired ask
    [0.58] the product [0.58 * 100] is 57.99999999999999 in binary64, so 57
    cents are sent; the difference [57/100 - 0.58] is 0.010000000000000009,
    so the order fails the keep test of the quote it was placed for: the
    next reconciliation of the same quote cancels it and places it again. *)
Theorem placed_order_may_be_replaced :
  handle_order_side Scenario.params "sell" [] (Py.round64 0.58) 10
    (Scenario.open_venue [])
  = (Ok tt, Edge.venue_resting_ask,
     [EvGetMarket "MKT" (Ok Scenario.quotes);
      EvCreateOrder (Scenario.sell_request 57 "u") (Ok "ou"%string);
      EvLog Info (MsgPlaced "sell" "ou" (Py.round64 0.58) 10)])
  /\ order_matches Scenario.params (Py.round64 0.58) 10 Edge.placed_ask = false
  /\ emitted (handle_order_side Scenario.params "sell" [Edge.placed_ask]
                (Py.round64 0.58) 10 Edge.venue_resting_ask)
     = [EvLog Info (MsgCancelling "sell" "ou" (Py.round64 (Py.float 57 / 100)));
        EvCancelOrder "ou" (Ok tt);
        EvGetMarket "MKT" (Ok Scenario.quotes);
        EvCreateOrder (Scenario.sell_request 57 "ui") (Ok "oui"%string);
        EvLog Info (MsgPlaced "sell" "oui" (Py.round64 0.58) 10)].
Proof.
  pose proof ask_57_for_58_fails as Hfails.
  cbv delta [Scenario.params Edge.placed_ask] in Hfails.
  split; [|split; [exact ask_57_for_58_fails|]].
  - run_strategy. rewrite price_58_above_mid.
    repeat run_step. rewrite cents_of_58.
    repeat run_step. reflexivity.
  - run_strategy. rewrite Hfails.
    repeat run_step. rewrite price_58_above_mid.
    repeat run_step. rewrite cents_of_58.
    repeat run_step. reflexivity.
Qed.

(** ** Which orders a cycle touches *)

Lemma split_orders_acc (P : Params) (os buys sells : list order) :
  split_orders P os buys sells
  = (buys ++ filter (on_side P "buy") os, sells ++ filter (on_side P "sell") os).
Proof.
  revert buys sells. induction os as [|o rest IH]; intros buys sells; simpl.
  - rewrite !app_nil_r. reflexivity.
  - destruct (side o =? trade_side P)%string eqn:Es.
    + destruct (action o =? "buy")%string eqn:Eb.
      * assert (on_side P "buy" o = true) as ->
          by (unfold on_side; rewrite Es, Eb; reflexivity).
        assert (on_side P "sell" o = false) as ->
          by (unfold on_side; apply String.eqb_eq in Eb; rewrite Es, Eb; reflexivity).
        rewrite IH, <- app_assoc. reflexivity.
      * assert (on_side P "buy" o = false) as ->
          by (unfold on_side; rewrite Es, Eb; reflexivity).
        destruct (action o =? "sell")%string eqn:Esell.
        -- assert (on_side P "sell" o = true) as ->
             by (unfold on_side; rewrite Es, Esell; reflexivity).
           rewrite IH, <- app_assoc. reflexivity.
        -- assert (on_side P "sell" o = false) as ->
             by (unfold on_side; rewrite Es, Esell; reflexivity).
           apply IH.
    + assert (on_side P "buy" o = false) as ->
        by (unfold on_side; rewrite Es; reflexivity).
      assert (on_side P "sell" o = false) as ->
        by (unfold on_side; rewrite Es; reflexivity).
      apply IH.
Qed.

(** X15. [manage_orders] sorts the fetched orders by filtering: the buy list
    is the orders of the traded side with action "buy", the sell list those
    with action "sell", both in the order of the response; orders of the
    other side or of another action are in neither list. *)
Theorem split_orders_filters (P : Params) (current_orders : list order) :
  split_orders P current_orders [] []
  = (filter (on_side P "buy") current_orders,
     filter (on_side P "sell") current_orders).
Proof. rewrite split_orders_acc. reflexivity. Qed.

Lemma extraneous_incl (keep : order -> bool) (orders : list order) (o : order) :
  In o (extraneous keep orders) -> In o orders.
Proof.
  induction orders as [|x rest IH]; simpl; [auto|].
  destruct (keep x); simpl; intuition.
Qed.

Lemma side_run_no_get_orders (P : Params) (action : string) (orders : list order)
    (dp : R) (ds : Z) (r : result unit) (tr : trace) :
  side_run P action orders dp ds r tr ->
  forallb (fun e => negb (is_get_orders e)) tr = true.
Proof.
  intros H. destruct H as [t1 fetched r tail Hc Hl Hf Ht].
  rewrite forallb_app. apply andb_true_iff. split.
  - rewrite forallb_forall in *. intros e He. specialize (Hl e He).
    destruct e; try discriminate; reflexivity.
  - simpl. pose proof (side_tail_events _ _ _ _ _ _ _ _ Ht) as Hp.
    rewrite forallb_forall in *. intros e He. specialize (Hp e He).
    destruct e; try discriminate; reflexivity.
Qed.

Lemma side_run_cancels_from_list (P : Params) (action : string)
    (orders : list order) (dp : R) (ds : Z) (r : result unit) (tr : trace)
    (id : string) :
  side_run P action orders dp ds r tr ->
  In id (cancel_calls tr) ->
  exists o, In o orders /\ order_id o = id.
Proof.
  intros H Hin. rewrite (side_run_cancel_calls _ _ _ _ _ _ _ H) in Hin.
  apply in_map_iff in Hin as (o & Eo & Ho).
  exists o. split; [eapply extraneous_incl; exact Ho | exact Eo].
Qed.

(** X16. A cycle cancels only orders it has just fetched, and among them
    only orders of the traded side with action "buy" or "sell": resting
    orders of the other side of the market are never cancelled. *)
Theorem cycle_cancels_own_orders {W : Type} {world : World W} (P : Params)
    (bid ask : R) (bs ss : Z) (w : W) (current_orders : list order) (id : string) :
  In (EvGetOrders (market_ticker P) (Ok current_orders))
     (emitted (manage_orders P bid ask bs ss w)) ->
  In id (cancel_calls (emitted (manage_orders P bid ask bs ss w))) ->
  exists o : order,
    In o current_orders /\ order_id o = id /\ side o = trade_side P
    /\ (action o = "buy"%string \/ action o = "sell"%string).
Proof.
  intros Hfetched Hin.
  pose proof (manage_orders_run P bid ask bs ss w) as Hrun.
  remember (outcome (manage_orders P bid ask bs ss w)) as r eqn:Er.
  remember (emitted (manage_orders P bid ask bs ss w)) as tr eqn:Etr.
  clear Er Etr.
  assert (Hown : forall os act o,
             In o (filter (on_side P act) os) ->
             In o os /\ side o = trade_side P /\ action o = act).
  { intros os act o Ho. apply filter_In in Ho as [Ho Hs].
    unfold on_side in Hs. apply andb_true_iff in Hs as [Hs Ha].
    apply String.eqb_eq in Hs, Ha. auto. }
  assert (Hhead : forall os tail,
             forallb (fun e => negb (is_get_orders e)) tail = true ->
             In (EvGetOrders (market_ticker P) (Ok current_orders))
                (cycle_head P os ++ tail) ->
             os = current_orders).
  { intros os tail Htail H. apply in_app_or in H as [H | H].
    - simpl in H. destruct H as [H | [H | [H | [H | []]]]]; try discriminate.
      injection H as E. exact E.
    - rewrite forallb_forall in Htail. apply Htail in H. discriminate. }
  destruct Hrun as [e | os e tb Hb | os tb r ts Hb Hs].
  - destruct Hin.
  - assert (os = current_orders) as ->
      by (eapply Hhead; [eapply side_run_no_get_orders; exact Hb | exact Hfetched]).
    rewrite cancel_calls_app in Hin. simpl in Hin.
    destruct (side_run_cancels_from_list _ _ _ _ _ _ _ _ Hb Hin) as (o & Ho & Eo).
    rewrite split_orders_acc in Ho. simpl in Ho.
    apply Hown in Ho as (Ho & Hside & Hact). exists o. auto.
  - assert (os = current_orders) as ->.
    { eapply Hhead; [|exact Hfetched].
      rewrite forallb_app. apply andb_true_iff.
      split; eapply side_run_no_get_orders; eassumption. }
    rewrite !cancel_calls_app in Hin. simpl in Hin.
    apply in_app_or in Hin as [Hin | Hin].
    + destruct (side_run_cancels_from_list _ _ _ _ _ _ _ _ Hb Hin) as (o & Ho & Eo).
      rewrite split_orders_acc in Ho. simpl in Ho.
      apply Hown in Ho as (Ho & Hside & Hact). exists o. auto.
    + destruct (side_run_cancels_from_list _ _ _ _ _ _ _ _ Hs Hin) as (o & Ho & Eo).
      rewrite split_orders_acc in Ho. simpl in Ho.
      apply Hown in Ho as (Ho & Hside & Hact). exists o. auto.
Qed.

(** ** An unknown traded side *)

(** X17. With a traded side other than "yes" and "no", a side's
    reconciliation still issues its cancel calls but never a create call, and
    when the mid fetch returns it raises [KeyError] for the side. *)
Theorem unknown_side_never_places {W : Type} {world : World W} (P : Params)
    (action : string) (orders : list order) (dp : R) (ds : Z) (w : W) :
  trade_side P <> "yes"%string -> trade_side P <> "no"%string ->
  create_calls (emitted (handle_order_side P action orders dp ds w)) = []
  /\ cancel_calls (emitted (handle_order_side P action orders dp ds w))
     = map order_id (extraneous (order_matches P dp ds) orders)
  /\ (fetches_succeed (emitted (handle_order_side P action orders dp ds w)) ->
      outcome (handle_order_side P action orders dp ds w)
      = Raise (KeyError (trade_side P))).
Proof.
  intros Hyes Hno.
  assert (Hmid : forall d, mid_of d (trade_side P) = Raise (KeyError (trade_side P))).
  { intros d. unfold mid_of.
    destruct (trade_side P =? "yes")%string eqn:E1;
      [apply String.eqb_eq in E1; contradiction|].
    destruct (trade_side P =? "no")%string eqn:E2;
      [apply String.eqb_eq in E2; contradiction|].
    reflexivity. }
  pose proof (handle_order_side_run P action orders dp ds w) as Hside.
  split; [|split; [exact (side_run_cancel_calls _ _ _ _ _ _ _ Hside)|]].
  - remember (outcome (handle_order_side P action orders dp ds w)) as r eqn:Er.
    remember (emitted (handle_order_side P action orders dp ds w)) as tr eqn:Etr.
    clear Er Etr. destruct Hside as [t1 fetched r tail Hc Hl Hf Ht].
    rewrite create_calls_app, (loop_trace_no_create _ Hl). simpl.
    inversion Ht; subst; try reflexivity;
      match goal with
      | H : mid_of _ _ = Ok _ |- _ => rewrite Hmid in H; discriminate H
      end.
  - remember (outcome (handle_order_side P action orders dp ds w)) as r eqn:Er.
    remember (emitted (handle_order_side P action orders dp ds w)) as tr eqn:Etr.
    clear Er Etr. destruct Hside as [t1 fetched r tail Hc Hl Hf Ht].
    intros Hfetch. apply fetches_succeed_app in Hfetch as [_ Hfetch].
    unfold fetches_succeed in Hfetch. simpl in Hfetch.
    destruct fetched as [data | e]; [|discriminate].
    inversion Ht; subst;
      match goal with
      | H : mid_of _ _ = _ |- _ => rewrite Hmid in H
      end; congruence.
Qed.

(** X18. With such a traded side a whole cycle stops right after the
    market snapshot: it logs its start, fetches the market once, raises
    ([KeyError] if the fetch returned) and touches no order. *)
Theorem unknown_side_stops_cycle {W : Type} {world : World W} (P : Params)
    (start_time dt : R) (w : W) :
  trade_side P <> "yes"%string -> trade_side P <> "no"%string ->
  exists (now : R) (fetched : result market),
    emitted (run_cycle P start_time dt w)
    = [EvLog Info (MsgRunning (now - start_time));
       EvGetMarket (market_ticker P) fetched]
    /\ outcome (run_cycle P start_time dt w)
       = match fetched with
         | Ok _ => Raise (KeyError (trade_side P))
         | Raise e => Raise e
         end.
Proof.
  intros Hyes Hno.
  assert (Hmid : forall d, mid_of d (trade_side P) = Raise (KeyError (trade_side P))).
  { intros d. unfold mid_of.
    destruct (trade_side P =? "yes")%string eqn:E1;
      [apply String.eqb_eq in E1; contradiction|].
    destruct (trade_side P =? "no")%string eqn:E2;
      [apply String.eqb_eq in E2; contradiction|].
    reflexivity. }
  destruct (time_time w) as [now w0] eqn:Hnow.
  destruct (get_market (market_ticker P) w0) as [fetched w1] eqn:Hg.
  exists now, fetched.
  assert (Hclock : ambient time_time w = (Ok now, w0, []))
    by (unfold ambient; rewrite Hnow; reflexivity).
  pose proof (get_mid_price_run P w0 w1 fetched Hg) as Hfetch.
  unfold run_cycle. destruct fetched as [data | e].
  - erewrite bind_ok;
      [| exact Hclock
       | eapply bind_ok; [apply logger_run |];
         eapply bind_ok; [exact Hfetch |];
         eapply bind_raise; unfold lift; rewrite Hmid; reflexivity].
    split; reflexivity.
  - erewrite bind_ok;
      [| exact Hclock
       | eapply bind_ok; [apply logger_run |];
         eapply bind_raise; exact Hfetch].
    split; reflexivity.
Qed.

(** ** The clock through a cycle *)

Section Clock.
Context {W : Type} {world : World W} {laws : ClockLaws W}.

Lemma advances_ret {A} (a : A) : advances (W := W) 0 (ret a).
Proof. intros w. unfold outcome, world_after. simpl. lra. Qed.

Lemma advances_lift {A} (r : result A) : advances (W := W) 0 (lift r).
Proof. intros w. unfold lift, outcome, world_after. simpl. destruct r; lra. Qed.

Lemma advances_logger lvl msg : advances (W := W) 0 (logger lvl msg).
Proof. intros w. unfold outcome, world_after. simpl. lra. Qed.

Lemma advances_call {A} (op : W -> result A * W) (ev : result A -> event) :
  (forall w, clock_of w <= clock_of (snd (op w))) -> advances 0 (call op ev).
Proof.
  intros Hop w. specialize (Hop w). unfold call, outcome, world_after.
  destruct (op w) as [r w1]. simpl in *. destruct r; lra.
Qed.

Lemma advances_ambient {A} (d : R) (op : W -> A * W) :
  (forall w, clock_of w + d <= clock_of (snd (op w))) -> advances d (ambient op).
Proof.
  intros Hop w. specialize (Hop w). unfold ambient, outcome, world_after.
  destruct (op w) as [a w1]. simpl in *. lra.
Qed.

Lemma advances_bind {A B} (d1 d2 : R) (m : M A) (f : A -> M (W := W) B) :
  0 <= d1 -> 0 <= d2 ->
  advances d1 m -> (forall a, advances d2 (f a)) ->
  advances (d1 + d2) (Run.bind m f).
Proof.
  intros H1 H2 Hm Hf w. specialize (Hm w). unfold Run.bind.
  destruct (m w) as [[[a | e] w1] t1]; unfold outcome, world_after in *; simpl in *.
  - specialize (Hf a w1). unfold outcome, world_after in Hf.
    destruct (f a w1) as [[r w2] t2]. simpl in *. destruct r; lra.
  - lra.
Qed.

Lemma advances_try_except {A} (m : M A) (h : exn -> M (W := W) A) :
  advances 0 m -> (forall e, advances 0 (h e)) -> advances 0 (try_except m h).
Proof.
  intros Hm Hh w. specialize (Hm w). unfold try_except.
  destruct (m w) as [[[a | e] w1] t1]; unfold outcome, world_after in *; simpl in *.
  - lra.
  - specialize (Hh e w1). unfold outcome, world_after in Hh.
    destruct (h e w1) as [[r w2] t2]. simpl in *. destruct r; lra.
Qed.

(** Chaining steps that do not set the clock back. *)
Lemma advances_then {A B} (d : R) (m : M A) (f : A -> M (W := W) B) :
  0 <= d -> advances 0 m -> (forall a, advances d (f a)) ->
  advances d (Run.bind m f).
Proof.
  intros Hd Hm Hf. replace d with (0 + d) by lra.
  apply advances_bind; try assumption; lra.
Qed.

Variable P : Params.

Lemma advances_get_mid_price : advances 0 (get_mid_price (W := W) P).
Proof.
  unfold get_mid_price. apply advances_then; [lra | | intros; apply advances_ret].
  apply advances_call. apply get_market_steady.
Qed.

Lemma advances_reconcile_orders action orders dp ds keep :
  advances 0 (reconcile_orders (W := W) P action orders dp ds keep).
Proof.
  revert keep. induction orders as [|o rest IH]; intros keep; simpl.
  - apply advances_ret.
  - destruct (is_none keep && order_matches P dp ds o).
    + apply advances_then; [lra | apply advances_logger | intros; apply IH].
    + apply advances_then; [lra | apply advances_logger |]. intros _.
      apply advances_then; [lra | | intros; apply IH].
      apply advances_try_except; [|intros; apply advances_logger].
      apply advances_then; [lra | | intros; apply advances_ret].
      apply advances_call. apply cancel_order_steady.
Qed.

Lemma advances_place_order action dp ds :
  advances 0 (place_order (W := W) P action dp ds).
Proof.
  unfold place_order.
  apply advances_try_except; [|intros; apply advances_logger].
  apply advances_then; [lra | |].
  { apply advances_ambient. intros w. pose proof (uuid4_steady w). lra. }
  intros uuid. apply advances_then; [lra | |].
  { apply advances_ambient. intros w. pose proof (time_time_steady w). lra. }
  intros now. apply advances_then; [lra | | intros; apply advances_logger].
  apply advances_call. apply create_order_steady.
Qed.

Lemma advances_handle_order_side action orders dp ds :
  advances 0 (handle_order_side (W := W) P action orders dp ds).
Proof.
  unfold handle_order_side.
  apply advances_then; [lra | apply advances_reconcile_orders |]. intros keep.
  apply advances_then; [lra | apply advances_get_mid_price |]. intros mids.
  apply advances_then; [lra | apply advances_lift |]. intros cur.
  destruct keep; [apply advances_ret|].
  destruct (improves_on_mid action dp cur);
    [apply advances_place_order | apply advances_logger].
Qed.

Lemma advances_manage_orders bid ask bs ss :
  advances 0 (manage_orders (W := W) P bid ask bs ss).
Proof.
  unfold manage_orders, get_resting_orders.
  apply advances_then; [lra | apply advances_call; apply get_orders_steady |].
  intros os. apply advances_then; [lra | apply advances_logger |]. intros _.
  destruct (split_orders P os [] []) as [buys sells].
  apply advances_then; [lra | apply advances_logger |]. intros _.
  apply advances_then; [lra | apply advances_logger |]. intros _.
  apply advances_then; [lra | apply advances_handle_order_side |]. intros _.
  apply advances_handle_order_side.
Qed.

(** A cycle that returns has slept: the clock is at least [dt] later. *)
Lemma advances_run_cycle start_time dt :
  0 <= dt -> advances dt (run_cycle (W := W) P start_time dt).
Proof.
  intros Hdt. unfold run_cycle.
  apply advances_then; [lra | |].
  { apply advances_ambient. intros w. pose proof (time_time_steady w). lra. }
  intros now. apply advances_then; [lra | apply advances_logger |]. intros _.
  apply advances_then; [lra | apply advances_get_mid_price |]. intros mids.
  apply advances_then; [lra | apply advances_lift |]. intros mid_price.
  apply advances_then; [lra | |].
  { unfold get_current_position.
    apply advances_then; [lra | | intros; apply advances_ret].
    apply advances_call. apply get_positions_steady. }
  intros inventory.
  apply advances_then; [lra | apply advances_logger |]. intros _.
  apply advances_then; [lra | apply advances_lift |]. intros reservation_price.
  apply advances_then; [lra | apply advances_lift |]. intros [bid_price ask_price].
  destruct (calculate_order_sizes P inventory) as [buy_size sell_size].
  apply advances_then; [lra | apply advances_logger |]. intros _.
  apply advances_then; [lra | apply advances_logger |]. intros _.
  apply advances_then; [lra | apply advances_manage_orders |]. intros _.
  apply advances_ambient. intros w. simpl. apply time_sleep_advances.
Qed.

End Clock.

(** ** The loop of [run] *)

Section RunLoop.
Import Loop.
Context {W : Type} {world : World W}.
Variable P : Params.

Lemma run_loop_S (fuel : nat) (start_time dt : R) (w : W) :
  run_loop P (S fuel) start_time dt w
  = let '(now, w0) := time_time w in
    if Rlt_dec (now - start_time) (T P)
    then
      match run_cycle P start_time dt w0 with
      | (Ok _, w1, tr) =>
          let '(r, w2, rest) := run_loop P fuel start_time dt w1 in
          (r, w2, map CycleEvent tr ++ rest)
      | (Raise e, w1, tr) => (Crashed e, w1, map CycleEvent tr)
      end
    else (Finished, w0, [LogFinished]).
Proof. reflexivity. Qed.

Lemma run_loop_terminates {laws : ClockLaws W} (start_time dt : R) :
  0 < dt ->
  forall (fuel : nat) (w : W),
    T P - (clock_of w - start_time) < INR fuel * dt ->
    fst (fst (run_loop P (S fuel) start_time dt w)) <> OutOfFuel.
Proof.
  intros Hdt. induction fuel as [|fuel IH]; intros w Hfuel;
    rewrite run_loop_S;
    pose proof (time_time_reads w) as Hread;
    pose proof (time_time_steady w) as Hsteady;
    destruct (time_time w) as [now w0]; cbn [fst snd] in Hread, Hsteady;
    (destruct (Rlt_dec (now - start_time) (T P)) as [Hlt | _];
     [|cbn [fst]; discriminate]).
  - exfalso. change (INR 0) with 0 in Hfuel. lra.
  - rewrite S_INR in Hfuel.
    pose proof (advances_run_cycle P start_time dt (Rlt_le _ _ Hdt) w0) as Hadv.
    unfold outcome, world_after in Hadv.
    destruct (run_cycle P start_time dt w0) as [[[[] | e] w1] tr];
      cbn [fst snd] in Hadv; [|cbn [fst]; discriminate].
    specialize (IH w1).
    destruct (run_loop P (S fuel) start_time dt w1) as [[r w2] rest].
    cbn [fst] in *. apply IH. lra.
Qed.

End RunLoop.

(** X19. [run] terminates: on a clock that does not run backwards and that a
    sleep of [dt > 0] moves on by [dt] or more, the loop ends (by the horizon
    or by an exception) within [fuel] cycles as soon as [fuel * dt > T], so
    it never runs more than [T / dt] rounded up cycles. *)
Theorem run_terminates {W : Type} {world : World W} {laws : ClockLaws W}
    (P : Params) (fuel : nat) (dt : R) (w : W) :
  0 < dt ->
  T P < INR fuel * dt ->
  fst (fst (Loop.run P (S fuel) dt w)) <> Loop.OutOfFuel.
Proof.
  intros Hdt Hfuel. unfold Loop.run.
  pose proof (time_time_reads w) as Hread.
  pose proof (time_time_steady w) as Hsteady.
  destruct (time_time w) as [start_time w0]. cbn [fst snd] in Hread, Hsteady.
  apply (run_loop_terminates P (laws := laws)); [exact Hdt | lra].
Qed.


(** ** The HTTP client *)

Section ClientFacts.
Import Client.
Local Open Scope string_scope.

Lemma concat_ampersands (f : string * string -> string) (kv : string * string)
    (rest : list (string * string)) :
  String.concat "" (map (fun kv => "&" ++ f kv) (kv :: rest))
  = "&" ++ String.concat "&" (map f (kv :: rest)).
Proof.
  revert kv. induction rest as [|kv' rest IH]; intros kv.
  - reflexivity.
  - change (String.concat "" (map (fun kv => "&" ++ f kv) (kv :: kv' :: rest)))
      with (("&" ++ f kv) ++ "" ++ String.concat "" (map (fun kv => "&" ++ f kv) (kv' :: rest))).
    rewrite IH. 
    change (String.concat "&" (map f (kv :: kv' :: rest)))
      with (f kv ++ "&" ++ String.concat "&" (map f (kv' :: rest))).
    simpl. reflexivity.
Qed.

(** X21. [query_generation] is the empty string when every value is [None];
    otherwise it is "?" followed by the "key=value" pairs of the values that
    are not [None], in the order of the dict, joined by "&". *)
Theorem query_generation_joins (params : list (string * option string)) :
  query_generation params
  = match relevant_params params with
    | [] => ""
    | kvs => "?" ++ String.concat "&" (map (fun kv => fst kv ++ "=" ++ snd kv) kvs)
    end.
Proof.
  unfold query_generation. destruct (relevant_params params) as [|kv rest].
  - reflexivity.
  - cbn [length Nat.ltb Nat.leb]. rewrite concat_ampersands. reflexivity.
Qed.

(** X22. Given the contract of [raise_for_status] (it raises exactly for the
    status codes 400 to 599), [raise_if_bad_response] raises exactly for
    those codes: the codes below 200, 299 and the 3xx codes, although outside
    [range(200, 299)], are accepted. *)
Theorem bad_response_is_4xx_5xx (raise_for_status : Z -> result unit)
    (status_code : Z) :
  (forall c : Z, (exists e, raise_for_status c = Raise e) <-> (400 <= c < 600)%Z) ->
  ((exists e, raise_if_bad_response raise_for_status status_code = Raise e)
   <-> (400 <= status_code < 600)%Z).
Proof.
  intros Hcontract. unfold raise_if_bad_response, in_range.
  destruct ((200 <=? status_code)%Z && (status_code <? 299)%Z) eqn:Hrange; simpl.
  - apply andb_true_iff in Hrange as [H1 H2].
    apply Z.leb_le in H1. apply Z.ltb_lt in H2.
    split; [intros [e E]; discriminate | lia].
  - apply Hcontract.
Qed.

Lemma before_query_app (p q : string) :
  before_query (p ++ String "?" q) = before_query p.
Proof.
  induction p as [|c p IH]; simpl.
  - reflexivity.
  - destruct (c =? "?")%char; [reflexivity | rewrite IH; reflexivity].
Qed.

(** X23. The text that is signed, and so the headers, do not depend on the
    query string: everything from the first "?" of the path on is left
    out. *)
Theorem signed_text_ignores_query (sign_pss_text : string -> string)
    (key_id : string) (current_time_milliseconds : Z) (method p q : string) :
  (forall timestamp_str,
      msg_string timestamp_str method (p ++ "?" ++ q)
      = msg_string timestamp_str method p)
  /\ request_headers sign_pss_text key_id current_time_milliseconds method
       (p ++ "?" ++ q)
     = request_headers sign_pss_text key_id current_time_milliseconds method p.
Proof.
  assert (E : forall ts, msg_string ts method (p ++ "?" ++ q) = msg_string ts method p).
  { intros ts. unfold msg_string.
    change ("?" ++ q) with (String "?" q). rewrite before_query_app.
    (* a path without query is cut at its own first "?" in the same way *)
    reflexivity. }
  split; [exact E|]. unfold request_headers. rewrite E. reflexivity.
Qed.

(** X24. On a clock that does not run backwards, [rate_limit] leaves at
    least 100 ms between the recorded time of the previous call and the time
    it records, which is again not after the clock: consecutive calls through
    one client are at least 100 ms apart. *)
Theorem rate_limit_spacing {W : Type} {world : World W} {laws : ClockLaws W}
    (last_api_call : R) (w : W) :
  last_api_call <= clock_of w ->
  last_api_call + 0.1 <= fst (rate_limit last_api_call w)
  /\ fst (rate_limit last_api_call w) <= clock_of (snd (rate_limit last_api_call w)).
Proof.
  intros Hlast. unfold rate_limit.
  pose proof (time_time_reads w) as Hread.
  pose proof (time_time_steady w) as Hsteady.
  destruct (time_time w) as [now w1]. cbn [fst snd] in Hread, Hsteady.
  destruct (Rlt_dec (now - last_api_call) 0.1) as [Hsoon | Hlate].
  - pose proof (time_sleep_advances 0.1 w1) as Hsleep.
    pose proof (time_time_reads (time_sleep 0.1 w1)) as Hread'.
    pose proof (time_time_steady (time_sleep 0.1 w1)) as Hsteady'.
    destruct (time_time (time_sleep 0.1 w1)) as [last' w3].
    cbn [fst snd] in *. lra.
  - pose proof (time_time_reads w1) as Hread'.
    pose proof (time_time_steady w1) as Hsteady'.
    destruct (time_time w1) as [last' w3]. cbn [fst snd] in *. lra.
Qed.

End ClientFacts.

(** ** The further properties at concrete inputs *)

(** The scripted venue keeps the clock laws: only a sleep moves its clock. *)
#[export] Instance venue_clock : ClockLaws Sim.venue.
Proof.
  refine {| clock_of := Sim.clock |}.
  - intros v. reflexivity.
  - intros v. simpl. lra.
  - intros d v. simpl. lra.
  - intros v. simpl. lra.
  - intros t v. simpl. lra.
  - intros t v. simpl. lra.
  - intros t v. simpl. lra.
  - intros id v. simpl. unfold Sim.sim_cancel.
    destruct (Sim.cancel_status v); simpl; lra.
  - intros req v. simpl. unfold Sim.sim_create.
    destruct (Sim.create_status v); simpl; lra.
Defined.

Lemma reservation_price_flat_inventory_witness :
  (max_position Scenario.params <> 0%Z /\ T Scenario.params <> 0)
  /\ calculate_reservation_price Scenario.params 0.50 0 120 = Ok 0.50.
Proof.
  assert (Hm : max_position Scenario.params <> 0%Z) by (simpl; lia).
  assert (HT : T Scenario.params <> 0) by (simpl; lra).
  split; [split; assumption|].
  exact (reservation_price_flat_inventory Scenario.params 0.50 120 Hm HT).
Defined.

Lemma reservation_price_at_horizon_witness :
  (max_position Scenario.params <> 0%Z /\ T Scenario.params <> 0)
  /\ calculate_reservation_price Scenario.params 0.50 80 (T Scenario.params)
     = Ok (0.50 + IZR 80 * inventory_skew_factor Scenario.params * 0.50).
Proof.
  assert (Hm : max_position Scenario.params <> 0%Z) by (simpl; lia).
  assert (HT : T Scenario.params <> 0) by (simpl; lra).
  split; [split; assumption|].
  exact (reservation_price_at_horizon Scenario.params 0.50 80 Hm HT).
Defined.

Lemma spread_at_position_limit_witness :
  (valid_params Scenario.params /\ 0 <= min_spread Scenario.params
   /\ Z.abs (-100) = max_position Scenario.params)
  /\ calculate_optimal_spread Scenario.params 120 (-100)
     = Ok (min_spread Scenario.params).
Proof.
  assert (Hmin : 0 <= min_spread Scenario.params) by (simpl; lra).
  assert (Hfull : Z.abs (-100) = max_position Scenario.params) by reflexivity.
  split; [split; [exact scenario_params_valid | split; assumption]|].
  exact (spread_at_position_limit Scenario.params 120 (-100)
           scenario_params_valid Hmin Hfull).
Defined.

Lemma quotes_flat_inventory_witness :
  (valid_params Scenario.params /\ 0 <= min_spread Scenario.params)
  /\ exists spread : R,
      calculate_optimal_spread Scenario.params 120 0 = Ok spread
      /\ min_spread Scenario.params <= spread
      /\ calculate_asymmetric_quotes Scenario.params 0.50 0 120
         = Ok (Py.max 0 (0.50 - spread / 2), Py.min 1 (0.50 + spread / 2)).
Proof.
  assert (Hmin : 0 <= min_spread Scenario.params) by (simpl; lra).
  split; [split; [exact scenario_params_valid | exact Hmin]|].
  exact (quotes_flat_inventory Scenario.params 0.50 120 scenario_params_valid Hmin).
Defined.

Lemma zero_max_position_raises_witness :
  max_position Edge.no_capacity = 0%Z
  /\ calculate_asymmetric_quotes Edge.no_capacity 0.50 0 120 = Raise ZeroDivisionError
  /\ calculate_order_sizes Edge.no_capacity 0 = (1, 1)%Z.
Proof.
  assert (Hm : max_position Edge.no_capacity = 0%Z) by reflexivity.
  split; [exact Hm|].
  destruct (zero_max_position_raises Edge.no_capacity 0.50 120 0 Hm)
    as (_ & _ & _ & Hq & Hs).
  split; assumption.
Defined.

Lemma order_sizes_at_limit_witness :
  (max_position Scenario.params <= Z.abs 100)%Z
  /\ calculate_order_sizes Scenario.params 100 = (1, 100)%Z.
Proof.
  assert (Hfull : (max_position Scenario.params <= Z.abs 100)%Z) by (simpl; lia).
  split; [exact Hfull|].
  exact (order_sizes_at_limit Scenario.params 100 Hfull).
Defined.

Lemma order_sizes_mirror_witness :
  80%Z <> 0%Z
  /\ calculate_order_sizes Scenario.params (- 80)
     = (snd (calculate_order_sizes Scenario.params 80),
        fst (calculate_order_sizes Scenario.params 80)).
Proof.
  assert (Hnz : 80%Z <> 0%Z) by lia.
  split; [exact Hnz|].
  exact (order_sizes_mirror Scenario.params 80 Hnz).
Defined.

Lemma mid_between_bid_and_ask_witness :
  (get_market (market_ticker Scenario.params) (Scenario.open_venue [])
   = (Ok Scenario.quotes, Scenario.open_venue [])
   /\ (Z.abs (yes_bid Scenario.quotes) <= 2 ^ 40)%Z
   /\ (Z.abs (yes_ask Scenario.quotes) <= 2 ^ 40)%Z
   /\ (Z.abs (no_bid Scenario.quotes) <= 2 ^ 40)%Z
   /\ (Z.abs (no_ask Scenario.quotes) <= 2 ^ 40)%Z)
  /\ exists cy cn : Z,
      outcome (get_mid_price Scenario.params (Scenario.open_venue []))
      = Ok {| mid_yes := Py.round64 (IZR cy / 100);
              mid_no := Py.round64 (IZR cn / 100) |}
      /\ (49 <= cy <= 51)%Z /\ (49 <= cn <= 51)%Z.
Proof.
  assert (Hg : get_market (market_ticker Scenario.params) (Scenario.open_venue [])
               = (Ok Scenario.quotes, Scenario.open_venue [])) by reflexivity.
  assert (Hb : (Z.abs (yes_bid Scenario.quotes) <= 2 ^ 40)%Z
               /\ (Z.abs (yes_ask Scenario.quotes) <= 2 ^ 40)%Z
               /\ (Z.abs (no_bid Scenario.quotes) <= 2 ^ 40)%Z
               /\ (Z.abs (no_ask Scenario.quotes) <= 2 ^ 40)%Z)
    by (simpl; lia).
  split; [split; [exact Hg | exact Hb]|].
  destruct (mid_between_bid_and_ask Scenario.params _ _ _ Hg Hb)
    as (cy & cn & E & _ & Hy & _ & Hn).
  exists cy, cn. split; [exact E|]. simpl in Hy, Hn. split; lia.
Defined.

Lemma current_position_sums_ticker_witness :
  get_positions (market_ticker Scenario.params) Edge.portfolio
  = (Ok (Sim.holdings Edge.portfolio), Edge.portfolio)
  /\ outcome (get_current_position Scenario.params Edge.portfolio) = Ok 4%Z.
Proof.
  assert (Hg : get_positions (market_ticker Scenario.params) Edge.portfolio
               = (Ok (Sim.holdings Edge.portfolio), Edge.portfolio)) by reflexivity.
  split; [exact Hg|].
  exact (current_position_sums_ticker Scenario.params _ _ _ Hg).
Defined.

(** The bid placed one cent above a cancelled one, as a create call. *)
Lemma bid_49_is_created :
  In (Scenario.buy_request 49 "u")
     (create_calls
        (emitted (handle_order_side Scenario.params "buy" [Scenario.resting_bid]
                    (Py.round64 0.49) 10
                    (Scenario.open_venue [Scenario.resting_bid])))).
Proof. rewrite one_cent_away_cancelled. simpl. left. reflexivity. Qed.


Lemma price_49_in_range : 0 <= Py.round64 0.49 <= 1.
Proof. round64_is 0.49 54%Z 8827055269646172%Z. lra. Qed.

Lemma quoted_price_in_cents_witness :
  (0 <= Py.round64 0.49 <= 1 /\ trade_side Scenario.params = "yes"%string)
  /\ exists cents : Z,
      (0 <= cents <= 100)%Z
      /\ Py.round64 0.49 * 100 - 1 - / 70368744177664 < IZR cents
         <= Py.round64 0.49 * 100 + / 70368744177664
      /\ ((trade_side Scenario.params = "yes"%string
           /\ req_yes_price (Scenario.buy_request 49 "u") = Some cents
           /\ req_no_price (Scenario.buy_request 49 "u") = None)
          \/ (trade_side Scenario.params = "no"%string
              /\ req_no_price (Scenario.buy_request 49 "u") = Some cents
              /\ req_yes_price (Scenario.buy_request 49 "u") = None)).
Proof.
  assert (Hside : trade_side Scenario.params = "yes"%string
                  \/ trade_side Scenario.params = "no"%string)
    by (left; reflexivity).
  split; [split; [exact price_49_in_range | reflexivity]|].
  exact (quoted_price_in_cents Scenario.params "buy" [Scenario.resting_bid]
           (Py.round64 0.49) 10 (Scenario.open_venue [Scenario.resting_bid])
           (Scenario.buy_request 49 "u") price_49_in_range Hside bid_49_is_created).
Defined.

Lemma cycle_cancels_own_orders_witness :
  exists o : order,
    In o [Scenario.stale_ask] /\ order_id o = "s1"%string
    /\ side o = trade_side Scenario.params
    /\ (action o = "buy"%string \/ action o = "sell"%string).
Proof.
  apply (cycle_cancels_own_orders Scenario.params 0.40 0.60 10 10
           (Scenario.open_venue [Scenario.stale_ask])).
  - rewrite (proj2 stale_ask_cycle). left. reflexivity.
  - rewrite (proj2 stale_ask_cycle). simpl. left. reflexivity.
Defined.

Lemma unknown_side_never_places_witness :
  (trade_side Edge.unknown_side <> "yes"%string
   /\ trade_side Edge.unknown_side <> "no"%string)
  /\ create_calls
       (emitted (handle_order_side Edge.unknown_side "buy" [] 0.40 10
                   (Scenario.open_venue []))) = [].
Proof.
  assert (Hyes : trade_side Edge.unknown_side <> "yes"%string) by discriminate.
  assert (Hno : trade_side Edge.unknown_side <> "no"%string) by discriminate.
  split; [split; assumption|].
  exact (proj1 (unknown_side_never_places Edge.unknown_side "buy" [] 0.40 10
                  (Scenario.open_venue []) Hyes Hno)).
Defined.

Lemma unknown_side_stops_cycle_witness :
  (trade_side Edge.unknown_side <> "yes"%string
   /\ trade_side Edge.unknown_side <> "no"%string)
  /\ exists (now : R) (fetched : result market),
      emitted (run_cycle Edge.unknown_side 1000 1 (Scenario.open_venue []))
      = [EvLog Info (MsgRunning (now - 1000));
         EvGetMarket (market_ticker Edge.unknown_side) fetched]
      /\ outcome (run_cycle Edge.unknown_side 1000 1 (Scenario.open_venue []))
         = match fetched with
           | Ok _ => Raise (KeyError (trade_side Edge.unknown_side))
           | Raise e => Raise e
           end.
Proof.
  assert (Hyes : trade_side Edge.unknown_side <> "yes"%string) by discriminate.
  assert (Hno : trade_side Edge.unknown_side <> "no"%string) by discriminate.
  split; [split; assumption|].
  exact (unknown_side_stops_cycle Edge.unknown_side 1000 1
           (Scenario.open_venue []) Hyes Hno).
Defined.

Lemma run_terminates_witness :
  (0 < 3600 /\ T Scenario.params < INR 2 * 3600)
  /\ fst (fst (Loop.run Scenario.params 3 3600 (Scenario.open_venue [])))
     <> Loop.OutOfFuel.
Proof.
  assert (Hdt : 0 < 3600) by lra.
  assert (Hfuel : T Scenario.params < INR 2 * 3600) by (simpl; lra).
  split; [split; assumption|].
  exact (run_terminates Scenario.params 2 3600 (Scenario.open_venue []) Hdt Hfuel).
Defined.

Lemma raise_for_status_contract (c : Z) :
  (exists e, Edge.raise_for_status c = Raise e) <-> (400 <= c < 600)%Z.
Proof.
  unfold Edge.raise_for_status.
  destruct ((400 <=? c)%Z && (c <? 600)%Z) eqn:E.
  - apply andb_true_iff in E as [H1 H2].
    apply Z.leb_le in H1. apply Z.ltb_lt in H2.
    split; [lia | intros _; eexists; reflexivity].
  - apply andb_false_iff in E.
    split; [intros [e H]; discriminate|].
    intros [H1 H2]. exfalso.
    destruct E as [E | E]; [apply Z.leb_gt in E | apply Z.ltb_ge in E]; lia.
Qed.

Lemma bad_response_is_4xx_5xx_witness :
  (forall c : Z,
      (exists e, Edge.raise_for_status c = Raise e) <-> (400 <= c < 600)%Z)
  /\ ((exists e, Client.raise_if_bad_response Edge.raise_for_status 299 = Raise e)
      <-> (400 <= 299 < 600)%Z).
Proof.
  split; [exact raise_for_status_contract|].
  exact (bad_response_is_4xx_5xx Edge.raise_for_status 299 raise_for_status_contract).
Defined.

Lemma rate_limit_spacing_witness :
  1000 <= clock_of (Scenario.open_venue [])
  /\ 1000 + 0.1 <= fst (Client.rate_limit 1000 (Scenario.open_venue [])).
Proof.
  assert (Hlast : 1000 <= clock_of (Scenario.open_venue [])) by (simpl; lra).
  split; [exact Hlast|].
  exact (proj1 (rate_limit_spacing 1000 (Scenario.open_venue []) Hlast)).
Defined.
